(** * Glass Shadow: a shallow embedding of the runtime core

  The development follows the JavaScript sources of the game:

  - [Vitals]    : [pillars/vitals.js]  (VitalsSystem, NPCVitals)
  - [Npc]       : [entities/npc.js]    (NPC.tick, NPC.updateAwareness)
  - [Modes]     : [ui/modes.js]        (MODES, ModeManager)
  - [State]     : [core/state.js]      (GameState)
  - [Priority]  : [ui/priorities.js]   (PriorityManager)
  - [Game]      : [main.js]            (GlassShadow)
  - [Effects]   : [pillars/vitals.js]  (VitalsSystem.getEffectModifier)
  - [Bus]       : [core/engine.js]     (EventBus)
  - [Display]   : [ui/display.js]      (Card, DisplayManager)

  JavaScript numbers are modelled as rationals ([Q]); the values the
  code manipulates are sums of integer constants and of [0.5], which
  are exact in both worlds.  Where the code adds decimal fractions
  (the modifiers of the display manager) or reads an integer of any
  size ([parseInt]), the result is rounded to the nearest double
  ([Js.fl]).  Objects used as maps are [gmap]s, [Set]s
  of condition tags are [gset]s, arrays and insertion-ordered [Map]s
  that are iterated are lists.  Timers ([setTimeout]) are kept in an
  explicit queue together with a logical clock; a timer fires as soon
  as the clock has reached its due time.  [Math.random] enters as an
  argument of the function that draws from it. *)

From Stdlib Require Import QArith Qpower Lqa ZArith Lia Sorted Permutation.
From Stdlib Require Import DecimalString.
From stdpp Require Import base strings list gmap.

Open Scope string_scope.
Open Scope list_scope.
Open Scope Q_scope.

(** ** JavaScript primitives *)

Module Js.

(** The values a dynamic property read can produce.  Objects and
    functions are opaque: only their being neither a number nor
    [undefined] matters here. *)
Inductive value :=
| Undefined
| Num (q : Q)
| Obj (what : string).

(** [Math.max(a, b)] and [Math.min(a, b)] on finite numbers. *)
Definition Math_max (a b : Q) : Q := if Qle_bool a b then b else a.
Definition Math_min (a b : Q) : Q := if Qle_bool a b then a else b.

(** The double nearest to a rational, ties going to the even
    significand: what a decimal literal denotes, and what an addition
    of doubles returns for the exact sum.  The exponent is not bounded
    here (no overflow to [Infinity], no subnormals). *)
Definition nearest_even (x : Q) : Z :=
  let n := Qnum x in
  let d := Zpos (Qden x) in
  let q := (n / d)%Z in
  match (2 * (n mod d) ?= d)%Z with
  | Lt => q
  | Gt => (q + 1)%Z
  | Eq => if Z.even q then q else (q + 1)%Z
  end.

(** For a positive [x], the [e] with [2 ^ e <= x < 2 ^ (e + 1)]. *)
Definition binade (x : Q) : Z :=
  let e := (Z.log2 (Qnum x) - Z.log2 (Zpos (Qden x)))%Z in
  if Qle_bool (2 ^ e) x then e else (e - 1)%Z.

Definition fl_pos (x : Q) : Q :=
  let k := (binade x - 52)%Z in
  inject_Z (nearest_even (x / 2 ^ k)) * 2 ^ k.

Definition fl (x : Q) : Q :=
  if Qeq_bool x 0 then 0
  else if Qle_bool 0 x then fl_pos x else - fl_pos (- x).

(** [a < b], [a <= b], [a > b], [a >= b] as booleans. *)
Definition ltb (a b : Q) : bool := negb (Qle_bool b a).
Definition leb (a b : Q) : bool := Qle_bool a b.
Definition gtb (a b : Q) : bool := ltb b a.
Definition geb (a b : Q) : bool := leb b a.

(** [s.has(x)] on a [Set] of strings. *)
Definition has (s : gset string) (x : string) : bool := bool_decide (x ∈ s).

(** [arr.includes(x)] on an array of strings. *)
Definition includes (l : list string) (x : string) : bool := bool_decide (x ∈ l).

(** Names every object inherits from [Object.prototype]: a property
    read [o[name]] on a plain object finds these even when [o] has no
    such key of its own. *)
Definition object_prototype_keys : list string :=
  [ "constructor"; "toString"; "toLocaleString"; "valueOf";
    "hasOwnProperty"; "isPrototypeOf"; "propertyIsEnumerable";
    "__proto__"; "__defineGetter__"; "__defineSetter__";
    "__lookupGetter__"; "__lookupSetter__" ].

End Js.

(** ** Vitals ([pillars/vitals.js]) *)

Module Vitals.
Import Js.

(** [VITAL_THRESHOLDS] and the bleed rate of [CONDITION_EFFECTS]
    ([core/constants.js]). *)
Definition STRESS_HIGH : Q := 70.
Definition STRESS_CRITICAL : Q := 90.
Definition HEALTH_WOUNDED : Q := 30.
Definition HEALTH_CRITICAL : Q := 10.
Definition DETECTION_SUSPICIOUS : Q := 60.
Definition DETECTION_SPOTTED : Q := 80.
Definition injured_bleedRate : Q := 2.

(** The fields of a [VitalsSystem] instance.  [effects] keeps, for
    every timed effect, its remaining ticks. *)
Record VitalsSystem := mkVitals {
  health : Q;
  maxHealth : Q;
  stamina : Q;
  maxStamina : Q;
  stress : Q;
  detection : Q;
  conditions : gset string;
  effects : list (string * Q)
}.

(** [new VitalsSystem({})]. *)
Definition default_vitals : VitalsSystem :=
  mkVitals 100 100 100 100 0 0 ∅ [].

Definition set_health (x : Q) (v : VitalsSystem) : VitalsSystem :=
  mkVitals x (maxHealth v) (stamina v) (maxStamina v) (stress v)
           (detection v) (conditions v) (effects v).
Definition set_stamina (x : Q) (v : VitalsSystem) : VitalsSystem :=
  mkVitals (health v) (maxHealth v) x (maxStamina v) (stress v)
           (detection v) (conditions v) (effects v).
Definition set_stress (x : Q) (v : VitalsSystem) : VitalsSystem :=
  mkVitals (health v) (maxHealth v) (stamina v) (maxStamina v) x
           (detection v) (conditions v) (effects v).
Definition set_detection (x : Q) (v : VitalsSystem) : VitalsSystem :=
  mkVitals (health v) (maxHealth v) (stamina v) (maxStamina v) (stress v)
           x (conditions v) (effects v).
Definition set_conditions (c : gset string) (v : VitalsSystem) : VitalsSystem :=
  mkVitals (health v) (maxHealth v) (stamina v) (maxStamina v) (stress v)
           (detection v) c (effects v).
Definition set_effects (e : list (string * Q)) (v : VitalsSystem) : VitalsSystem :=
  mkVitals (health v) (maxHealth v) (stamina v) (maxStamina v) (stress v)
           (detection v) (conditions v) e.

(** The four names [modifyVital] switches on. *)
Definition vital_names : list string :=
  ["health"; "stamina"; "stress"; "detection"].

(** Methods found on the prototype of a [VitalsSystem]. *)
Definition vitals_methods : list string :=
  [ "getHealthStatus"; "getStressStatus"; "getDetectionStatus";
    "modifyVital"; "updateConditions"; "getEffectModifier";
    "applyEffect"; "tick"; "serialize" ].

(** The dynamic read [this[vital]]: own data fields first, then the
    class prototype, then [Object.prototype]; anything else is
    [undefined]. *)
Definition get_property (v : VitalsSystem) (name : string) : value :=
  if String.eqb name "health" then Num (health v)
  else if String.eqb name "maxHealth" then Num (maxHealth v)
  else if String.eqb name "stamina" then Num (stamina v)
  else if String.eqb name "maxStamina" then Num (maxStamina v)
  else if String.eqb name "stress" then Num (stress v)
  else if String.eqb name "detection" then Num (detection v)
  else if String.eqb name "conditions" then Obj "Set"
  else if String.eqb name "effects" then Obj "Map"
  else if includes vitals_methods name then Obj "function"
  else if includes object_prototype_keys name then Obj "inherited"
  else Undefined.

(** [updateConditions()]: the four automatic tags are cleared and
    re-derived from the thresholds; other tags are kept. *)
Definition autoConditions : gset string :=
  {[ "high-stress"; "injured"; "exhausted"; "panicked" ]}.

Definition add_if (b : bool) (c : string) (s : gset string) : gset string :=
  if b then {[ c ]} ∪ s else s.

Definition derived_conditions (v : VitalsSystem) : gset string :=
  add_if (ltb (stamina v) 20) "exhausted"
    (add_if (ltb (health v) HEALTH_WOUNDED) "injured"
      (add_if (gtb (stress v) STRESS_CRITICAL) "panicked"
        (add_if (gtb (stress v) STRESS_HIGH) "high-stress"
          (conditions v ∖ autoConditions)))).

Definition updateConditions (v : VitalsSystem) : VitalsSystem :=
  set_conditions (derived_conditions v) v.

(** [modifyVital(vital, amount)]: the switch, then
    [updateConditions()], then [return this[vital]]. *)
Definition modify_switch (vital : string) (amount : Q) (v : VitalsSystem)
  : VitalsSystem :=
  if String.eqb vital "health" then
    set_health (Math_max 0 (Math_min (maxHealth v) (health v + amount))) v
  else if String.eqb vital "stamina" then
    set_stamina (Math_max 0 (Math_min (maxStamina v) (stamina v + amount))) v
  else if String.eqb vital "stress" then
    set_stress (Math_max 0 (Math_min 100 (stress v + amount))) v
  else if String.eqb vital "detection" then
    set_detection (Math_max 0 (Math_min 100 (detection v + amount))) v
  else v.

Definition modifyVital (vital : string) (amount : Q) (v : VitalsSystem)
  : VitalsSystem * value :=
  let v' := updateConditions (modify_switch vital amount v) in
  (v', get_property v' vital).

(** The stored value of one of the four vitals, and its upper bound. *)
Definition vital_of (vital : string) (v : VitalsSystem) : Q :=
  if String.eqb vital "health" then health v
  else if String.eqb vital "stamina" then stamina v
  else if String.eqb vital "stress" then stress v
  else detection v.

Definition max_of (vital : string) (v : VitalsSystem) : Q :=
  if String.eqb vital "health" then maxHealth v
  else if String.eqb vital "stamina" then maxStamina v
  else 100.

(** [tick()]: bleeding, timed effects, stress decay, stamina
    recovery. *)
Definition tick_effects (e : list (string * Q)) : list (string * Q) :=
  filter (fun p => negb (leb (snd p) 0))
         (map (fun p => (fst p, snd p - 1)) e).

Definition tick (v : VitalsSystem) : VitalsSystem :=
  let v1 := if has (conditions v) "injured"
            then fst (modifyVital "health" (- injured_bleedRate) v) else v in
  let v2 := set_effects (tick_effects (effects v1)) v1 in
  let v3 := if ltb (detection v2) DETECTION_SUSPICIOUS
            then fst (modifyVital "stress" (-1) v2) else v2 in
  fst (modifyVital "stamina" (1#2) v3).

(** *** NPCVitals *)

Inductive Awareness :=
| Unaware | Suspicious | Alert | Hostile | Allied | Neutral.

#[global] Instance Awareness_eq_dec : EqDecision Awareness.
Proof. solve_decision. Defined.

Record NPCVitals := mkNPCVitals {
  base : VitalsSystem;
  awareness : Awareness;
  suspicion : Q;
  alertCooldown : Q
}.

(** [addSuspicion(amount)]. *)
Definition addSuspicion (amount : Q) (n : NPCVitals) : NPCVitals :=
  let s := Math_min 100 (suspicion n + amount) in
  let a1 := if gtb s 30 && bool_decide (awareness n = Unaware)
            then Suspicious else awareness n in
  let a2 := if gtb s 70 && bool_decide (a1 = Suspicious)
            then Alert else a1 in
  let a3 := if geb s 100 then Hostile else a2 in
  mkNPCVitals (base n) a3 s (alertCooldown n).

(** [decaySuspicion(amount = 1)]. *)
Definition decaySuspicion (amount : Q) (n : NPCVitals) : NPCVitals :=
  if gtb (alertCooldown n) 0 then
    mkNPCVitals (base n) (awareness n) (suspicion n) (alertCooldown n - 1)
  else
    let s := Math_max 0 (suspicion n - amount) in
    let a := if ltb s 30 && bool_decide (awareness n = Suspicious)
             then Unaware else awareness n in
    mkNPCVitals (base n) a s (alertCooldown n).

(** [canAct()]. *)
Definition canAct (n : NPCVitals) : bool :=
  gtb (health (base n)) 0 && negb (has (conditions (base n)) "unconscious").

(** [this.vitals.tick()] on an [NPCVitals]: the inherited [tick]. *)
Definition npc_vitals_tick (n : NPCVitals) : NPCVitals :=
  mkNPCVitals (tick (base n)) (awareness n) (suspicion n) (alertCooldown n).

End Vitals.

(** ** Host effects: the event bus, the advisor, timers *)

Module Runtime.

(** What the core does to its collaborators.  The advisor characters,
the renderer and the DOM are outside the core: a call into them is
recorded, not interpreted. *)
Inductive event :=
| Emit (name : string) (detail : string)   (* eventBus.emit(name, {...}) *)
| Speech (text : string)                   (* sloan.forceSpeech / sloan.speak *)
| SpeechLocked (level : option Q)          (* sloan.forceSpeech(`Locked. Need a
                                              Level ${level} keycard.`); [None]
                                              is [undefined] *)
| ErrorOverlay (text : string)             (* showError(text) *)
| LoopStop                                 (* stop() *)
| UiRefresh                                (* updateUI() *)
| MarkVisited (room : string)              (* mapRenderer.markVisited(room) *)
| Advisor (call : string).                 (* other calls into Sloan or Mack *)

#[global] Instance Q_eq_dec : EqDecision Q.
Proof. solve_decision. Defined.

#[global] Instance event_eq_dec : EqDecision event.
Proof. solve_decision. Defined.

(** The callbacks the program hands to [setTimeout]. *)
Inductive timer_action :=
| UnlockTransitions                        (* modes.js: transitionLocked = false *)
| EnableDetection (room : string)          (* main.js: detectionEnabled = true *)
| HackComplete (contents : list string).   (* main.js: hackTerminal *)

Record timer := mkTimer { due : Q; action : timer_action }.

(** What a call into the core asks of its host. *)
Inductive request :=
| SetTimeout (delay : Q) (a : timer_action)
| Notify (e : event).

(** The timer queue is kept in firing order: by due time, and among
equal due times by the order of the [setTimeout] calls. *)
Fixpoint enqueue (t : timer) (ts : list timer) : list timer :=
  match ts with
  | [] => [t]
  | u :: ts' => if Js.ltb (due t) (due u) then t :: u :: ts'
                else u :: enqueue t ts'
  end.

Definition is_due (now : Q) (t : timer) : bool := Js.leb (due t) now.

Definition due_timers (now : Q) (ts : list timer) : list timer :=
  filter (fun t => is_due now t) ts.

Definition later_timers (now : Q) (ts : list timer) : list timer :=
  filter (fun t => negb (is_due now t)) ts.

(** The host's part of a call made at time [now]: timers are queued,
notifications delivered. *)
Fixpoint serve (now : Q) (rs : list request) (ts : list timer) : list timer :=
  match rs with
  | [] => ts
  | SetTimeout d a :: rs' => serve now rs' (enqueue (mkTimer (now + d) a) ts)
  | Notify _ :: rs' => serve now rs' ts
  end.

Definition notifications (rs : list request) : list event :=
  omap (fun r => match r with Notify e => Some e | _ => None end) rs.

End Runtime.

(** ** NPCs ([entities/npc.js]) *)

Module Npc.
Import Js Vitals.

(** Position, facing and the patrol, work and idle counters: the
fields the behaviour routines write. *)
Record Motion := mkMotion {
  position : Q * Q;
  facing : string;
  behavior : string;
  patrolIndex : Z;
  patrolDirection : Z;
  idleTimer : Q;
  currentWorkStation : Z
}.

Record NPC := mkNPC {
  id : string;
  type : string;
  name : string;
  vitals : NPCVitals;
  location : string;
  motion : Motion;
  awareness : Awareness;
  engaged : bool;
  capabilities : gset string;
  inventory : list string;
  dialogueId : option string;
  actionCooldown : Q;
  alreadySpotted : bool;        (* _alreadySpotted, absent until first set *)
  engagementHandled : bool      (* _engagementHandled, absent until first set *)
}.

Definition set_vitals (x : NPCVitals) (n : NPC) : NPC :=
  mkNPC (id n) (type n) (name n) x (location n) (motion n) (awareness n)
        (engaged n) (capabilities n) (inventory n) (dialogueId n)
        (actionCooldown n) (alreadySpotted n) (engagementHandled n).
Definition set_motion (x : Motion) (n : NPC) : NPC :=
  mkNPC (id n) (type n) (name n) (vitals n) (location n) x (awareness n)
        (engaged n) (capabilities n) (inventory n) (dialogueId n)
        (actionCooldown n) (alreadySpotted n) (engagementHandled n).
Definition set_awareness (x : Awareness) (n : NPC) : NPC :=
  mkNPC (id n) (type n) (name n) (vitals n) (location n) (motion n) x
        (engaged n) (capabilities n) (inventory n) (dialogueId n)
        (actionCooldown n) (alreadySpotted n) (engagementHandled n).
Definition set_engaged (x : bool) (n : NPC) : NPC :=
  mkNPC (id n) (type n) (name n) (vitals n) (location n) (motion n)
        (awareness n) x (capabilities n) (inventory n) (dialogueId n)
        (actionCooldown n) (alreadySpotted n) (engagementHandled n).
Definition set_actionCooldown (x : Q) (n : NPC) : NPC :=
  mkNPC (id n) (type n) (name n) (vitals n) (location n) (motion n)
        (awareness n) (engaged n) (capabilities n) (inventory n)
        (dialogueId n) x (alreadySpotted n) (engagementHandled n).
Definition set_alreadySpotted (x : bool) (n : NPC) : NPC :=
  mkNPC (id n) (type n) (name n) (vitals n) (location n) (motion n)
        (awareness n) (engaged n) (capabilities n) (inventory n)
        (dialogueId n) (actionCooldown n) x (engagementHandled n).
Definition set_engagementHandled (x : bool) (n : NPC) : NPC :=
  mkNPC (id n) (type n) (name n) (vitals n) (location n) (motion n)
        (awareness n) (engaged n) (capabilities n) (inventory n)
        (dialogueId n) (actionCooldown n) (alreadySpotted n) x.

(** [hasCapability(capability)]. *)
Definition hasCapability (c : string) (n : NPC) : bool :=
  has (capabilities n) c.

(** [updateAwareness()]: the NPC's own [awareness] field is re-derived
from [vitals.suspicion]. *)
Definition updateAwareness (n : NPC) : NPC :=
  let s := suspicion (vitals n) in
  if geb s 100 then set_awareness Hostile n
  else if geb s 70 then set_awareness Alert n
  else if geb s 30 then set_awareness Suspicious n
  else if ltb s 10 && bool_decide (awareness n = Suspicious)
       then set_awareness Unaware n
  else n.

(** [takeDamage(amount)] and [subdue()]; [subdue] returns the
inventory. *)
Definition takeDamage (amount : Q) (n : NPC) : NPC :=
  let b := fst (modifyVital "health" (- amount) (base (vitals n))) in
  let v := mkNPCVitals b (Vitals.awareness (vitals n))
                       (suspicion (vitals n)) (alertCooldown (vitals n)) in
  if leb (health b) 0 then
    let b' := set_conditions ({[ "unconscious" ]} ∪ conditions b) b in
    set_engaged false
      (set_vitals (mkNPCVitals b' (Vitals.awareness v) (suspicion v)
                               (alertCooldown v)) n)
  else set_vitals v n.

Definition subdue (n : NPC) : NPC * list string :=
  let b := base (vitals n) in
  let b' := set_conditions ({[ "unconscious" ]} ∪ conditions b) b in
  let v' := mkNPCVitals b' (Vitals.awareness (vitals n))
                        (suspicion (vitals n)) (alertCooldown (vitals n)) in
  (set_awareness Unaware (set_engaged false (set_vitals v' n)), inventory n).

(** The first step of [tick]: suspicion decays unless the NPC is
engaged or hostile. *)
Definition decay_step (n : NPC) : NPC :=
  if negb (engaged n) && negb (bool_decide (awareness n = Hostile))
  then set_vitals (decaySuspicion 1 (vitals n)) n else n.

Section Tick.

(** The behaviour switch of [tick] ([executePatrol], [executeWork],
[executeWander], [executeGuard]) moves the NPC using [Math.random] and
square roots.  It reads the NPC and writes the motion fields only, so
it enters the model as an arbitrary function from the NPC to its new
motion fields. *)
Variable behave : NPC -> Motion.

(** [tick(gameState)]. *)
Definition tick (n : NPC) : NPC :=
  if negb (canAct (vitals n)) then n
  else
    let n1 := decay_step n in
    let n2 := updateAwareness n1 in
    let n3 := set_motion (behave n2) n2 in
    let n4 := if gtb (actionCooldown n3) 0
              then set_actionCooldown (actionCooldown n3 - 1) n3 else n3 in
    set_vitals (npc_vitals_tick (vitals n4)) n4.

End Tick.

End Npc.

(** ** Modes ([ui/modes.js]) *)

Module Modes.
Import Js Runtime.

Inductive CardState := Expanded | Standard | Minimized | Collapsed | Popup.

Record ModeConfig := mkMode {
  mode_name : string;
  availableCards : list string;
  primaryFocus : string;
  cardStates : list (string * CardState);
  allowedActions : list string
}.

Definition card_row (a i m v s e d c : CardState) : list (string * CardState) :=
  [ ("action-palette", a); ("inventory", i); ("map", m); ("vitals", v);
    ("sloan", s); ("environment", e); ("dialogue", d); ("combat", c) ].

Definition exploration_mode : ModeConfig :=
  mkMode "Exploration"
    ["action-palette"; "inventory"; "map"; "vitals"; "sloan"; "environment"]
    "environment-actions"
    (card_row Standard Minimized Minimized Standard Standard Standard
              Collapsed Collapsed)
    ["look"; "examine"; "listen"; "search"; "move"; "sneak"; "run"; "hide";
     "take"; "use"; "hack"; "lockpick"; "talk"; "distract"].

Definition dialogue_mode : ModeConfig :=
  mkMode "Dialogue" ["dialogue"; "vitals"; "sloan"] "dialogue"
    (card_row Collapsed Collapsed Collapsed Minimized Minimized Collapsed
              Expanded Collapsed)
    ["talk"; "persuade"; "intimidate"; "distract"; "flee"].

Definition combat_mode : ModeConfig :=
  mkMode "Combat" ["combat-actions"; "vitals"; "sloan"] "combat"
    (card_row Collapsed Minimized Collapsed Expanded Minimized Collapsed
              Collapsed Expanded)
    ["attack"; "subdue"; "flee"; "hide"; "use"].

Definition stealth_mode : ModeConfig :=
  mkMode "Stealth" ["stealth-actions"; "map-mini"; "vitals"; "sloan"]
    "detection-meter"
    (card_row Collapsed Collapsed Standard Expanded Minimized Minimized
              Collapsed Collapsed)
    ["sneak"; "hide"; "flee"; "distract"; "subdue"].

Definition puzzle_mode : ModeConfig :=
  mkMode "Puzzle" ["puzzle-interface"; "inventory"; "sloan"] "puzzle-interface"
    (card_row Collapsed Standard Collapsed Minimized Standard Collapsed
              Collapsed Collapsed)
    ["use"; "combine"; "examine"].

Definition cutscene_mode : ModeConfig :=
  mkMode "Cutscene" [] "narrative"
    (card_row Collapsed Collapsed Collapsed Collapsed Collapsed Collapsed
              Collapsed Collapsed)
    [].

(** The own keys of the object literal [MODES]. *)
Definition MODES : gmap string ModeConfig :=
  list_to_map
    [ ("exploration", exploration_mode); ("dialogue", dialogue_mode);
      ("combat", combat_mode); ("stealth", stealth_mode);
      ("puzzle", puzzle_mode); ("cutscene", cutscene_mode) ].

(** The six mode names. *)
Definition mode_names : list string :=
  ["exploration"; "dialogue"; "combat"; "stealth"; "puzzle"; "cutscene"].

(** The property read [MODES[key]].  [MODES] is a plain object literal,
so a key it does not own is looked up on [Object.prototype]. *)
Inductive mode_lookup :=
| OwnMode (m : ModeConfig)
| InheritedMember
| NoMember.

Definition MODES_get (key : string) : mode_lookup :=
  match MODES !! key with
  | Some m => OwnMode m
  | None => if includes object_prototype_keys key
            then InheritedMember else NoMember
  end.

(** Truthiness of [MODES[key]]: every object and function is truthy,
[undefined] is not. *)
Definition truthy (r : mode_lookup) : bool :=
  match r with NoMember => false | _ => true end.

Record ModeManager := mkManager {
  currentMode : string;
  previousMode : option string;
  modeStack : list string;
  transitionLocked : bool
}.

(** [new ModeManager(eventBus)]. *)
Definition initial_manager : ModeManager :=
  mkManager "exploration" None [] false.

(** [getCurrentMode()] returns the configuration object, not the name. *)
Definition getCurrentMode (mm : ModeManager) : mode_lookup :=
  MODES_get (currentMode mm).

(** [isActionAllowed(verb)].  Reading [allowedActions] off a member
inherited from [Object.prototype] yields [undefined], and calling
[includes] on it throws; [None] stands for that. *)
Definition isActionAllowed (verb : string) (mm : ModeManager) : option bool :=
  match getCurrentMode mm with
  | OwnMode m => Some (includes (allowedActions m) verb)
  | _ => None
  end.

(** Options of [transitionTo]. [lockDuration || 300]: an absent or zero
duration means 300. *)
Record Options := mkOptions {
  pushToStack : bool;
  lockDuration : option Q
}.

Definition no_options : Options := mkOptions false None.

Definition lock_delay (o : Options) : Q :=
  match lockDuration o with
  | Some d => if Qeq_bool d 0 then 300 else d
  | None => 300
  end.

(** [transitionTo(newMode, options)]: the result, the manager
afterwards, and the timers and notifications issued, in order. *)
Definition transitionTo (newMode : string) (o : Options) (mm : ModeManager)
  : bool * ModeManager * list request :=
  if transitionLocked mm then (false, mm, [])
  else if negb (truthy (MODES_get newMode)) then (false, mm, [])
  else if String.eqb (currentMode mm) newMode then (false, mm, [])
  else
    let fromMode := currentMode mm in
    let stack := if pushToStack o then modeStack mm ++ [fromMode]
                 else modeStack mm in
    (true,
     mkManager newMode (Some fromMode) stack true,
     [ SetTimeout (lock_delay o) UnlockTransitions;
       Notify (Emit "mode:changed" newMode) ]).

(** [returnToPrevious()]: [previousMode] is tested for truthiness, so
the empty string counts as absent. *)
Definition returnToPrevious (mm : ModeManager)
  : bool * ModeManager * list request :=
  match previousMode mm with
  | Some p => if String.eqb p EmptyString then (false, mm, [])
              else transitionTo p no_options mm
  | None => (false, mm, [])
  end.

(** [popMode()]. *)
Definition popMode (mm : ModeManager) : bool * ModeManager * list request :=
  match rev (modeStack mm) with
  | [] => (false, mm, [])
  | top :: rest =>
      transitionTo top no_options
        (mkManager (currentMode mm) (previousMode mm) (rev rest)
                   (transitionLocked mm))
  end.

(** The timer callback [() => { this.transitionLocked = false }]. *)
Definition unlock (mm : ModeManager) : ModeManager :=
  mkManager (currentMode mm) (previousMode mm) (modeStack mm) false.

(** *** A manager together with its host

The manager alone does not say when the lock is released: that is the
host's timer queue.  [Host] pairs the manager with a clock, the
pending timers and the notifications delivered so far. *)
Record Host := mkHost {
  manager : ModeManager;
  clock : Q;
  pending : list timer;
  delivered : list event
}.

Definition initial_host : Host := mkHost initial_manager 0 [] [].

(** Timers whose time has come fire, in the order they were set. *)
Definition fire (t : timer) (mm : ModeManager) : ModeManager :=
  match action t with
  | UnlockTransitions => unlock mm
  | _ => mm
  end.

Definition advance (now : Q) (h : Host) : Host :=
  mkHost (fold_left (fun mm t => fire t mm) (due_timers now (pending h))
                    (manager h))
         now
         (later_timers now (pending h))
         (delivered h).

(** The lock and the queue agree: either the manager is unlocked and
no timer is pending, or it is locked and the one pending timer is the
one that will unlock it. *)
Definition lock_consistent (h : Host) : Prop :=
  (transitionLocked (manager h) = false /\ pending h = [])
  \/ (transitionLocked (manager h) = true
      /\ exists d, pending h = [mkTimer d UnlockTransitions]).

(** A call [transitionTo(target, options)] made at time [now]. *)
Definition call_transitionTo (now : Q) (target : string) (o : Options)
  (h : Host) : bool * Host :=
  let h1 := advance now h in
  let '(ok, mm, rs) := transitionTo target o (manager h1) in
  (ok, mkHost mm now (serve now rs (pending h1))
              (delivered h1 ++ notifications rs)).

End Modes.

(** ** Game state ([core/state.js]) and mission data *)

Module State.
Import Js Vitals Npc.

(** Rooms as the content loader supplies them.  [exits] and [elements]
may be absent from the data. *)
Record Exit := mkExit {
  destination : string;
  exit_label : string;
  locked : bool;
  keycardLevel : option Q
}.

Record Element := mkElement {
  el_id : string;
  el_name : string;
  el_type : string;
  interactive : bool;
  isObjective : bool;
  defaultAction : string;
  requiresKeycard : bool;
  el_keycardLevel : option Q;
  el_description : option string;
  contents : option (list string);
  provideCover : bool
}.

Record Environment := mkEnvironment {
  env_id : string;
  env_name : string;
  exits : option (list Exit);
  elements : option (list Element);
  lighting : option string;       (* attributes?.lighting *)
  noise : option string           (* attributes?.noise *)
}.

Record Objective := mkObjective {
  obj_id : string;
  obj_type : string;
  obj_location : string;
  optional : bool;
  completed : bool
}.

(** [player.vitals] of the game state is a plain object with exactly
these four keys. *)
Record PlayerVitals := mkPlayerVitals {
  p_health : Q;
  p_stamina : Q;
  p_stress : Q;
  p_detection : Q
}.

Record GameState := mkState {
  currentEnvironment : option string;
  npcs : list NPC;                        (* Map id -> NPC, in insertion order *)
  player_vitals : PlayerVitals;
  player_conditions : list string;
  player_equipment : list string;
  connectionQuality : Q;                  (* sloan.connectionQuality *)
  objectives : option (list Objective);
  flags : gmap string bool
}.

(** [new GameState()]. *)
Definition initial_state : GameState :=
  mkState None [] (mkPlayerVitals 100 100 0 0) [] [] 100 (Some []) ∅.

Definition set_currentEnvironment (x : option string) (s : GameState) :=
  mkState x (npcs s) (player_vitals s) (player_conditions s)
          (player_equipment s) (connectionQuality s) (objectives s) (flags s).
Definition set_npcs (x : list NPC) (s : GameState) :=
  mkState (currentEnvironment s) x (player_vitals s) (player_conditions s)
          (player_equipment s) (connectionQuality s) (objectives s) (flags s).
Definition set_player_vitals (x : PlayerVitals) (s : GameState) :=
  mkState (currentEnvironment s) (npcs s) x (player_conditions s)
          (player_equipment s) (connectionQuality s) (objectives s) (flags s).
Definition set_player_equipment (x : list string) (s : GameState) :=
  mkState (currentEnvironment s) (npcs s) (player_vitals s)
          (player_conditions s) x (connectionQuality s) (objectives s)
          (flags s).
Definition set_connectionQuality (x : Q) (s : GameState) :=
  mkState (currentEnvironment s) (npcs s) (player_vitals s)
          (player_conditions s) (player_equipment s) x (objectives s)
          (flags s).
Definition set_objectives (x : option (list Objective)) (s : GameState) :=
  mkState (currentEnvironment s) (npcs s) (player_vitals s)
          (player_conditions s) (player_equipment s) (connectionQuality s) x
          (flags s).
Definition set_flags (x : gmap string bool) (s : GameState) :=
  mkState (currentEnvironment s) (npcs s) (player_vitals s)
          (player_conditions s) (player_equipment s) (connectionQuality s)
          (objectives s) x.

(** [location === currentEnvironment] for an NPC. *)
Definition in_room (room : option string) (n : NPC) : bool :=
  bool_decide (Some (location n) = room).

(** [getNPCsInCurrentRoom()]. *)
Definition getNPCsInCurrentRoom (s : GameState) : list NPC :=
  filter (fun n => in_room (currentEnvironment s) n) (npcs s).

(** [updateVitals(changes)]: each entry whose key the vitals object
owns is added and clamped to [0, 100]; then the advisor's connection
quality follows stress. *)
Definition clamp100 (x : Q) : Q := Math_max 0 (Math_min 100 x).

Definition bump (v : PlayerVitals) (change : string * Q) : PlayerVitals :=
  let '(key, delta) := change in
  if String.eqb key "health" then
    mkPlayerVitals (clamp100 (p_health v + delta)) (p_stamina v) (p_stress v)
                   (p_detection v)
  else if String.eqb key "stamina" then
    mkPlayerVitals (p_health v) (clamp100 (p_stamina v + delta)) (p_stress v)
                   (p_detection v)
  else if String.eqb key "stress" then
    mkPlayerVitals (p_health v) (p_stamina v) (clamp100 (p_stress v + delta))
                   (p_detection v)
  else if String.eqb key "detection" then
    mkPlayerVitals (p_health v) (p_stamina v) (p_stress v)
                   (clamp100 (p_detection v + delta))
  else v.

Definition updateVitals (changes : list (string * Q)) (s : GameState)
  : GameState :=
  let v := fold_left bump changes (player_vitals s) in
  set_connectionQuality (Math_max 0 (100 - p_stress v))
                        (set_player_vitals v s).

(** [addEquipment(itemId)] and [removeEquipment(itemId)]. *)
Definition addEquipment (item : string) (s : GameState) : GameState :=
  if includes (player_equipment s) item then s
  else set_player_equipment (player_equipment s ++ [item]) s.

Fixpoint remove_first (item : string) (l : list string) : list string :=
  match l with
  | [] => []
  | x :: l' => if String.eqb x item then l' else x :: remove_first item l'
  end.

Definition removeEquipment (item : string) (s : GameState) : GameState :=
  set_player_equipment (remove_first item (player_equipment s)) s.

(** [setFlag(key, value = true)] and [hasFlag(key)]. *)
Definition setFlag (key : string) (value : bool) (s : GameState) : GameState :=
  set_flags (<[ key := value ]> (flags s)) s.

Definition hasFlag (key : string) (s : GameState) : bool :=
  match flags s !! key with
  | Some true => true
  | _ => false
  end.

(** [npcs.get(id)] and the in-place update of the NPC stored under an
id. *)
Definition npc_get (i : string) (s : GameState) : option NPC :=
  find (fun n => String.eqb (id n) i) (npcs s).

Definition npc_update (i : string) (f : NPC -> NPC) (s : GameState)
  : GameState :=
  set_npcs (map (fun n => if String.eqb (id n) i then f n else n) (npcs s)) s.

End State.

(** ** Priorities ([ui/priorities.js]) *)

Module Priority.
Import Js Vitals Npc State.

(** [PRIORITY_TIERS]. *)
Definition TIER_MODIFIER : Z := 0%Z.
Definition TIER_IMMEDIATE : Z := 1%Z.
Definition TIER_ENVIRONMENTAL : Z := 2%Z.
Definition TIER_SELF : Z := 3%Z.

(** The payloads attached to priority items. *)
Inductive Tint :=
| NoTint
| CriticalTint                 (* rgba(255, 0, 0, 0.1) *)
| DetectionTint (alpha : Q)    (* rgba(255, 165, 0, alpha) *)
| AdrenalineTint.              (* rgba(255, 100, 100, 0.05) *)

Record UIModifiers := mkModifiers {
  shake : Q; blur : Q; darken : Q; pulse : Q; vignette : Q;
  tint : Tint;
  hasEffects : bool
}.

Record Combatant := mkCombatant {
  c_id : string; c_name : string; c_type : string; c_health : Q;
  c_armed : bool
}.

Record EngagedView := mkEngaged {
  e_id : string; e_name : string; e_type : string; e_awareness : Awareness;
  e_hasDialogue : bool
}.

Record NearbyView := mkNearby {
  n_id : string; n_name : string; n_type : string; n_awareness : Awareness;
  n_facing : string; n_behavior : string
}.

Inductive Critical :=
| HealthCritical (value : Q)
| StressCritical (value : Q)
| DetectionCritical (value : Q)
| ConditionCritical (condition : string).

Inductive Proximity :=
| ObjectiveInRoom (element_ids : list string)
| ReachObjective (objs : list Objective).

Record Action := mkAction {
  verb : string;
  target : string;
  a_type : string;
  blocked : option bool          (* absent unless the code assigns it *)
}.

Record ElementView := mkElementView {
  v_id : string; v_name : string; v_type : string; v_defaultAction : string;
  v_isObjective : bool; v_contents : list string; v_provideCover : bool
}.

Inductive item_data :=
| DModifiers (m : UIModifiers)
| DCombatants (l : list Combatant)
| DEngaged (l : list EngagedView)
| DCritical (l : list Critical)
| DNearby (l : list NearbyView)
| DProximity (p : Proximity)
| DActions (l : list Action)
| DElements (l : list ElementView)
| DEquipment (l : list string)
| DVitals (v : PlayerVitals).

Record PriorityItem := mkItem {
  ptype : string;
  tier : Z;
  weight : Q;
  data : item_data
}.

Definition unconscious (n : NPC) : bool :=
  has (conditions (base (vitals n))) "unconscious".

(** [getEngagedNPCs(state, npcs)]. *)
Definition getEngagedNPCs (s : GameState) (ns : list NPC) : list EngagedView :=
  map (fun n => mkEngaged (id n) (name n) (type n) (Npc.awareness n)
                          (match dialogueId n with
                           | Some d => negb (String.eqb d EmptyString)
                           | None => false
                           end))
      (filter (fun n => in_room (currentEnvironment s) n
                        && engaged n
                        && negb (bool_decide (Npc.awareness n = Unaware))
                        && negb (unconscious n)) ns).

(** [getNearbyNPCs(state, npcs)]. *)
Definition getNearbyNPCs (s : GameState) (ns : list NPC) : list NearbyView :=
  map (fun n => mkNearby (id n) (name n) (type n) (Npc.awareness n)
                         (facing (motion n)) (behavior (motion n)))
      (filter (fun n => in_room (currentEnvironment s) n
                        && negb (engaged n)
                        && negb (unconscious n)) ns).

(** The filter of [getCombatants]: in the current room, hostile,
engaged, and not unconscious. *)
Definition is_combatant (s : GameState) (n : NPC) : bool :=
  in_room (currentEnvironment s) n
  && bool_decide (Npc.awareness n = Hostile)
  && engaged n
  && negb (unconscious n).

(** [getCombatants(state, npcs)]; [health || 100] turns a zero health
into 100. *)
Definition getCombatants (s : GameState) (ns : list NPC) : list Combatant :=
  map (fun n => mkCombatant (id n) (name n) (type n)
                            (let h := health (base (vitals n)) in
                             if Qeq_bool h 0 then 100 else h)
                            (hasCapability "armed" n))
      (filter (is_combatant s) ns).

(** [getCriticalConditions(state)]. *)
Definition getCriticalConditions (s : GameState) : list Critical :=
  let v := player_vitals s in
  (if leb (p_health v) HEALTH_CRITICAL then [HealthCritical (p_health v)]
   else [])
  ++ (if geb (p_stress v) STRESS_CRITICAL then [StressCritical (p_stress v)]
      else [])
  ++ (if geb (p_detection v) DETECTION_SPOTTED
      then [DetectionCritical (p_detection v)] else [])
  ++ map ConditionCritical
         (filter (fun c => includes ["critical"; "panicked"; "bleeding"] c)
                 (player_conditions s)).

(** [parseInt(s)] without a radix.  Leading white space is skipped,
then an optional sign is read, then either [0x] or [0X] and
hexadecimal digits, or decimal digits; reading stops at the first
character that is no digit, and without any digit the result is [NaN],
for which [None] stands.  The value is the mathematical integer; the
number [parseInt] returns is the double nearest to it.  Strings are
sequences of code units below 256, of which these are white space:
tab, line feed, vertical tab, form feed, carriage return, space and
no-break space. *)
Definition is_space (a : Ascii.ascii) : bool :=
  let n := Ascii.nat_of_ascii a in
  ((9 <=? n) && (n <=? 13) || (n =? 32) || (n =? 160))%nat.

Fixpoint trim_start (s : string) : string :=
  match s with
  | String a rest => if is_space a then trim_start rest else s
  | EmptyString => s
  end.

Definition digit_of (a : Ascii.ascii) : option Z :=
  let n := Z.of_nat (Ascii.nat_of_ascii a) in
  if ((48 <=? n) && (n <=? 57))%Z then Some (n - 48)%Z else None.

Definition hex_digit_of (a : Ascii.ascii) : option Z :=
  let n := Z.of_nat (Ascii.nat_of_ascii a) in
  if ((48 <=? n) && (n <=? 57))%Z then Some (n - 48)%Z
  else if ((97 <=? n) && (n <=? 102))%Z then Some (n - 87)%Z
  else if ((65 <=? n) && (n <=? 70))%Z then Some (n - 55)%Z
  else None.

Fixpoint digits (s : string) (acc : option Z) : option Z :=
  match s with
  | String a rest =>
      match digit_of a with
      | Some d => digits rest (Some (match acc with
                                     | Some x => 10 * x + d
                                     | None => d
                                     end)%Z)
      | None => acc
      end
  | EmptyString => acc
  end.

Fixpoint hex_digits (s : string) (acc : option Z) : option Z :=
  match s with
  | String a rest =>
      match hex_digit_of a with
      | Some d => hex_digits rest (Some (match acc with
                                         | Some x => 16 * x + d
                                         | None => d
                                         end)%Z)
      | None => acc
      end
  | EmptyString => acc
  end.

Definition unsigned (s : string) : option Z :=
  match s with
  | String z (String x rest) =>
      if Ascii.eqb z (Ascii.ascii_of_nat 48)
         && (Ascii.eqb x (Ascii.ascii_of_nat 120)
             || Ascii.eqb x (Ascii.ascii_of_nat 88))
      then hex_digits rest None
      else digits s None
  | _ => digits s None
  end.

Definition parseInt (s : string) : option Z :=
  match trim_start s with
  | String a rest =>
      if Ascii.eqb a (Ascii.ascii_of_nat 45) then
        option_map Z.opp (unsigned rest)
      else if Ascii.eqb a (Ascii.ascii_of_nat 43) then unsigned rest
      else unsigned (String a rest)
  | EmptyString => None
  end.

Definition startsWith (p s : string) : bool := String.prefix p s.

Definition drop_prefix (p s : string) : string :=
  String.substring (String.length p) (String.length s - String.length p) s.

(** [playerHasKeycard(state, requiredLevel)]: a missing or zero level
needs no card. *)
Definition playerHasKeycard (s : GameState) (requiredLevel : option Q) : bool :=
  match requiredLevel with
  | None => true
  | Some r =>
      if Qeq_bool r 0 then true
      else existsb (fun card =>
                      match parseInt (drop_prefix "keycard-level" card) with
                      | Some l => geb (fl (inject_Z l)) r
                      | None => false
                      end)
                   (filter (startsWith "keycard-level") (player_equipment s))
  end.

(** [getEnvironmentActions(state, environment)]. *)
Definition exit_action (s : GameState) (e : Exit) : Action :=
  mkAction "move" (destination e) "movement"
           (Some (locked e && negb (playerHasKeycard s (keycardLevel e)))).

Definition element_action (s : GameState) (el : Element) : Action :=
  mkAction (defaultAction el) (el_id el) "interaction"
           (if requiresKeycard el
            then Some (negb (playerHasKeycard s (el_keycardLevel el)))
            else None).

Definition or_empty {A} (o : option (list A)) : list A :=
  match o with Some l => l | None => [] end.

Definition getEnvironmentActions (s : GameState) (env : option Environment)
  : list Action :=
  match env with
  | None => []
  | Some e =>
      map (exit_action s) (or_empty (exits e))
      ++ map (element_action s) (filter interactive (or_empty (elements e)))
      ++ [ mkAction "look" "room" "observation" None;
           mkAction "listen" "room" "observation" None ]
  end.

(** [getInteractiveElements(environment)]. *)
Definition getInteractiveElements (env : option Environment)
  : list ElementView :=
  match env with
  | None => []
  | Some e =>
      map (fun el => mkElementView (el_id el) (el_name el) (el_type el)
                                   (defaultAction el) (isObjective el)
                                   (or_empty (contents el)) (provideCover el))
          (filter interactive (or_empty (elements e)))
  end.

(** [checkObjectiveProximity(state, environment)]; [None] is [null]. *)
Definition checkObjectiveProximity (s : GameState) (env : option Environment)
  : option Proximity :=
  match env, objectives s with
  | Some e, Some objs =>
      let objectiveElements := filter isObjective (or_empty (elements e)) in
      if negb (Nat.eqb (length objectiveElements) 0) then
        Some (ObjectiveInRoom (map el_id objectiveElements))
      else
        let reach := filter (fun o => String.eqb (obj_type o) "reach"
                                      && String.eqb (obj_location o) (env_id e)
                                      && negb (completed o)) objs in
        if negb (Nat.eqb (length reach) 0) then Some (ReachObjective reach)
        else None
  | _, _ => None
  end.

(** [getUIModifiers(state)]: first the vitals, then the conditions in
list order. *)
Definition set_mods (sh bl da pu vi : Q) (t : Tint) : UIModifiers :=
  mkModifiers sh bl da pu vi t true.

Definition stress_mods (stress : Q) (m : UIModifiers) : UIModifiers :=
  let m1 := if gtb stress STRESS_HIGH then
              let sh := Math_min 1 ((stress - STRESS_HIGH) / 30) in
              set_mods sh (blur m) (darken m) (sh * (1#2)) (vignette m)
                       (tint m)
            else m in
  if geb stress STRESS_CRITICAL then
    set_mods (shake m1) (3#10) (darken m1) (pulse m1) (vignette m1)
             (tint m1)
  else m1.

Definition health_mods (health : Q) (m : UIModifiers) : UIModifiers :=
  let m1 := if ltb health HEALTH_WOUNDED then
              set_mods (shake m) (blur m) (darken m) (pulse m)
                       (Math_min 1 ((HEALTH_WOUNDED - health) / 30))
                       (tint m)
            else m in
  if leb health HEALTH_CRITICAL then
    set_mods (shake m1) (blur m1) (darken m1) (Math_max (pulse m1) (8#10))
             (vignette m1) CriticalTint
  else m1.

Definition detection_mods (detection : Q) (m : UIModifiers) : UIModifiers :=
  if gtb detection DETECTION_SUSPICIOUS then
    set_mods (shake m) (blur m) (darken m) (pulse m) (vignette m)
             (DetectionTint ((detection - DETECTION_SUSPICIOUS) / 200))
  else m.

Definition condition_mods (m : UIModifiers) (condition : string)
  : UIModifiers :=
  if String.eqb condition "panicked" then
    set_mods (Math_max (shake m) (6#10)) (Math_max (blur m) (2#10))
             (darken m) (pulse m) (vignette m) (tint m)
  else if String.eqb condition "hidden" then
    set_mods (shake m) (blur m) (2#10) (pulse m) (vignette m) (tint m)
  else if String.eqb condition "adrenaline" then
    set_mods (shake m) (blur m) (darken m) (Math_max (pulse m) (7#10))
             (vignette m) AdrenalineTint
  else if String.eqb condition "exhausted" then
    set_mods (shake m) (Math_max (blur m) (1#10))
             (Math_max (darken m) (15#100)) (pulse m) (vignette m) (tint m)
  else m.

Definition getUIModifiers (s : GameState) : UIModifiers :=
  let v := player_vitals s in
  fold_left condition_mods (player_conditions s)
    (detection_mods (p_detection v)
       (health_mods (p_health v)
          (stress_mods (p_stress v)
             (mkModifiers 0 0 0 0 0 NoTint false)))).

(** [priorities.sort((a, b) => b.weight - a.weight)].  The language
requires [Array.prototype.sort] to be stable; the result of a stable
sort is determined by the comparator, so a stable insertion sort
stands for it.  [a] goes before [b] unless the comparator is positive,
that is unless [weight a < weight b]. *)
Fixpoint insert_by_weight (x : PriorityItem) (l : list PriorityItem)
  : list PriorityItem :=
  match l with
  | [] => [x]
  | y :: l' => if leb (weight y) (weight x) then x :: y :: l'
               else y :: insert_by_weight x l'
  end.

Fixpoint sort_by_weight (l : list PriorityItem) : list PriorityItem :=
  match l with
  | [] => []
  | x :: l' => insert_by_weight x (sort_by_weight l')
  end.

(** The items [evaluate] pushes, in push order, before sorting. *)
Definition push_if (b : bool) (i : PriorityItem) : list PriorityItem :=
  if b then [i] else [].

Definition nonempty {A} (l : list A) : bool := negb (Nat.eqb (length l) 0).
Definition empty {A} (l : list A) : bool := Nat.eqb (length l) 0.

(** The two items of the Self tier. *)
Definition inventory_item (s : GameState) : PriorityItem :=
  mkItem "inventory" TIER_SELF 20 (DEquipment (player_equipment s)).

Definition vitals_item (s : GameState) : PriorityItem :=
  mkItem "vitals" TIER_SELF 15 (DVitals (player_vitals s)).

Definition collect (s : GameState) (environments : gmap string Environment)
  (ns : list NPC) : list PriorityItem :=
  let currentEnv := match currentEnvironment s with
                    | Some r => environments !! r
                    | None => None
                    end in
  let uiModifiers := getUIModifiers s in
  let combatants := getCombatants s ns in
  let engagedNPCs := getEngagedNPCs s ns in
  let criticalConditions := getCriticalConditions s in
  let nearbyNPCs := getNearbyNPCs s ns in
  let objectiveProximity := checkObjectiveProximity s currentEnv in
  let envActions := getEnvironmentActions s currentEnv in
  let interactiveElements := getInteractiveElements currentEnv in
  push_if (hasEffects uiModifiers)
          (mkItem "condition-overlay" TIER_MODIFIER 90 (DModifiers uiModifiers))
  ++ push_if (nonempty combatants)
          (mkItem "combat" TIER_IMMEDIATE 100 (DCombatants combatants))
  ++ push_if (nonempty engagedNPCs && empty combatants)
          (mkItem "npc-interaction" TIER_IMMEDIATE 95 (DEngaged engagedNPCs))
  ++ push_if (nonempty criticalConditions)
          (mkItem "critical-status" TIER_IMMEDIATE 85
                  (DCritical criticalConditions))
  ++ push_if (nonempty nearbyNPCs && empty engagedNPCs)
          (mkItem "npc-nearby" TIER_ENVIRONMENTAL 60 (DNearby nearbyNPCs))
  ++ match objectiveProximity with
     | Some p => [mkItem "objective-near" TIER_ENVIRONMENTAL 70 (DProximity p)]
     | None => []
     end
  ++ push_if (nonempty envActions)
          (mkItem "environment-actions" TIER_ENVIRONMENTAL 50
                  (DActions envActions))
  ++ push_if (nonempty interactiveElements)
          (mkItem "interactive-elements" TIER_ENVIRONMENTAL 45
                  (DElements interactiveElements))
  ++ [ inventory_item s; vitals_item s ].

(** The manager: the cached list, if any, and when it was computed. *)
Record PriorityManager := mkPM {
  priorityCache : option (list PriorityItem);
  lastEvaluation : Q
}.

Definition cacheLifetime : Q := 100.

(** [new PriorityManager()] and [invalidateCache()]. *)
Definition initial_pm : PriorityManager := mkPM None 0.
Definition invalidateCache (pm : PriorityManager) : PriorityManager :=
  mkPM None 0.

(** [evaluate(state, environments, npcs)] at time [now = Date.now()]:
the list returned and the manager afterwards. *)
Definition evaluate (now : Q) (s : GameState)
  (environments : gmap string Environment) (ns : list NPC)
  (pm : PriorityManager) : list PriorityItem * PriorityManager :=
  match priorityCache pm with
  | Some cached =>
      if ltb (now - lastEvaluation pm) cacheLifetime then (cached, pm)
      else let l := sort_by_weight (collect s environments ns) in
           (l, mkPM (Some l) now)
  | None => let l := sort_by_weight (collect s environments ns) in
            (l, mkPM (Some l) now)
  end.

(** [getTopPriority(state, environments, npcs)]; [None] is [null]. *)
Definition getTopPriority (now : Q) (s : GameState)
  (environments : gmap string Environment) (ns : list NPC)
  (pm : PriorityManager) : option PriorityItem * PriorityManager :=
  let '(l, pm') := evaluate now s environments ns pm in
  (match l with x :: _ => Some x | [] => None end, pm').

(** An evaluation recomputes when nothing is cached or the cached list
is older than [cacheLifetime]. *)
Definition recomputes (now : Q) (pm : PriorityManager) : Prop :=
  priorityCache pm = None \/ cacheLifetime <= now - lastEvaluation pm.

(** The order the sort establishes, and the items of one weight. *)
Definition heavier_first (a b : PriorityItem) : Prop := weight b <= weight a.

Definition of_weight (w : Q) (i : PriorityItem) : bool := Qeq_bool (weight i) w.

(** The managers the program can reach: a fresh one, one after an
evaluation, one after an invalidation. *)
Inductive reachable : PriorityManager -> Prop :=
| reach_new : reachable initial_pm
| reach_evaluate now s environments ns pm :
    reachable pm -> reachable (snd (evaluate now s environments ns pm))
| reach_invalidate pm : reachable pm -> reachable (invalidateCache pm).

End Priority.

(** ** The game ([main.js], class GlassShadow) *)

Module Game.
Import Js Vitals Npc Runtime Modes State Priority.

(** Detection constants. *)
Definition DETECTION_GRACE_PERIOD : Q := 3000.
Definition DETECTION_CHECK_INTERVAL : Q := 1500.
Definition DETECTION_BASE_CHANCE : Q := 8.
Definition DETECTION_INCREMENT : Q := 5.

(** Entries of the equipment catalogue that [useItem] reads. *)
Record Item := mkItemDef {
  effect_type : option string;
  healAmount : option Q;
  uses : option Q
}.

(** The application object together with its host: the clock
([Date.now()]), the pending timers, what was sent to the
collaborators, and the console. *)
Record World := mkWorld {
  state : GameState;
  environments : gmap string Environment;
  equipment : gmap string Item;
  modeManager : ModeManager;
  priorityManager : PriorityManager;
  detectionEnabled : bool;
  roomEntryTime : Q;
  lastDetectionCheck : Q;
  animationId : option nat;
  now : Q;
  timers : list timer;
  log : list event;
  console : list string
}.

Definition set_state (x : GameState) (w : World) : World :=
  mkWorld x (environments w) (equipment w) (modeManager w)
          (priorityManager w) (detectionEnabled w) (roomEntryTime w)
          (lastDetectionCheck w) (animationId w) (now w) (timers w) (log w)
          (console w).
Definition set_equipment (x : gmap string Item) (w : World) : World :=
  mkWorld (state w) (environments w) x (modeManager w)
          (priorityManager w) (detectionEnabled w) (roomEntryTime w)
          (lastDetectionCheck w) (animationId w) (now w) (timers w) (log w)
          (console w).
Definition set_modeManager (x : ModeManager) (w : World) : World :=
  mkWorld (state w) (environments w) (equipment w) x
          (priorityManager w) (detectionEnabled w) (roomEntryTime w)
          (lastDetectionCheck w) (animationId w) (now w) (timers w) (log w)
          (console w).
Definition set_priorityManager (x : PriorityManager) (w : World) : World :=
  mkWorld (state w) (environments w) (equipment w) (modeManager w)
          x (detectionEnabled w) (roomEntryTime w)
          (lastDetectionCheck w) (animationId w) (now w) (timers w) (log w)
          (console w).
Definition set_detectionEnabled (x : bool) (w : World) : World :=
  mkWorld (state w) (environments w) (equipment w) (modeManager w)
          (priorityManager w) x (roomEntryTime w)
          (lastDetectionCheck w) (animationId w) (now w) (timers w) (log w)
          (console w).
Definition set_roomEntryTime (x : Q) (w : World) : World :=
  mkWorld (state w) (environments w) (equipment w) (modeManager w)
          (priorityManager w) (detectionEnabled w) x
          (lastDetectionCheck w) (animationId w) (now w) (timers w) (log w)
          (console w).
Definition set_lastDetectionCheck (x : Q) (w : World) : World :=
  mkWorld (state w) (environments w) (equipment w) (modeManager w)
          (priorityManager w) (detectionEnabled w) (roomEntryTime w)
          x (animationId w) (now w) (timers w) (log w) (console w).
Definition set_animationId (x : option nat) (w : World) : World :=
  mkWorld (state w) (environments w) (equipment w) (modeManager w)
          (priorityManager w) (detectionEnabled w) (roomEntryTime w)
          (lastDetectionCheck w) x (now w) (timers w) (log w) (console w).
Definition set_now (x : Q) (w : World) : World :=
  mkWorld (state w) (environments w) (equipment w) (modeManager w)
          (priorityManager w) (detectionEnabled w) (roomEntryTime w)
          (lastDetectionCheck w) (animationId w) x (timers w) (log w)
          (console w).
Definition set_timers (x : list timer) (w : World) : World :=
  mkWorld (state w) (environments w) (equipment w) (modeManager w)
          (priorityManager w) (detectionEnabled w) (roomEntryTime w)
          (lastDetectionCheck w) (animationId w) (now w) x (log w)
          (console w).
Definition set_log (x : list event) (w : World) : World :=
  mkWorld (state w) (environments w) (equipment w) (modeManager w)
          (priorityManager w) (detectionEnabled w) (roomEntryTime w)
          (lastDetectionCheck w) (animationId w) (now w) (timers w) x
          (console w).
Definition set_console (x : list string) (w : World) : World :=
  mkWorld (state w) (environments w) (equipment w) (modeManager w)
          (priorityManager w) (detectionEnabled w) (roomEntryTime w)
          (lastDetectionCheck w) (animationId w) (now w) (timers w) (log w)
          x.

(** A world right after [initializeSystems()], for given game data. *)
Definition initial_world (envs : gmap string Environment)
  (items : gmap string Item) : World :=
  mkWorld initial_state envs items initial_manager initial_pm
          false 0 0 None 0 [] [] [].

Definition newline : string := String (Ascii.ascii_of_nat 10) EmptyString.

(** A length as a template literal prints it: in decimal. *)
Definition decimal (n : nat) : string :=
  NilEmpty.string_of_uint (Nat.to_uint n).

(** Small effects. *)
Definition emit (e : event) (w : World) : World := set_log (log w ++ [e]) w.
Definition forceSpeech (text : string) (w : World) : World :=
  emit (Speech text) w.
Definition updateUI (w : World) : World := emit UiRefresh w.
Definition console_log (text : string) (w : World) : World :=
  set_console (console w ++ [text]) w.
Definition on_state (f : GameState -> GameState) (w : World) : World :=
  set_state (f (state w)) w.
Definition setTimeout (delay : Q) (a : timer_action) (w : World) : World :=
  set_timers (enqueue (mkTimer (now w + delay) a) (timers w)) w.

(** A call into the mode manager: its timers are queued, its
notifications delivered. *)
Definition with_manager
  (call : ModeManager -> bool * ModeManager * list request) (w : World)
  : World :=
  let '(_, mm, rs) := call (modeManager w) in
  set_log (log w ++ notifications rs)
    (set_timers (serve (now w) rs (timers w)) (set_modeManager mm w)).

(** The room the player is in, if it is known to the game. *)
Definition current_env (w : World) : option Environment :=
  match currentEnvironment (state w) with
  | Some r => environments w !! r
  | None => None
  end.

(** [enterRoom(roomId)]. *)
Definition reset_spotted (room : string) (n : NPC) : NPC :=
  if String.eqb (location n) room
  then set_engagementHandled false (set_alreadySpotted false n) else n.

Definition enterRoom (roomId : string) (w : World) : World :=
  match environments w !! roomId with
  | None => console_log ("Room not found: " ++ roomId) w
  | Some environment =>
      let w1 := on_state (set_currentEnvironment (Some roomId)) w in
      let w2 := emit (MarkVisited roomId) w1 in
      let w3 := set_roomEntryTime (now w2) (set_detectionEnabled false w2) in
      let w4 := on_state (fun s => set_npcs (map (reset_spotted roomId) (npcs s)) s)
                         w3 in
      let w5 := setTimeout DETECTION_GRACE_PERIOD (EnableDetection roomId) w4 in
      let w6 := emit (Emit "room:entered" roomId)
                     (emit (Emit "room:entered" roomId) w5) in
      if existsb isObjective (or_empty (elements environment))
      then emit (Emit "objective:near" "default") w6 else w6
  end.

(** [stop()]. *)
Definition stop (w : World) : World :=
  emit LoopStop (set_animationId None w).

(** [handleGameOver(reason)]. *)
Definition handleGameOver (reason : string) (w : World) : World :=
  if hasFlag "game_over" (state w) then w
  else
    let w1 := on_state (setFlag "game_over" true) w in
    let w2 := console_log ("GAME OVER: " ++ reason) w1 in
    let w3 := forceSpeech "We've lost contact. Mission failed." w2 in
    let w4 := stop w3 in
    emit (ErrorOverlay ("MISSION FAILED" ++ newline ++ newline ++ reason)) w4.

(** [handleMissionComplete()]; the victory text, of which the title
line is kept here, is shown through the error overlay. *)
Definition handleMissionComplete (w : World) : World :=
  if hasFlag "mission_complete" (state w) then w
  else
    let w1 := on_state (setFlag "mission_complete" true) w in
    let w2 := console_log "MISSION COMPLETE!" w1 in
    let w3 := forceSpeech "You're out. Good work. We got what we needed." w2 in
    let w4 := emit (Advisor "mack.getStats") w3 in
    let w5 := stop w4 in
    emit (ErrorOverlay "MISSION COMPLETE: The Quiet Floor") w5.

(** [checkWinLoseConditions()]. *)
Fixpoint complete_objective (i : string) (objs : list Objective)
  : list Objective :=
  match objs with
  | [] => []
  | o :: l' =>
      if String.eqb (obj_id o) i
      then mkObjective (obj_id o) (obj_type o) (obj_location o)
                       (optional o) true :: l'
      else o :: complete_objective i l'
  end.

Definition find_objective (i : string) (s : GameState) : option Objective :=
  match objectives s with
  | Some objs => find (fun o => String.eqb (obj_id o) i) objs
  | None => None
  end.

Definition checkWinLoseConditions (w : World) : World :=
  if hasFlag "game_over" (state w) || hasFlag "mission_complete" (state w)
  then w
  else if leb (p_health (player_vitals (state w))) 0
  then handleGameOver "You were killed." w
  else if hasFlag "alarm_triggered" (state w)
  then handleGameOver "The alarm was triggered. Evidence will be destroyed." w
  else
    let hasLogs := includes (player_equipment (state w)) "access-logs" in
    let atExit := bool_decide (currentEnvironment (state w) = Some "lobby-main") in
    if hasLogs && atExit && hasFlag "logs_acquired" (state w) then
      match find_objective "obj-extract-exit" (state w) with
      | Some exitObj =>
          if completed exitObj then w
          else handleMissionComplete
                 (on_state (fun s => set_objectives
                                      (option_map (complete_objective "obj-extract-exit")
                                                  (objectives s)) s) w)
      | None => w
      end
    else w.

(** The first match of [/keycard-level(\d+)/] in an item name, as the
integer its digits denote; [parseInt] of the digits is the double
nearest to it. *)
Fixpoint keycard_match (s : string) : option Z :=
  match s with
  | EmptyString => None
  | String _ rest =>
      if startsWith "keycard-level" s then
        match digits (drop_prefix "keycard-level" s) None with
        | Some n => Some n
        | None => keycard_match rest
        end
      else keycard_match rest
  end.

(** [moveToRoom(roomId)]. *)
Definition has_key_for (level : option Q) (s : GameState) : bool :=
  existsb (fun item => match keycard_match item, level with
                       | Some n, Some l => geb (fl (inject_Z n)) l
                       | _, _ => false
                       end) (player_equipment s).

Definition find_exit (roomId : string) (w : World) : option Exit :=
  match current_env w with
  | Some e => find (fun x => String.eqb (destination x) roomId)
                   (or_empty (exits e))
  | None => None
  end.

Definition moveToRoom (roomId : string) (w : World) : World :=
  match find_exit roomId w with
  | None => console_log "Cannot move there" w
  | Some exit =>
      if locked exit && negb (has_key_for (keycardLevel exit) (state w))
      then emit (SpeechLocked (keycardLevel exit)) w
      else updateUI (enterRoom roomId
                       (on_state (updateVitals [("stamina", -5)]) w))
  end.

(** [sneakToRoom(roomId)]. *)
Definition sneakToRoom (roomId : string) (w : World) : World :=
  updateUI (enterRoom roomId (on_state (updateVitals [("stamina", -10)]) w)).

(** [examineElement(elementId)], [surveyRoom()], [listenForSounds()]. *)
Definition find_element (i : string) (w : World) : option Element :=
  match current_env w with
  | Some e => find (fun el => String.eqb (el_id el) i) (or_empty (elements e))
  | None => None
  end.

Definition examineElement (elementId : string) (w : World) : World :=
  match find_element elementId w with
  | None => w
  | Some el =>
      forceSpeech (el_name el ++ ". "
                   ++ match el_description el with
                      | Some d => if String.eqb d EmptyString then "Nothing special."
                                  else d
                      | None => "Nothing special."
                      end) w
  end.

Definition surveyRoom (w : World) : World :=
  match current_env w with
  | None => w
  | Some e =>
      let interactives := filter interactive (or_empty (elements e)) in
      if nonempty interactives
      then forceSpeech ("I see " ++ decimal (length interactives)
                        ++ " things worth checking out.") w
      else forceSpeech "Nothing stands out." w
  end.

Definition listenForSounds (w : World) : World :=
  if nonempty (getNPCsInCurrentRoom (state w))
  then forceSpeech "Footsteps. Someone's nearby." w
  else forceSpeech "All quiet." w.

(** [waitAction()]. *)
Definition waitAction (w : World) : World :=
  updateUI (forceSpeech "Taking a moment. Stay alert."
              (on_state (updateVitals [("stress", -10); ("stamina", 5)]) w)).

(** [takeItem(itemId)]. *)
Definition takeItem (itemId : string) (w : World) : World :=
  if includes (player_equipment (state w)) itemId then w
  else
    let w1 := forceSpeech "Got it."
                (emit (Emit "item:added" itemId)
                   (on_state (addEquipment itemId) w)) in
    if String.eqb itemId "access-logs" then
      let w2 := on_state (setFlag "logs_acquired" true) w1 in
      let w3 := match find_objective "obj-extract-logs" (state w2) with
                | Some _ =>
                    emit (Emit "objectives:updated" "obj-extract-logs")
                      (on_state
                         (fun s => set_objectives
                                     (option_map
                                        (complete_objective "obj-extract-logs")
                                        (objectives s)) s) w2)
                | None => w2
                end in
      forceSpeech "That's the package. Now get to the exit." w3
    else w1.

(** [useItem(itemId)]; a healing item's [uses] counts down in the
catalogue. *)
Definition q_truthy (o : option Q) : bool :=
  match o with Some q => negb (Qeq_bool q 0) | None => false end.

Definition drop_item (itemId : string) (w : World) : World :=
  emit (Emit "item:removed" itemId) (on_state (removeEquipment itemId) w).

Definition useItem (itemId : string) (w : World) : World :=
  let w0 := console_log ("Using item: " ++ itemId) w in
  match equipment w0 !! itemId with
  | None => w0
  | Some item =>
      if bool_decide (effect_type item = Some "mack-sobriety-boost") then
        let w1 := forceSpeech "Sent it to Mack. Hopefully it helps."
                    (emit (Emit "mack:sobrietyBoost" itemId) w0) in
        if q_truthy (uses item) then drop_item itemId w1 else w1
      else
        match healAmount item with
        | Some h =>
            if Qeq_bool h 0 then w0
            else
              let w1 := forceSpeech "That should help."
                          (on_state (updateVitals [("health", h)]) w0) in
              match uses item with
              | Some u =>
                  if Qeq_bool u 0 then w1
                  else
                    let w2 := set_equipment
                                (<[ itemId := mkItemDef (effect_type item)
                                                        (healAmount item)
                                                        (Some (u - 1)) ]>
                                   (equipment w1)) w1 in
                    if leb (u - 1) 0 then drop_item itemId w2 else w2
              | None => w1
              end
        | None => w0
        end
  end.

(** [contactMack(data)] and the [contact-sloan] case: calls into the
advisors. *)
Definition contactMack (w : World) : World :=
  emit (Advisor "sloan.connectToMack") w.

Definition offerMackConnection (w : World) : World :=
  emit (Advisor "sloan.offerMackConnection") w.

(** [hackTerminal(terminalId)]: the items are taken two seconds later,
by a timer. *)
Definition hackTerminal (terminalId : string) (w : World) : World :=
  match find_element terminalId w with
  | None => w
  | Some terminal =>
      setTimeout 2000 (HackComplete (or_empty (contents terminal)))
        (forceSpeech "Working on it... stay alert."
           (on_state (updateVitals [("stamina", -15); ("stress", 10)]) w))
  end.

Definition hack_done (items : list string) (w : World) : World :=
  updateUI (forceSpeech "Got it. Now get out of there."
              (fold_left (fun w' i => takeItem i w') items w)).

(** [startDialogue(npcId)]. *)
Definition startDialogue (npcId : string) (w : World) : World :=
  match npc_get npcId (state w) with
  | None => w
  | Some n => emit (Emit "dialogue:start" (id n)) w
  end.

(** [attemptSubdue(npcId)]; [roll] is [Math.random() * 100]. *)
Definition drop_items (items : list string) (w : World) : World :=
  fold_left (fun w' i => emit (Emit "item:dropped" i) w') items w.

Definition attemptSubdue (roll : Q) (npcId : string) (w : World) : World :=
  match npc_get npcId (state w) with
  | None => w
  | Some n =>
      if ltb (p_stamina (player_vitals (state w))) 30
      then forceSpeech "You're too tired for that." w
      else
        let combatSkill := 40 in
        let difficulty := if bool_decide (Npc.awareness n = Hostile)
                          then 60 else 40 in
        let w1 := on_state (updateVitals [("stamina", -30); ("stress", 15)]) w in
        if ltb roll (combatSkill + 20 - difficulty) then
          let w2 := on_state (npc_update npcId (fun m => fst (subdue m))) w1 in
          let w3 := forceSpeech "Target down. Grab what you can and move." w2 in
          let w4 := drop_items (inventory n) w3 in
          updateUI (with_manager returnToPrevious w4)
        else
          let w2 := forceSpeech "Didn't work! They're fighting back!" w1 in
          let w3 := on_state (updateVitals [("health", -20); ("stress", 25)]) w2 in
          on_state (npc_update npcId
                      (fun m => set_vitals (addSuspicion 100 (vitals m))
                                           (set_awareness Hostile m))) w3
  end.

(** [attemptFlee()]. *)
Definition disengage (room : option string) (n : NPC) : NPC :=
  if in_room room n
  then set_engagementHandled false (set_engaged false n) else n.

Definition attemptFlee (w : World) : World :=
  let open_exits := match current_env w with
                    | Some e => filter (fun x => negb (locked x))
                                       (or_empty (exits e))
                    | None => []
                    end in
  match open_exits with
  | [] => forceSpeech "No way out! You have to deal with this!" w
  | nearestExit :: _ =>
      if ltb (p_stamina (player_vitals (state w))) 25
      then forceSpeech "You're too exhausted to run!" w
      else
        let w1 := on_state (updateVitals [("stamina", -25); ("stress", 20);
                                          ("detection", 15)]) w in
        let w2 := on_state
                    (fun s => set_npcs
                                (map (disengage (currentEnvironment s)) (npcs s))
                                s) w1 in
        let w3 := forceSpeech "Go go go! Get out of there!" w2 in
        let w4 := with_manager returnToPrevious w3 in
        updateUI (enterRoom (destination nearestExit) w4)
  end.

(** [attemptAttack(npcId)]. *)
Definition attemptAttack (npcId : string) (w : World) : World :=
  match npc_get npcId (state w) with
  | None => w
  | Some n =>
      let hasWeapon := existsb (includes ["knife"; "taser"; "fire-extinguisher"])
                               (player_equipment (state w)) in
      let damage := if hasWeapon then 40 else 20 in
      let w1 := on_state (updateVitals [("stamina", -20); ("stress", 30)]) w in
      let w2 := on_state (npc_update npcId (takeDamage damage)) w1 in
      let n' := takeDamage damage n in
      let w3 :=
        if leb (health (base (vitals n'))) 0 then
          with_manager returnToPrevious
            (drop_items (inventory n')
               (forceSpeech
                  "Target neutralized. That's going to leave a trail." w2))
        else
          on_state (updateVitals [("health", -15)])
            (forceSpeech "They're still up! Watch yourself!" w2) in
      updateUI w3
  end.

(** [handleDialogueFailed(npc)], the listener of [dialogue:failed]. *)
Definition handleDialogueFailed (npc : option string) (w : World) : World :=
  let currentDetection := p_detection (player_vitals (state w)) in
  let w1 := on_state (updateVitals [("detection", 30); ("stress", 20)]) w in
  let w2 :=
    if geb (currentDetection + 30) 100
    then handleGameOver "You were caught by security." w1
    else
      let w' := match npc with
                | Some i => on_state
                              (npc_update i (fun m => set_engaged true
                                                        (set_awareness Hostile m)))
                              w1
                | None => w1
                end in
      forceSpeech "That didn't work. You need to deal with this or run!"
        (with_manager (transitionTo "combat" (mkOptions true None)) w') in
  updateUI w2.

(** [handleNPCEngagement(npc)]. *)
Definition handleNPCEngagement (n : NPC) (w : World) : World :=
  if bool_decide (Npc.awareness n = Hostile) then
    forceSpeech "Contact! You've been made!"
      (emit (Emit "danger:detected" (id n))
         (with_manager (transitionTo "combat" (mkOptions true None)) w))
  else if match dialogueId n with
          | Some d => negb (String.eqb d EmptyString)
          | None => false
          end || String.eqb (type n) "guard"
  then startDialogue (id n)
         (with_manager (transitionTo "dialogue" (mkOptions true None)) w)
  else w.

(** [executeAction(data)].  [roll] is the random number the handler
may draw. *)
Record ActionData := mkData {
  data_verb : string;
  data_target : string
}.

(** The verbs the switch has a case for. *)
Definition dispatched_verbs : list string :=
  [ "move"; "sneak"; "examine"; "take"; "use"; "hack"; "talk"; "look";
    "listen"; "wait"; "contact-mack"; "contact-sloan"; "subdue"; "flee";
    "attack" ].

Definition dispatch (roll : Q) (verb target : string) (w : World) : World :=
  if String.eqb verb "move" then moveToRoom target w
  else if String.eqb verb "sneak" then sneakToRoom target w
  else if String.eqb verb "examine" then examineElement target w
  else if String.eqb verb "take" then takeItem target w
  else if String.eqb verb "use" then useItem target w
  else if String.eqb verb "hack" then hackTerminal target w
  else if String.eqb verb "talk" then startDialogue target w
  else if String.eqb verb "look" then surveyRoom w
  else if String.eqb verb "listen" then listenForSounds w
  else if String.eqb verb "wait" then waitAction w
  else if String.eqb verb "contact-mack" then contactMack w
  else if String.eqb verb "contact-sloan" then offerMackConnection w
  else if String.eqb verb "subdue" then attemptSubdue roll target w
  else if String.eqb verb "flee" then attemptFlee w
  else if String.eqb verb "attack" then attemptAttack target w
  else console_log ("Action not implemented: " ++ verb) w.

Definition executeAction (roll : Q) (d : ActionData) (w : World) : World :=
  dispatch roll (data_verb d) (data_target d)
    (console_log ("Action: " ++ data_verb d ++ " " ++ data_target d) w).

(** [checkNPCDetection()].  [rolls] gives, for each NPC, the value of
[Math.random() * 100] drawn for it in this check. *)
Definition detect_chance (n : NPC) (env : Environment) (s : GameState) : Q :=
  let envNoise := match noise env with
                  | Some x => if String.eqb x EmptyString then "normal" else x
                  | None => "normal"
                  end in
  DETECTION_BASE_CHANCE
  + (if bool_decide (Npc.awareness n = Alert) then 10 else 0)
  + (if bool_decide (Npc.awareness n = Hostile) then 20 else 0)
  + (if bool_decide (lighting env = Some "bright") then 5 else 0)
  - (if bool_decide (lighting env = Some "dim") then 5 else 0)
  - (if includes (player_conditions s) "hidden" then 15 else 0)
  + (if gtb (p_stress (player_vitals s)) 50 then 5 else 0)
  - (if String.eqb envNoise "loud" then 5 else 0)
  + (if String.eqb envNoise "silent" then 10 else 0).

Definition set_detection_level (x : Q) (s : GameState) : GameState :=
  set_player_vitals (mkPlayerVitals (p_health (player_vitals s))
                                    (p_stamina (player_vitals s))
                                    (p_stress (player_vitals s)) x) s.

(** One turn of the loop body; the boolean says whether the loop was
left through [return]. *)
Definition detect_one (rolls : string -> Q) (env : Environment) (n : NPC)
  (w : World) : World * bool :=
  if negb (in_room (currentEnvironment (state w)) n) then (w, false)
  (* [npc.state] is never assigned, so the unconscious test does not fire *)
  else if engaged n then (w, false)
  else if ltb (rolls (id n)) (detect_chance n env (state w)) then
    let currentDetection := p_detection (player_vitals (state w)) in
    let newDetection := Math_min 100 (currentDetection + DETECTION_INCREMENT) in
    let w1 := emit (Emit "detection:increased" (id n))
                (console_log ("NPC " ++ id n ++ " detected player.")
                   (on_state (set_detection_level newDetection) w)) in
    if geb newDetection 100 then
      (handleGameOver "You were caught by security." w1, true)
    else if geb newDetection 80 && negb (engagementHandled n) then
      let n' := set_engagementHandled true (set_engaged true n) in
      (handleNPCEngagement n' (on_state (npc_update (id n) (fun _ => n')) w1),
       false)
    else if geb newDetection 50
            && negb (bool_decide (Npc.awareness n = Suspicious)) then
      let n1 := set_awareness Suspicious n in
      if alreadySpotted n1
      then (on_state (npc_update (id n) (fun _ => n1)) w1, false)
      else
        (on_state (npc_update (id n) (fun _ => set_alreadySpotted true n1))
           (forceSpeech "They're getting suspicious. Be careful."
              (emit (Emit "npc:spotted" (id n))
                 (on_state (npc_update (id n) (fun _ => n1)) w1))),
         false)
    else if geb newDetection 30 && negb (alreadySpotted n) then
      (on_state (npc_update (id n)
                   (fun _ => set_alreadySpotted true (set_awareness Alert n)))
         (forceSpeech "Watch it. Someone's looking around." w1),
       false)
    else (w1, false)
  else (w, false).

Fixpoint detect_loop (rolls : string -> Q) (env : Environment)
  (ids : list string) (w : World) : World :=
  match ids with
  | [] => w
  | i :: rest =>
      match npc_get i (state w) with
      | None => detect_loop rolls env rest w
      | Some n =>
          let '(w', returned) := detect_one rolls env n w in
          if returned then w' else detect_loop rolls env rest w'
      end
  end.

Definition checkNPCDetection (rolls : string -> Q) (w : World) : World :=
  match current_env w with
  | None => w
  | Some env => detect_loop rolls env (map id (npcs (state w))) w
  end.

(** The value of [this.modeManager.getCurrentMode() || 'exploration']:
the configuration object of the current mode when there is one, the
string otherwise. *)
Inductive mode_value :=
| ConfigObject (r : mode_lookup)
| ModeName (s : string).

Definition current_mode_value (w : World) : mode_value :=
  if truthy (getCurrentMode (modeManager w))
  then ConfigObject (getCurrentMode (modeManager w))
  else ModeName "exploration".

(** [names.includes(v)] for an array of strings: strict equality, so
only a string can be found. *)
Definition names_include (names : list string) (v : mode_value) : bool :=
  match v with
  | ModeName s => includes names s
  | ConfigObject _ => false
  end.

Definition canCheckDetection (w : World) : bool :=
  detectionEnabled w
  && gtb (now w - lastDetectionCheck w) DETECTION_CHECK_INTERVAL
  && negb (names_include ["combat"; "dialogue"] (current_mode_value w)).

(** [update(deltaTime)].  The advisors' own tick and the display
transitions are outside the core. *)
Definition update (behave : NPC -> Motion) (rolls : string -> Q) (w : World)
  : World :=
  let w1 := if canCheckDetection w
            then checkNPCDetection rolls (set_lastDetectionCheck (now w) w)
            else w in
  let w2 := on_state (fun s => set_npcs (map (Npc.tick behave) (npcs s)) s) w1 in
  let w3 := checkWinLoseConditions w2 in
  let '(priorities, pm) :=
    evaluate (now w3) (state w3) (environments w3) (npcs (state w3))
             (priorityManager w3) in
  emit (Emit "priorities:updated"
             (match priorities with p :: _ => ptype p | [] => EmptyString end))
       (set_priorityManager pm w3).

(** The animation-frame callback of [gameLoop()]: update, render, and
ask for the next frame, whose handle is [handle]. *)
Definition frame (behave : NPC -> Motion) (rolls : string -> Q)
  (handle : nat) (w : World) : World :=
  set_animationId (Some handle) (update behave rolls w).

(** Timers firing. *)
Definition fire_timer (w : World) (t : timer) : World :=
  match action t with
  | UnlockTransitions => set_modeManager (unlock (modeManager w)) w
  | EnableDetection room =>
      console_log ("Detection enabled for room: " ++ room)
                  (set_detectionEnabled true w)
  | HackComplete items => hack_done items w
  end.

(** The timers set by [enterRoom]. *)
Definition enables_detection (t : timer) : bool :=
  match action t with EnableDetection _ => true | _ => false end.

(** The clock moves to [t]; the timers due by then fire in queue
order. *)
Definition advance (t : Q) (w : World) : World :=
  fold_left fire_timer (due_timers t (timers w))
            (set_timers (later_timers t (timers w)) (set_now t w)).

(** What the host can do to the game: a frame, a player action, the
end of a dialogue, each at a given time. *)
Inductive input :=
| Frame (behave : NPC -> Motion) (rolls : string -> Q) (handle : nat)
| Act (roll : Q) (d : ActionData)
| EnterRoom (room : string)
| DialogueEnded
| DialogueFailed (npc : option string).

Definition handle_input (i : input) (w : World) : World :=
  match i with
  | Frame behave rolls handle => frame behave rolls handle w
  | Act roll d => executeAction roll d w
  | EnterRoom room => enterRoom room w
  | DialogueEnded => with_manager returnToPrevious w
  | DialogueFailed npc => handleDialogueFailed npc w
  end.

Definition step (w : World) (ti : Q * input) : World :=
  handle_input (snd ti) (advance (fst ti) w).

Definition run (w : World) (script : list (Q * input)) : World :=
  fold_left step script w.

(** *** Terminal states: what is counted *)

(** The overlay of a failed mission, the overlay of a completed one,
and the advisor's last words. *)
Definition is_failure (e : event) : bool :=
  match e with
  | ErrorOverlay text => startsWith "MISSION FAILED" text
  | _ => false
  end.

Definition is_success (e : event) : bool :=
  match e with
  | ErrorOverlay text => startsWith "MISSION COMPLETE" text
  | _ => false
  end.

Definition is_halt (e : event) : bool :=
  match e with LoopStop => true | _ => false end.

Definition count (p : event -> bool) (l : list event) : nat :=
  length (filter p l).

Definition failures (w : World) : nat := count is_failure (log w).
Definition successes (w : World) : nat := count is_success (log w).
Definition halts (w : World) : nat := count is_halt (log w).

(** The log agrees with the one-shot flags: a failure was shown exactly
when [game_over] is set, a victory exactly when [mission_complete] is
set, and the loop was stopped once for each. *)
Definition flag_count (key : string) (w : World) : nat :=
  if hasFlag key (state w) then 1%nat else 0%nat.

Definition settled (w : World) : Prop :=
  failures w = flag_count "game_over" w
  /\ successes w = flag_count "mission_complete" w
  /\ halts w = (failures w + successes w)%nat.

(** What the terminal handlers alone may change: the two flags and
the three counts. *)
Definition terminal (w : World)
  : option bool * option bool * nat * nat * nat :=
  (flags (state w) !! "game_over", flags (state w) !! "mission_complete",
   failures w, successes w, halts w).

Definition terminal_event (e : event) : bool :=
  is_failure e || is_success e || is_halt e.

Definition keeps_flags (g : GameState -> GameState) : Prop :=
  forall s, flags (g s) !! "game_over" = flags s !! "game_over"
            /\ flags (g s) !! "mission_complete"
               = flags s !! "mission_complete".

(** From [w] to [w']: an agreeing log stays agreeing, and a flag once
set stays set. *)
Definition carries_on (w w' : World) : Prop :=
  (settled w -> settled w')
  /\ (hasFlag "game_over" (state w) = true ->
      hasFlag "game_over" (state w') = true)
  /\ (hasFlag "mission_complete" (state w) = true ->
      hasFlag "mission_complete" (state w') = true).

(** Calls that may reach the terminal handlers: anything the host
does, and the handlers and the win/lose check invoked directly. *)
Inductive call :=
| Host (t : Q) (i : input)
| HandleGameOver (reason : string)
| HandleMissionComplete
| CheckWinLose.

Definition perform (w : World) (c : call) : World :=
  match c with
  | Host t i => step w (t, i)
  | HandleGameOver reason => handleGameOver reason w
  | HandleMissionComplete => handleMissionComplete w
  | CheckWinLose => checkWinLoseConditions w
  end.

Definition perform_all (w : World) (cs : list call) : World :=
  fold_left perform cs w.

Definition is_game_over_call (c : call) : bool :=
  match c with HandleGameOver _ => true | _ => false end.

Definition is_complete_call (c : call) : bool :=
  match c with HandleMissionComplete => true | _ => false end.

End Game.

(** ** Concrete inputs used in the examples below *)

Module Examples.
Import Js Vitals Npc Runtime Modes State Priority Game.

Definition still : Motion := mkMotion (0, 0) "south" "stationary" 0 1 0 0.

(** A behaviour routine that leaves the NPC where it is. *)
Definition stay (n : NPC) : Motion := motion n.

(** A guard in the lobby with the given awareness and suspicion, on
its feet and not engaged. *)
Definition guard (a : Awareness) (s : Q) : NPC :=
  mkNPC "guard-1" "guard" "Security Guard"
        (mkNPCVitals (mkVitals 80 100 100 100 0 0 ∅ []) a s 0)
        "lobby-main" still a false ∅ ["keycard-level1"] None 0 false false.

(** Two rooms joined by an open door; the lobby holds the objective. *)
Definition server : Element :=
  mkElement "server-rack" "Server rack" "computer" true true "hack" false
            None None (Some ["access-logs"]) false.

Definition lobby : Environment :=
  mkEnvironment "lobby-main" "Lobby"
                (Some [mkExit "corridor" "Corridor" false None])
                (Some [server]) None None.

Definition corridor : Environment :=
  mkEnvironment "corridor" "Corridor"
                (Some [mkExit "lobby-main" "Lobby" false None])
                (Some []) None None.

Definition facility : gmap string Environment :=
  <[ "lobby-main" := lobby ]> (<[ "corridor" := corridor ]> ∅).

(** The guard, hostile and engaged, and a snapshot with the player in
the lobby next to it. *)
Definition hostile_guard : NPC := set_engaged true (guard Hostile 100).

Definition standoff : GameState :=
  mkState (Some "lobby-main") [hostile_guard] (mkPlayerVitals 100 100 0 0)
          [] [] 100 (Some []) ∅.

(** A technician in the lobby and a janitor in the corridor, both
unaware. *)
Definition tech : NPC :=
  mkNPC "tech-1" "tech" "Technician"
        (mkNPCVitals default_vitals Unaware 0 0)
        "lobby-main" still Unaware false ∅ ["keycard-level2"] None 0
        false false.

Definition janitor : NPC :=
  mkNPC "janitor-1" "janitor" "Janitor"
        (mkNPCVitals default_vitals Unaware 0 0)
        "corridor" still Unaware false ∅ [] None 0 false false.

(** The mission as loaded: the three NPCs in place, the player not yet
in a room. *)
Definition loaded : World :=
  set_state (set_npcs [guard Unaware 0; tech; janitor] initial_state)
            (initial_world facility ∅).

(** Every roll succeeds. *)
Definition always_seen (npc : string) : Q := 0.

(** The player enters the lobby; four seconds later a conversation
with the guard fails, which starts combat. *)
Definition into_combat : list (Q * input) :=
  [ (0, EnterRoom "lobby-main");
    (4000, DialogueFailed (Some "guard-1")) ].

(** The player enters the lobby and two seconds later walks on into
the corridor. *)
Definition two_rooms : list (Q * input) :=
  [ (0, EnterRoom "lobby-main");
    (2000, Act 0 (mkData "move" "corridor")) ].

(** The player at health zero, with the loop running under handle 1. *)
Definition dying : World :=
  set_animationId (Some 1%nat)
    (on_state (set_player_vitals (mkPlayerVitals 0 100 0 0)) loaded).

(** The player, tense, in the lobby, in exploration mode. *)
Definition tense : World :=
  on_state (set_currentEnvironment (Some "lobby-main"))
    (on_state (set_player_vitals (mkPlayerVitals 100 100 50 0)) loaded).

End Examples.

(** ** Status tiers and persistence of vitals ([pillars/vitals.js]) *)

Module Status.
Import Js Vitals.

(** The remaining thresholds of [VITAL_THRESHOLDS]. *)
Definition STRESS_LOW : Q := 30.
Definition STRESS_MEDIUM : Q := 50.
Definition HEALTH_HEALTHY : Q := 70.
Definition HEALTH_HURT : Q := 50.
Definition DETECTION_SAFE : Q := 20.
Definition DETECTION_NOTICED : Q := 40.

(** [getHealthStatus()], [getStressStatus()], [getDetectionStatus()]. *)
Definition getHealthStatus (v : VitalsSystem) : string :=
  if geb (health v) HEALTH_HEALTHY then "healthy"
  else if geb (health v) HEALTH_HURT then "hurt"
  else if geb (health v) HEALTH_WOUNDED then "wounded"
  else if geb (health v) HEALTH_CRITICAL then "critical"
  else "dead".

Definition getStressStatus (v : VitalsSystem) : string :=
  if leb (stress v) STRESS_LOW then "calm"
  else if leb (stress v) STRESS_MEDIUM then "tense"
  else if leb (stress v) STRESS_HIGH then "stressed"
  else if leb (stress v) STRESS_CRITICAL then "panicked"
  else "overwhelmed".

Definition getDetectionStatus (v : VitalsSystem) : string :=
  if leb (detection v) DETECTION_SAFE then "hidden"
  else if leb (detection v) DETECTION_NOTICED then "noticed"
  else if leb (detection v) DETECTION_SUSPICIOUS then "suspicious"
  else if leb (detection v) DETECTION_SPOTTED then "spotted"
  else "caught".

(** The place of a tier name in the order the code tests them, the
worst tier last. *)
Fixpoint index_of (x : string) (l : list string) : nat :=
  match l with
  | [] => 0
  | y :: l' => if String.eqb x y then 0 else S (index_of x l')
  end.

Definition health_tiers : list string :=
  ["healthy"; "hurt"; "wounded"; "critical"; "dead"].
Definition stress_tiers : list string :=
  ["calm"; "tense"; "stressed"; "panicked"; "overwhelmed"].
Definition detection_tiers : list string :=
  ["hidden"; "noticed"; "suspicious"; "spotted"; "caught"].

(** All four vitals within their bounds. *)
Definition in_range (v : VitalsSystem) : Prop :=
  (0 <= health v /\ health v <= maxHealth v)
  /\ (0 <= stamina v /\ stamina v <= maxStamina v)
  /\ (0 <= stress v /\ stress v <= 100)
  /\ (0 <= detection v /\ detection v <= 100).

(** What [serialize()] returns and [deserialize(data)] reads.  A field
may be missing from saved data; the constructor's [??] then supplies
the default. *)
Record VitalsData := mkData {
  d_health : option Q;
  d_maxHealth : option Q;
  d_stamina : option Q;
  d_maxStamina : option Q;
  d_stress : option Q;
  d_detection : option Q;
  d_conditions : option (list string);
  d_effects : option (list (string * Q))
}.

Definition serialize (v : VitalsSystem) : VitalsData :=
  mkData (Some (health v)) (Some (maxHealth v)) (Some (stamina v))
         (Some (maxStamina v)) (Some (stress v)) (Some (detection v))
         (Some (elements (conditions v))) (Some (effects v)).

Definition deserialize (d : VitalsData) : VitalsSystem :=
  mkVitals (default 100 (d_health d)) (default 100 (d_maxHealth d))
           (default 100 (d_stamina d)) (default 100 (d_maxStamina d))
           (default 0 (d_stress d)) (default 0 (d_detection d))
           (list_to_set (default [] (d_conditions d)))
           (default [] (d_effects d)).

(** The transitions [addSuspicion] can make. *)
Inductive escalation : Awareness -> Awareness -> Prop :=
| esc_suspicious : escalation Unaware Suspicious
| esc_alert_from_unaware : escalation Unaware Alert
| esc_alert : escalation Suspicious Alert
| esc_hostile a : escalation a Hostile.

End Status.

(** ** More of the mode manager ([ui/modes.js]) *)

Module ModeOps.
Import Js Runtime Modes.

(** [getCardState(cardId)]: the card's state in the current mode,
collapsed when the mode does not list the card. *)
Definition card_lookup (cardId : string) (cs : list (string * CardState))
  : option CardState :=
  option_map snd (find (fun p => String.eqb (fst p) cardId) cs).

Definition getCardState (cardId : string) (mm : ModeManager)
  : option CardState :=
  match getCurrentMode mm with
  | OwnMode m => Some (default Collapsed (card_lookup cardId (cardStates m)))
  | _ => None   (* [mode.cardStates] is undefined: the read throws *)
  end.

(** [reset()]: the stack and the previous mode are cleared, then a
transition to exploration is attempted. *)
Definition reset (mm : ModeManager) : bool * ModeManager * list request :=
  transitionTo "exploration" no_options
    (mkManager (currentMode mm) None [] (transitionLocked mm)).

(** The calls a client can make on the manager. *)
Inductive op :=
| Transition (target : string) (o : Options)
| ReturnToPrevious
| PopMode
| Reset.

Definition apply_op (o : op) (mm : ModeManager)
  : bool * ModeManager * list request :=
  match o with
  | Transition target opts => transitionTo target opts mm
  | ReturnToPrevious => returnToPrevious mm
  | PopMode => popMode mm
  | Reset => reset mm
  end.

(** A call made at time [now] on a manager with its host. *)
Definition call (h : Host) (c : Q * op) : Host :=
  let h1 := advance (fst c) h in
  let '(_, mm, rs) := apply_op (snd c) (manager h1) in
  mkHost mm (fst c) (serve (fst c) rs (pending h1))
         (delivered h1 ++ notifications rs).

Definition calls (h : Host) (cs : list (Q * op)) : Host := fold_left call cs h.

(** The two outcomes of a call.  Rejected: mode and lock are left alone
and nothing is asked of the host.  Accepted: from an unlocked manager,
into a name [MODES] has a member for, taking the lock and setting one
timer. *)
Definition rejected (mm : ModeManager)
  (r : bool * ModeManager * list request) : Prop :=
  r.1.1 = false /\ r.2 = []
  /\ transitionLocked r.1.2 = transitionLocked mm
  /\ currentMode r.1.2 = currentMode mm.

Definition accepted (mm : ModeManager)
  (r : bool * ModeManager * list request) : Prop :=
  r.1.1 = true /\ transitionLocked mm = false
  /\ transitionLocked r.1.2 = true
  /\ truthy (MODES_get (currentMode r.1.2)) = true
  /\ exists d, r.2 = [ SetTimeout d UnlockTransitions;
                       Notify (Emit "mode:changed" (currentMode r.1.2)) ].

End ModeOps.

(** ** Ranges of the player's vitals *)

Module StateOps.
Import Js State.

(** The keys the vitals object of the game state owns. *)
Definition owns (key : string) : bool :=
  includes [ "health"; "stamina"; "stress"; "detection" ] key.

(** All four vitals within [0, 100]. *)
Definition vitals_ok (v : PlayerVitals) : Prop :=
  (0 <= p_health v /\ p_health v <= 100)
  /\ (0 <= p_stamina v /\ p_stamina v <= 100)
  /\ (0 <= p_stress v /\ p_stress v <= 100)
  /\ (0 <= p_detection v /\ p_detection v <= 100).

End StateOps.

(** ** The game mode read off the priorities *)

Module PriorityOps.
Import Js Vitals Npc State Priority.

(** [determineGameMode(state, environments, npcs)].  [top.data[0]] is
[undefined] unless the data is a non-empty array, and then
[?.hasDialogue] is [undefined] too. *)
Definition determineGameMode (now : Q) (s : GameState)
  (environments : gmap string Environment) (ns : list NPC)
  (pm : PriorityManager) : string * PriorityManager :=
  let '(l, pm') := evaluate now s environments ns pm in
  (match l with
   | [] => "exploration"
   | top :: _ =>
       if String.eqb (ptype top) "combat" then "combat"
       else if String.eqb (ptype top) "npc-interaction" then
         match data top with
         | DEngaged (e :: _) =>
             if e_hasDialogue e then "dialogue" else "stealth"
         | _ => "stealth"
         end
       else if String.eqb (ptype top) "npc-nearby" then "stealth"
       else "exploration"
   end, pm').

(** The items of [evaluate] by falling weight: 100, 95, 90, 85, 70, 60,
50, 45, 20, 15. *)
Definition ranked (s : GameState) (environments : gmap string Environment)
  (ns : list NPC) : list PriorityItem :=
  let currentEnv := match currentEnvironment s with
                    | Some r => environments !! r
                    | None => None
                    end in
  let uiModifiers := getUIModifiers s in
  let combatants := getCombatants s ns in
  let engagedNPCs := getEngagedNPCs s ns in
  let criticalConditions := getCriticalConditions s in
  let nearbyNPCs := getNearbyNPCs s ns in
  let envActions := getEnvironmentActions s currentEnv in
  let interactiveElements := getInteractiveElements currentEnv in
  push_if (nonempty combatants)
          (mkItem "combat" TIER_IMMEDIATE 100 (DCombatants combatants))
  ++ push_if (nonempty engagedNPCs && empty combatants)
          (mkItem "npc-interaction" TIER_IMMEDIATE 95 (DEngaged engagedNPCs))
  ++ push_if (hasEffects uiModifiers)
          (mkItem "condition-overlay" TIER_MODIFIER 90 (DModifiers uiModifiers))
  ++ push_if (nonempty criticalConditions)
          (mkItem "critical-status" TIER_IMMEDIATE 85
                  (DCritical criticalConditions))
  ++ match checkObjectiveProximity s currentEnv with
     | Some p => [mkItem "objective-near" TIER_ENVIRONMENTAL 70 (DProximity p)]
     | None => []
     end
  ++ push_if (nonempty nearbyNPCs && empty engagedNPCs)
          (mkItem "npc-nearby" TIER_ENVIRONMENTAL 60 (DNearby nearbyNPCs))
  ++ push_if (nonempty envActions)
          (mkItem "environment-actions" TIER_ENVIRONMENTAL 50
                  (DActions envActions))
  ++ push_if (nonempty interactiveElements)
          (mkItem "interactive-elements" TIER_ENVIRONMENTAL 45
                  (DElements interactiveElements))
  ++ [ inventory_item s; vitals_item s ].

(** The five intensities of the overlay within [0, 1]. *)
Definition channels_ok (m : UIModifiers) : Prop :=
  (0 <= shake m /\ shake m <= 1)
  /\ (0 <= blur m /\ blur m <= 1)
  /\ (0 <= darken m /\ darken m <= 1)
  /\ (0 <= pulse m /\ pulse m <= 1)
  /\ (0 <= vignette m /\ vignette m <= 1).

(** The modifiers [getUIModifiers] starts from. *)
Definition no_modifiers : UIModifiers := mkModifiers 0 0 0 0 0 NoTint false.

(** The conditions the overlay reacts to. *)
Definition overlay_conditions : list string :=
  [ "panicked"; "hidden"; "adrenaline"; "exhausted" ].

End PriorityOps.

(** ** What the actions and the detection check do to the player *)

Module GameOps.
Import Js Vitals Npc Runtime Modes State Priority Game.

(** The player's vitals in a world. *)
Definition pv (w : World) : PlayerVitals := player_vitals (state w).

(** One detection: the level goes up by [DETECTION_INCREMENT], capped
at 100. *)
Definition raised (v : PlayerVitals) : PlayerVitals :=
  mkPlayerVitals (p_health v) (p_stamina v) (p_stress v)
                 (Math_min 100 (p_detection v + DETECTION_INCREMENT)).

(** From [v] to [v'] in at most [k] detections: only the detection
level differs, and if it was at most 100 it has not fallen, is still
at most 100, and has risen by at most [5 * k]. *)
Definition steps (k : nat) (v v' : PlayerVitals) : Prop :=
  p_health v' = p_health v /\ p_stamina v' = p_stamina v
  /\ p_stress v' = p_stress v
  /\ (p_detection v <= 100 ->
      p_detection v <= p_detection v' /\ p_detection v' <= 100
      /\ p_detection v' <= p_detection v + 5 * inject_Z (Z.of_nat k)).

(** Whether the NPC stored under an id carries the [unconscious]
condition. *)
Definition out_cold (npcId : string) (w : World) : bool :=
  match npc_get npcId (state w) with
  | Some m => unconscious m
  | None => false
  end.

(** The test of [checkWinLoseConditions] for a victory: alive, no
alarm, the logs carried and flagged, at the exit, and the exit
objective known and open. *)
Definition victory_ready (w : World) : bool :=
  negb (leb (p_health (pv w)) 0)
  && negb (hasFlag "alarm_triggered" (state w))
  && includes (player_equipment (state w)) "access-logs"
  && bool_decide (currentEnvironment (state w) = Some "lobby-main")
  && hasFlag "logs_acquired" (state w)
  && match find_objective "obj-extract-exit" (state w) with
     | Some o => negb (completed o)
     | None => false
     end.

(** A hall with two locked doors, one of them without a keycard level,
and a player in it carrying a level 1 card. *)
Definition hall : Environment :=
  mkEnvironment "hall" "Hall"
                (Some [ mkExit "vault" "Vault" true (Some 2);
                        mkExit "archive" "Archive" true None ])
                None None None.

Definition compound : gmap string Environment :=
  <[ "hall" := hall ]>
    (<[ "vault" := mkEnvironment "vault" "Vault" None None None None ]>
       (<[ "archive" := mkEnvironment "archive" "Archive" None None None None ]>
          ∅)).

Definition in_hall : World :=
  on_state (set_currentEnvironment (Some "hall"))
    (on_state (addEquipment "keycard-level1") (initial_world compound ∅)).

End GameOps.

(** ** The event bus ([core/engine.js]) *)

Module Bus.

(** Callbacks are function objects, told apart by identity: a number
stands for each.  The bus maps an event name to the array of its
callbacks. *)
Definition callback := nat.

Definition new_bus : gmap string (list callback) := ∅.

(** [on(event, callback)]. *)
Definition on (event : string) (c : callback) (b : gmap string (list callback))
  : gmap string (list callback) :=
  <[ event := default [] (b !! event) ++ [c] ]> b.

(** [callbacks.indexOf(callback)] followed by [splice(index, 1)]: the
first occurrence goes, if there is one. *)
Fixpoint splice_first (c : callback) (l : list callback) : list callback :=
  match l with
  | [] => []
  | x :: l' => if Nat.eqb x c then l' else x :: splice_first c l'
  end.

(** [off(event, callback)]. *)
Definition off (event : string) (c : callback) (b : gmap string (list callback))
  : gmap string (list callback) :=
  match b !! event with
  | None => b
  | Some callbacks => <[ event := splice_first c callbacks ]> b
  end.

(** [emit(event, data)]: the callbacks it calls, in order, as long as
none of them registers or removes a callback of the same event while
the loop runs. *)
Definition emit (event : string) (b : gmap string (list callback))
  : list callback :=
  match b !! event with
  | None => []
  | Some callbacks => callbacks
  end.

End Bus.

(** ** Condition effects ([pillars/vitals.js], [core/constants.js]) *)

Module Effects.
Import Js Vitals.

(** [CONDITION_EFFECTS]: for each condition, its [effects] object. *)
Definition CONDITION_EFFECTS : list (string * list (string * Q)) :=
  [ ("high-stress",
     [ ("fineMotor", -30); ("combat", 10); ("sloanConnection", -50) ]);
    ("injured",
     [ ("movement", -40); ("stealth", -20); ("bleedRate", 2) ]);
    ("exhausted",
     [ ("allActions", -20); ("recovery", -50) ]);
    ("panicked",
     [ ("sloanConnection", -80); ("readingComprehension", -60);
       ("combat", 20) ]) ].

(** The own property [o[key]] of an object literal. *)
Fixpoint own {A} (key : string) (o : list (string * A)) : option A :=
  match o with
  | [] => None
  | (k, x) :: o' => if String.eqb k key then Some x else own key o'
  end.

(** [modifier += x].  The modifier is a number until something that is
not a number is added to it; from then on it is a string, for which
[None] stands. *)
Definition add (modifier : option Q) (x : Q) : option Q :=
  option_map (fun m => m + x) modifier.

(** One turn of the loop of [getEffectModifier].  A condition without
an entry, or whose entry is a member inherited from [Object.prototype],
has no [effects].  [effects[actionType]] is a number for an own key
(zero would be skipped as falsy), a function or object for an inherited
name, and [undefined] otherwise. *)
Definition turn (actionType : string) (modifier : option Q)
  (condition : string) : option Q :=
  match own condition CONDITION_EFFECTS with
  | None => modifier
  | Some effects =>
      let m1 := match own actionType effects with
                | Some x => if Qeq_bool x 0 then modifier else add modifier x
                | None => if includes object_prototype_keys actionType
                          then None else modifier
                end in
      match own "allActions" effects with
      | Some a => if Qeq_bool a 0 then m1 else add m1 a
      | None => m1
      end
  end.

(** [getEffectModifier(actionType)]. *)
Definition getEffectModifier (actionType : string) (v : VitalsSystem)
  : option Q :=
  set_fold (fun condition modifier => turn actionType modifier condition)
           (Some 0) (conditions v).

(** What an [effects] object holds for an action type, and the total
over the conditions of the table that are held. *)
Definition entry (actionType : string) (effects : list (string * Q)) : Q :=
  default 0 (own actionType effects) + default 0 (own "allActions" effects).

Definition table_sum (actionType : string) (held : gset string) : Q :=
  fold_right (fun ce acc =>
                (if has held (fst ce) then entry actionType (snd ce) else 0)
                + acc)
             0 CONDITION_EFFECTS.

(** The [effects] object of a condition of the table. *)
Definition effects_of (condition : string) : list (string * Q) :=
  default [] (own condition CONDITION_EFFECTS).

(** The result is the number [q]. *)
Definition number_is (r : option Q) (q : Q) : Prop :=
  match r with
  | Some x => x == q
  | None => False
  end.

End Effects.

(** ** Cards and the display manager ([ui/display.js]) *)

Module Display.
Import Js Vitals Npc State Priority Modes.

(** The fields of [card.data] the display manager reads, by
truthiness. *)
Record CardData := mkCardData {
  actionType : option string;
  speaking : bool;
  critical : bool;
  studying : bool;
  active : bool
}.

(** A card.  [transitionDuration] is absent until the first
transition. *)
Record Card := mkCard {
  card_id : string;
  card_type : string;
  card_state : CardState;
  card_data : CardData;
  transitioning : bool;
  transitionTarget : option CardState;
  transitionProgress : Q;
  transitionDuration : option Q
}.

Definition state_eqb (a b : CardState) : bool :=
  match a, b with
  | Expanded, Expanded | Standard, Standard | Minimized, Minimized
  | Collapsed, Collapsed | Popup, Popup => true
  | _, _ => false
  end.

(** [new Card(config)]; [config.state || STANDARD]. *)
Definition new_card (i t : string) (s : option CardState) (d : CardData)
  : Card :=
  mkCard i t (default Standard s) d false None 0 None.

(** [card.transitionTo(newState)] with the default duration of 300,
which is how the display manager calls it. *)
Definition transitionTo (newState : CardState) (c : Card) : Card :=
  if state_eqb (card_state c) newState then c
  else mkCard (card_id c) (card_type c) (card_state c) (card_data c)
              true (Some newState) 0 (Some 300).

(** [card.updateTransition(deltaTime)].  A card in transition has a
target and a duration, both set by [transitionTo]. *)
Definition updateTransition (deltaTime : Q) (c : Card) : Card :=
  if negb (transitioning c) then c
  else
    match transitionDuration c, transitionTarget c with
    | Some duration, Some target =>
        let progress := transitionProgress c + deltaTime / duration in
        if geb progress 1 then
          mkCard (card_id c) (card_type c) target (card_data c)
                 false None progress (Some duration)
        else
          mkCard (card_id c) (card_type c) (card_state c) (card_data c)
                 true (Some target) progress (Some duration)
    | _, _ => c
    end.

(** [easeInOut(t)] and the blend of [getVisualState()]. *)
Definition easeInOut (t : Q) : Q :=
  if ltb t (1#2) then 2 * t * t
  else 1 - ((-2 * t + 2) * (-2 * t + 2)) / 2.

Definition blend (c : Card) : Q :=
  if negb (transitioning c) then 0 else easeInOut (transitionProgress c).

(** [determineCardState(card, topPriority)] and its helpers.  The type
of the top priority is [None] when there is no top priority. *)
Definition top_type (top : option PriorityItem) : option string :=
  option_map ptype top.

Definition is_interaction (top : option PriorityItem) : bool :=
  bool_decide (top_type top = Some "npc-interaction").

Definition some_hostile (top : option PriorityItem) : bool :=
  match top with
  | Some i => match data i with
              | DEngaged l =>
                  existsb (fun e => bool_decide (e_awareness e = Hostile)) l
              | _ => false
              end
  | None => false
  end.

Definition determineActionPaletteState (c : Card)
  (top : option PriorityItem) : CardState :=
  match top with
  | None => Standard
  | Some _ =>
      let kind := actionType (card_data c) in
      if is_interaction top && bool_decide (kind = Some "environment")
      then Collapsed
      else if is_interaction top
              && (bool_decide (kind = Some "social")
                  || bool_decide (kind = Some "combat"))
      then Expanded
      else if bool_decide (top_type top = Some "environment-actions")
      then if bool_decide (kind = Some "environment") then Expanded
           else Standard
      else Standard
  end.

Definition determineSloanPanelState (c : Card) (top : option PriorityItem)
  : CardState :=
  if speaking (card_data c) then Expanded
  else if is_interaction top && some_hostile top then Minimized
  else Standard.

Definition determineInventoryState (c : Card) (top : option PriorityItem)
  : CardState :=
  if is_interaction top then Minimized else Standard.

Definition determineVitalsState (c : Card) (top : option PriorityItem)
  : CardState :=
  if critical (card_data c) then Expanded else Standard.

Definition determineMapState (c : Card) (top : option PriorityItem)
  : CardState :=
  if is_interaction top then Minimized
  else if studying (card_data c) then Expanded
  else Standard.

Definition determineDialogueState (c : Card) (top : option PriorityItem)
  : CardState :=
  if is_interaction top && active (card_data c) then Expanded
  else Collapsed.

Definition determineCardState (c : Card) (top : option PriorityItem)
  : CardState :=
  if String.eqb (card_type c) "action-palette"
  then determineActionPaletteState c top
  else if String.eqb (card_type c) "sloan-panel"
  then determineSloanPanelState c top
  else if String.eqb (card_type c) "inventory"
  then determineInventoryState c top
  else if String.eqb (card_type c) "vitals"
  then determineVitalsState c top
  else if String.eqb (card_type c) "map" then determineMapState c top
  else if String.eqb (card_type c) "dialogue"
  then determineDialogueState c top
  else Standard.

(** The manager: the cards in the order of the map, the active effects
in the order of theirs, and the global modifiers. *)
Inductive channel := Shake | Blur | Darken | Pulse.

Record Modifiers := mkMods {
  m_shake : Q; m_blur : Q; m_darken : Q; m_pulse : Q
}.

Record DisplayManager := mkDisplay {
  cards : list Card;
  activeEffects : list (string * list (channel * Q));
  priorities : list PriorityItem;
  modifiers : Modifiers
}.

Definition new_display : DisplayManager :=
  mkDisplay [] [] [] (mkMods 0 0 0 0).

(** [recalculateCardStates()] and [handlePriorityUpdate(priorities)]. *)
Definition recalculate_card (top : option PriorityItem) (c : Card) : Card :=
  let newState := determineCardState c top in
  if negb (state_eqb newState (card_state c)) then transitionTo newState c
  else c.

Definition recalculateCardStates (d : DisplayManager) : DisplayManager :=
  mkDisplay (map (recalculate_card (head (priorities d))) (cards d))
            (activeEffects d) (priorities d) (modifiers d).

Definition handlePriorityUpdate (ps : list PriorityItem)
  (d : DisplayManager) : DisplayManager :=
  recalculateCardStates
    (mkDisplay (cards d) (activeEffects d) ps (modifiers d)).

(** [update(deltaTime)]. *)
Definition update (deltaTime : Q) (d : DisplayManager) : DisplayManager :=
  mkDisplay (map (updateTransition deltaTime) (cards d))
            (activeEffects d) (priorities d) (modifiers d).

(** One frame of the game loop as the display sees it: [update], then
the [priorities:updated] notification. *)
Definition frame (d : DisplayManager) (f : Q * list PriorityItem)
  : DisplayManager :=
  handlePriorityUpdate (snd f) (update (fst f) d).

Definition frames (d : DisplayManager) (fs : list (Q * list PriorityItem))
  : DisplayManager :=
  fold_left frame fs d.

(** [effectMap[conditionId]]: the five entries, whose decimal literals
denote the nearest doubles, an inherited member
(an object or function without enumerable entries of its own) for a
name of [Object.prototype], and [undefined] otherwise. *)
Definition effectMap : list (string * list (channel * Q)) :=
  [ ("high-stress", [ (Shake, fl (3#10)); (Pulse, fl (5#10)) ]);
    ("panicked", [ (Shake, fl (6#10)); (Blur, fl (2#10));
                   (Pulse, fl (8#10)) ]);
    ("injured", [ (Darken, fl (1#10)); (Pulse, fl (3#10)) ]);
    ("critical", [ (Darken, fl (3#10)); (Pulse, fl (9#10)) ]);
    ("hidden", [ (Darken, fl (2#10)) ]) ].

Fixpoint assoc {A} (key : string) (l : list (string * A)) : option A :=
  match l with
  | [] => None
  | (k, x) :: l' => if String.eqb k key then Some x else assoc key l'
  end.

Definition effectMap_get (conditionId : string)
  : option (list (channel * Q)) :=
  match assoc conditionId effectMap with
  | Some e => Some e
  | None => if includes object_prototype_keys conditionId then Some []
            else None
  end.

(** [Map.prototype.set] and [delete] on an insertion-ordered map. *)
Fixpoint map_set {A} (key : string) (x : A) (l : list (string * A))
  : list (string * A) :=
  match l with
  | [] => [(key, x)]
  | (k, y) :: l' => if String.eqb k key then (k, x) :: l'
                    else (k, y) :: map_set key x l'
  end.

Fixpoint map_delete {A} (key : string) (l : list (string * A))
  : list (string * A) :=
  match l with
  | [] => []
  | (k, y) :: l' => if String.eqb k key then l'
                    else (k, y) :: map_delete key l'
  end.

(** [recalculateModifiers()]: the effects are walked in the order of
the map, and every addition is an addition of doubles. *)
Definition get_channel (k : channel) (m : Modifiers) : Q :=
  match k with
  | Shake => m_shake m | Blur => m_blur m
  | Darken => m_darken m | Pulse => m_pulse m
  end.

Definition set_channel (k : channel) (x : Q) (m : Modifiers) : Modifiers :=
  match k with
  | Shake => mkMods x (m_blur m) (m_darken m) (m_pulse m)
  | Blur => mkMods (m_shake m) x (m_darken m) (m_pulse m)
  | Darken => mkMods (m_shake m) (m_blur m) x (m_pulse m)
  | Pulse => mkMods (m_shake m) (m_blur m) (m_darken m) x
  end.

Definition accumulate (m : Modifiers) (kv : channel * Q) : Modifiers :=
  set_channel (fst kv) (Math_min 1 (fl (get_channel (fst kv) m + snd kv))) m.

Definition recalculateModifiers (d : DisplayManager) : DisplayManager :=
  mkDisplay (cards d) (activeEffects d) (priorities d)
            (fold_left (fun m e => fold_left accumulate (snd e) m)
                       (activeEffects d) (mkMods 0 0 0 0)).

(** [handleConditionChange(data, added)]. *)
Definition handleConditionChange (conditionId : string) (added : bool)
  (d : DisplayManager) : DisplayManager :=
  match effectMap_get conditionId with
  | None => d
  | Some e =>
      recalculateModifiers
        (mkDisplay (cards d)
                   (if added then map_set conditionId e (activeEffects d)
                    else map_delete conditionId (activeEffects d))
                   (priorities d) (modifiers d))
  end.

Definition changes (d : DisplayManager) (cs : list (string * bool))
  : DisplayManager :=
  fold_left (fun d' c => handleConditionChange (fst c) (snd c) d') cs d.

(** All four modifiers within [0, 1]. *)
Definition in_unit (m : Modifiers) : Prop :=
  forall k, 0 <= get_channel k m /\ get_channel k m <= 1.

(** One frame as one card sees it. *)
Definition card_frame (f : Q * list PriorityItem) (c : Card) : Card :=
  recalculate_card (head (snd f)) (updateTransition (fst f) c).

(** A card of which a transition has just been started again: type,
data and state as those of [c0], in transition, no progress made. *)
Definition restarted (c0 c : Card) : Prop :=
  card_type c = card_type c0 /\ card_data c = card_data c0
  /\ card_state c = card_state c0
  /\ transitioning c = true /\ transitionProgress c = 0
  /\ transitionDuration c = Some 300
  /\ is_Some (transitionTarget c).

(** Effects that only add. *)
Definition nonneg (e : list (channel * Q)) : Prop :=
  Forall (fun kv => 0 <= snd kv) e.

(** What [recalculateModifiers] computes from the active effects. *)
Definition total_of (es : list (string * list (channel * Q))) : Modifiers :=
  fold_left (fun m e => fold_left accumulate (snd e) m) es (mkMods 0 0 0 0).

(** A manager whose effects only add and whose modifiers are those of
its active effects. *)
Definition tidy (d : DisplayManager) : Prop :=
  Forall (fun e => nonneg (snd e)) (activeEffects d)
  /\ modifiers d = total_of (activeEffects d).

End Display.

(** * Properties *)

(** ** Facts about the JavaScript primitives *)

Module JsFacts.
Import Js.

Lemma ltb_lt a b : ltb a b = true <-> a < b.
Proof.
  unfold ltb. rewrite negb_true_iff, <- not_true_iff_false, Qle_bool_iff.
  split; intros H; lra.
Qed.

Lemma leb_le a b : leb a b = true <-> a <= b.
Proof. apply Qle_bool_iff. Qed.

Lemma Math_max_spec a b :
  (a <= b /\ Math_max a b = b) \/ (b < a /\ Math_max a b = a).
Proof.
  unfold Math_max. destruct (Qle_bool a b) eqn:E.
  - left. split; [now apply Qle_bool_iff | reflexivity].
  - right. split; [| reflexivity].
    apply ltb_lt. unfold ltb. now rewrite E.
Qed.

Lemma Math_min_spec a b :
  (a <= b /\ Math_min a b = a) \/ (b < a /\ Math_min a b = b).
Proof.
  unfold Math_min. destruct (Qle_bool a b) eqn:E.
  - left. split; [now apply Qle_bool_iff | reflexivity].
  - right. split; [| reflexivity].
    apply ltb_lt. unfold ltb. now rewrite E.
Qed.

(** The clamp idiom [Math.max(lo, Math.min(hi, x))]. *)
Lemma clamp_range lo hi x :
  lo <= hi -> lo <= Math_max lo (Math_min hi x) <= hi.
Proof.
  intros H.
  destruct (Math_min_spec hi x) as [[? ->]|[? ->]];
    [destruct (Math_max_spec lo hi) as [[? ->]|[? ->]]
    |destruct (Math_max_spec lo x) as [[? ->]|[? ->]]]; lra.
Qed.

Lemma clamp_low lo hi x :
  x <= lo -> lo <= hi -> Math_max lo (Math_min hi x) == lo.
Proof.
  intros H1 H2.
  destruct (Math_min_spec hi x) as [[? ->]|[? ->]];
    [destruct (Math_max_spec lo hi) as [[? ->]|[? ->]]
    |destruct (Math_max_spec lo x) as [[? ->]|[? ->]]]; lra.
Qed.

Lemma ltb_ge a b : ltb a b = false <-> b <= a.
Proof.
  rewrite <- not_true_iff_false, ltb_lt. split; intros H; lra.
Qed.

Lemma leb_gt a b : leb a b = false <-> b < a.
Proof.
  rewrite <- not_true_iff_false, leb_le. split; intros H; lra.
Qed.

Lemma gtb_gt a b : gtb a b = true <-> b < a.
Proof. apply ltb_lt. Qed.

Lemma gtb_le a b : gtb a b = false <-> a <= b.
Proof. apply ltb_ge. Qed.

Lemma geb_ge a b : geb a b = true <-> b <= a.
Proof. apply leb_le. Qed.

Lemma geb_lt a b : geb a b = false <-> a < b.
Proof. apply leb_gt. Qed.

(** Rounding to a double keeps the sign. *)
Lemma nearest_even_nonneg x : 0 <= x -> (0 <= nearest_even x)%Z.
Proof.
  intros H. unfold nearest_even.
  assert (Hn : (0 <= Qnum x)%Z) by (unfold Qle in H; cbn in H; lia).
  assert (Hq : (0 <= Qnum x / Z.pos (Qden x))%Z)
    by (apply Z.div_pos; lia).
  destruct (2 * (Qnum x mod Z.pos (Qden x)) ?= Z.pos (Qden x))%Z;
    [destruct (Z.even _) | |]; lia.
Qed.

Lemma fl_pos_nonneg x : 0 <= x -> 0 <= fl_pos x.
Proof.
  intros H. unfold fl_pos. cbv zeta.
  assert (Hp : 0 < 2 ^ (binade x - 52)) by (apply Qpower_0_lt; lra).
  apply Qmult_le_0_compat; [| lra].
  change 0 with (inject_Z 0). rewrite <- Zle_Qle.
  apply nearest_even_nonneg. apply Qle_shift_div_l; [exact Hp | lra].
Qed.

Lemma fl_nonneg x : 0 <= x -> 0 <= fl x.
Proof.
  intros H. unfold fl.
  destruct (Qeq_bool x 0); [lra |].
  destruct (Qle_bool 0 x) eqn:E; [now apply fl_pos_nonneg |].
  apply Qle_bool_iff in H. congruence.
Qed.

End JsFacts.

(** ** Vitals: clamping and the frame of [modifyVital] *)

Module VitalsFacts.
Import Js JsFacts Vitals.

Lemma updateConditions_fields v :
  health (updateConditions v) = health v /\
  maxHealth (updateConditions v) = maxHealth v /\
  stamina (updateConditions v) = stamina v /\
  maxStamina (updateConditions v) = maxStamina v /\
  stress (updateConditions v) = stress v /\
  detection (updateConditions v) = detection v /\
  effects (updateConditions v) = effects v.
Proof. repeat split. Qed.

Lemma vital_names_cases vital :
  In vital vital_names ->
  vital = "health" \/ vital = "stamina" \/ vital = "stress"
  \/ vital = "detection".
Proof. simpl. intuition. Qed.

(** The value stored by one call, for each of the four vitals. *)
Lemma modifyVital_value vital delta v :
  In vital vital_names ->
  vital_of vital (fst (modifyVital vital delta v))
  = Math_max 0 (Math_min (max_of vital v) (vital_of vital v + delta))
  /\ max_of vital (fst (modifyVital vital delta v)) = max_of vital v
  /\ snd (modifyVital vital delta v)
     = Num (vital_of vital (fst (modifyVital vital delta v))).
Proof.
  intros H. apply vital_names_cases in H.
  destruct H as [-> | [-> | [-> | ->]]]; repeat split.
Qed.

(** C4. For each of the four vitals, every starting value and every
delta, [modifyVital] returns a number, namely the stored vital, and
that vital lies in [0, max], where max is maxHealth, maxStamina or
100 and is itself not negative; the maximum is left as it was.
Applying +1000 and then -1000 keeps the vital in range after each
call and ends at the lower bound 0 whenever the maximum is at most
1000. *)
Theorem modifyVital_clamps (vital : string) (delta : Q) (v : VitalsSystem) :
  In vital vital_names ->
  0 <= max_of vital v ->
  let v1 := fst (modifyVital vital delta v) in
  let up := fst (modifyVital vital 1000 v) in
  let down := fst (modifyVital vital (-1000) up) in
  (0 <= vital_of vital v1 <= max_of vital v1)
  /\ snd (modifyVital vital delta v) = Num (vital_of vital v1)
  /\ max_of vital v1 = max_of vital v
  /\ (0 <= vital_of vital up <= max_of vital v)
  /\ (0 <= vital_of vital down <= max_of vital v)
  /\ (max_of vital v <= 1000 -> vital_of vital down == 0).
Proof.
  intros Hin Hmax.
  destruct (modifyVital_value vital delta v Hin) as (E1 & M1 & R1).
  destruct (modifyVital_value vital 1000 v Hin) as (E2 & M2 & _).
  destruct (modifyVital_value vital (-1000)
              (fst (modifyVital vital 1000 v)) Hin) as (E3 & M3 & _).
  cbv zeta. rewrite R1, M1, E1, E3, M2, E2.
  pose proof (clamp_range 0 (max_of vital v) (vital_of vital v + delta) Hmax).
  pose proof (clamp_range 0 (max_of vital v) (vital_of vital v + 1000) Hmax)
    as Hup.
  repeat split; try tauto.
  - apply (clamp_range 0 (max_of vital v)); assumption.
  - apply (clamp_range 0 (max_of vital v)); assumption.
  - intros Hle. apply clamp_low; [| assumption]. lra.
Qed.

Lemma modifyVital_clamps_witness :
  vital_of "health" (fst (modifyVital "health" (-1000)
                            (fst (modifyVital "health" 1000 default_vitals))))
  == 0.
Proof.
  apply (modifyVital_clamps "health" 5 default_vitals).
  - simpl. tauto.
  - vm_compute. discriminate.
  - vm_compute. discriminate.
Defined.

(** The names under which a [VitalsSystem] has a property that is not
one of the four vitals. *)
Lemma get_property_undefined v name :
  ~ In name vital_names ->
  (get_property v name = Undefined <->
   ~ In name (["maxHealth"; "maxStamina"; "conditions"; "effects"]
              ++ vitals_methods ++ object_prototype_keys)).
Proof.
  intros Hn. unfold get_property.
  repeat match goal with
  | |- context [String.eqb name ?s] =>
      destruct (String.eqb_spec name s) as [-> | ?]
  end;
  try (exfalso; apply Hn; simpl; tauto);
  try (split; [discriminate | intros H; exfalso; apply H; simpl; tauto]).
  unfold includes.
  repeat case_bool_decide;
    try (split; [discriminate | intros H'; exfalso; apply H';
                 rewrite !in_app_iff, <- !list_elem_of_In; tauto]).
  split; [intros _ | reflexivity].
  rewrite !in_app_iff. intros [Hd | [Hm | Ho]].
  - simpl in Hd. intuition congruence.
  - apply H. now apply list_elem_of_In.
  - apply H0. now apply list_elem_of_In.
Qed.

(** C10, as the code has it.  For every name outside the four vitals
and every amount, [modifyVital] leaves the four vitals, both maxima
and the timed effects as they were and only re-derives the condition
set; the value returned is the property the object has under that
name, which is [undefined] exactly when the object has no such
property. *)
Theorem modifyVital_unknown_frame (vital : string) (amount : Q)
  (v : VitalsSystem) :
  ~ In vital vital_names ->
  let v' := fst (modifyVital vital amount v) in
  health v' = health v /\ stamina v' = stamina v /\ stress v' = stress v
  /\ detection v' = detection v
  /\ maxHealth v' = maxHealth v /\ maxStamina v' = maxStamina v
  /\ effects v' = effects v
  /\ conditions v' = derived_conditions v
  /\ snd (modifyVital vital amount v) = get_property v vital
  /\ (snd (modifyVital vital amount v) = Undefined <->
      ~ In vital (["maxHealth"; "maxStamina"; "conditions"; "effects"]
                  ++ vitals_methods ++ object_prototype_keys)).
Proof.
  intros Hn.
  assert (Hsw : modify_switch vital amount v = v).
  { unfold modify_switch.
    repeat match goal with
    | |- context [String.eqb vital ?s] =>
        destruct (String.eqb_spec vital s) as [-> | ?]
    end; try reflexivity; exfalso; apply Hn; simpl; tauto. }
  unfold modifyVital. cbv zeta. rewrite Hsw. cbn [fst snd].
  repeat split.
  apply (get_property_undefined (updateConditions v) vital Hn).
  apply (get_property_undefined (updateConditions v) vital Hn).
Qed.

Lemma modifyVital_unknown_frame_witness :
  health (fst (modifyVital "mana" 5 default_vitals)) = 100
  /\ snd (modifyVital "mana" 5 default_vitals) = Undefined.
Proof.
  pose proof (modifyVital_unknown_frame "mana" 5 default_vitals) as H.
  assert (Hn : ~ In "mana" vital_names).
  { simpl. intros [H' | [H' | [H' | [H' | []]]]]; discriminate H'. }
  specialize (H Hn). cbv zeta in H.
  destruct H as (Hh & _ & _ & _ & _ & _ & _ & _ & _ & Hu).
  split; [exact Hh |].
  apply Hu. vm_compute.
  intros H'. repeat (destruct H' as [H' | H']; [discriminate H' |]).
  exact H'.
Defined.

(** C10 fails for the returned value: [maxHealth] is not one of the
four vitals, no vital changes, yet the call returns the number stored
under that name. *)
Lemma modifyVital_maxHealth_returns_number :
  ~ In "maxHealth" vital_names
  /\ snd (modifyVital "maxHealth" 5 default_vitals) = Num 100
  /\ snd (modifyVital "maxHealth" 5 default_vitals) <> Undefined.
Proof.
  split; [| split].
  - simpl. intros [H | [H | [H | [H | []]]]]; discriminate H.
  - reflexivity.
  - discriminate.
Qed.

End VitalsFacts.

(** ** NPC awareness under decay *)

Module NpcFacts.
Import Js JsFacts Vitals Npc Examples.

(** [decaySuspicion] changes the awareness in one way only. *)
Lemma decaySuspicion_change amount (n : NPCVitals) :
  Vitals.awareness (decaySuspicion amount n) <> Vitals.awareness n ->
  Vitals.awareness n = Suspicious
  /\ Vitals.awareness (decaySuspicion amount n) = Unaware
  /\ suspicion (decaySuspicion amount n) < 30.
Proof.
  unfold decaySuspicion.
  destruct (gtb (alertCooldown n) 0); cbn; [congruence |].
  destruct (ltb _ 30) eqn:E; cbn; [| congruence].
  apply ltb_lt in E.
  case_bool_decide as Ha; cbn; [| congruence].
  intros _. auto.
Qed.

Lemma decaySuspicion_keeps amount (n : NPCVitals) :
  Vitals.awareness n <> Suspicious ->
  Vitals.awareness (decaySuspicion amount n) = Vitals.awareness n.
Proof.
  intros Hs.
  destruct (decide (Vitals.awareness (decaySuspicion amount n)
                    = Vitals.awareness n)) as [E | E]; [exact E |].
  apply decaySuspicion_change in E. tauto.
Qed.

Lemma decaySuspicion_iter amount k (n : NPCVitals) :
  Vitals.awareness n = Alert \/ Vitals.awareness n = Hostile ->
  Vitals.awareness (Nat.iter k (decaySuspicion amount) n)
  = Vitals.awareness n.
Proof.
  intros H. induction k as [| k IH]; [reflexivity |].
  rewrite Nat.iter_succ, decaySuspicion_keeps; [exact IH |].
  rewrite IH. destruct H as [-> | ->]; discriminate.
Qed.

(** What a tick does to awareness and suspicion is decided by its
first two steps. *)
Lemma tick_core behave (n : NPC) :
  canAct (vitals n) = true ->
  Npc.awareness (tick behave n) = Npc.awareness (updateAwareness (decay_step n))
  /\ suspicion (vitals (tick behave n))
     = suspicion (vitals (updateAwareness (decay_step n))).
Proof.
  intros Hc. unfold tick. rewrite Hc. cbn [negb].
  destruct (gtb (actionCooldown _) 0); split; reflexivity.
Qed.

Lemma tick_cannot_act behave (n : NPC) :
  canAct (vitals n) = false -> tick behave n = n.
Proof. intros Hc. unfold tick. now rewrite Hc. Qed.

Lemma updateAwareness_suspicion (n : NPC) :
  suspicion (vitals (updateAwareness n)) = suspicion (vitals n).
Proof.
  unfold updateAwareness.
  repeat match goal with |- context [if ?b then _ else _] => destruct b end;
    reflexivity.
Qed.

(** One tick of a hostile NPC at full suspicion. *)
Lemma tick_hostile behave (n : NPC) :
  Npc.awareness n = Hostile -> 100 <= suspicion (vitals n) ->
  Npc.awareness (tick behave n) = Hostile
  /\ suspicion (vitals (tick behave n)) = suspicion (vitals n).
Proof.
  intros Ha Hs.
  destruct (canAct (vitals n)) eqn:Hc;
    [| rewrite (tick_cannot_act behave n Hc); auto].
  destruct (tick_core behave n Hc) as [-> ->].
  rewrite updateAwareness_suspicion.
  assert (Hd : decay_step n = n).
  { unfold decay_step. rewrite Ha.
    replace (bool_decide (Hostile = Hostile)) with true by reflexivity.
    now rewrite andb_false_r. }
  rewrite Hd. split; [| reflexivity].
  unfold updateAwareness.
  assert (E : geb (suspicion (vitals n)) 100 = true) by now apply geb_ge.
  now rewrite E.
Qed.

Lemma ticks_hostile (behaves : list (NPC -> Motion)) (n : NPC) :
  Npc.awareness n = Hostile -> 100 <= suspicion (vitals n) ->
  Npc.awareness (fold_left (fun m b => tick b m) behaves n) = Hostile.
Proof.
  revert n. induction behaves as [| b bs IH]; intros n Ha Hs; [exact Ha |].
  cbn [fold_left]. destruct (tick_hostile b n Ha Hs) as [Ha' Hs'].
  apply IH; [exact Ha' | rewrite Hs'; exact Hs].
Qed.

(** One tick of an alert NPC whose suspicion decays into [30, 70). *)
Lemma tick_alert_reverts behave (n : NPC) :
  Npc.awareness n = Alert -> engaged n = false ->
  canAct (vitals n) = true -> alertCooldown (vitals n) <= 0 ->
  31 <= suspicion (vitals n) -> suspicion (vitals n) < 71 ->
  Npc.awareness (tick behave n) = Suspicious.
Proof.
  intros Ha He Hc Hcd Hlo Hhi.
  destruct (tick_core behave n Hc) as [-> _].
  unfold decay_step. rewrite He, Ha.
  replace (bool_decide (Alert = Hostile)) with false by reflexivity.
  cbn [negb andb].
  unfold decaySuspicion.
  assert (Ecd : gtb (alertCooldown (vitals n)) 0 = false) by now apply gtb_le.
  rewrite Ecd.
  destruct (Math_max_spec 0 (suspicion (vitals n) - 1)) as [[_ Em] | [Hlt _]];
    [| lra].
  unfold updateAwareness. cbn [vitals set_vitals suspicion].
  rewrite Em.
  assert (E1 : geb (suspicion (vitals n) - 1) 100 = false)
    by (apply geb_lt; lra).
  assert (E2 : geb (suspicion (vitals n) - 1) 70 = false)
    by (apply geb_lt; lra).
  assert (E3 : geb (suspicion (vitals n) - 1) 30 = true)
    by (apply geb_ge; lra).
  now rewrite E1, E2, E3.
Qed.

(** One tick of a hostile NPC whose suspicion lies in [30, 70): its
suspicion does not decay, but its awareness is re-derived. *)
Lemma tick_hostile_rederived behave (n : NPC) :
  Npc.awareness n = Hostile -> canAct (vitals n) = true ->
  30 <= suspicion (vitals n) -> suspicion (vitals n) < 70 ->
  Npc.awareness (tick behave n) = Suspicious
  /\ suspicion (vitals (tick behave n)) = suspicion (vitals n).
Proof.
  intros Ha Hc Hlo Hhi.
  destruct (tick_core behave n Hc) as [-> ->].
  rewrite updateAwareness_suspicion.
  assert (Hd : decay_step n = n).
  { unfold decay_step. rewrite Ha.
    replace (bool_decide (Hostile = Hostile)) with true by reflexivity.
    now rewrite andb_false_r. }
  rewrite Hd. split; [| reflexivity].
  unfold updateAwareness.
  assert (E1 : geb (suspicion (vitals n)) 100 = false) by (apply geb_lt; lra).
  assert (E2 : geb (suspicion (vitals n)) 70 = false) by (apply geb_lt; lra).
  assert (E3 : geb (suspicion (vitals n)) 30 = true) by (apply geb_ge; lra).
  now rewrite E1, E2, E3.
Qed.

(** C1, at an input where the code departs from it.  An alert guard
at suspicion 70 is left alone.  [decaySuspicion], applied to its
vitals sixty-one times, leaves their awareness alert, as its comment
promises (not below suspicious once alerted).  [tick], which calls
[decaySuspicion] and then re-derives the NPC's own awareness from the
decayed suspicion, makes the guard suspicious after one tick and
unaware after sixty-one.  A hostile guard at suspicion 50 is
suspicious after one tick, without any decay. *)
Theorem tick_reverts_alert_guard :
  Npc.awareness (guard Alert 70) = Alert
  /\ engaged (guard Alert 70) = false
  /\ Vitals.awareness (Nat.iter 61 (decaySuspicion 1)
                                (vitals (guard Alert 70))) = Alert
  /\ Npc.awareness (tick stay (guard Alert 70)) = Suspicious
  /\ Npc.awareness (Nat.iter 61 (tick stay) (guard Alert 70)) = Unaware
  /\ Npc.awareness (tick stay (guard Hostile 50)) = Suspicious
  /\ suspicion (vitals (tick stay (guard Hostile 50))) = 50.
Proof. vm_compute. repeat split. Qed.

End NpcFacts.

(** ** The priority list *)

Module PriorityFacts.
Import Js JsFacts Vitals Npc State Priority Examples.

(** *** The sort *)

Lemma insert_by_weight_perm x l : Permutation (x :: l) (insert_by_weight x l).
Proof.
  induction l as [| y l IH]; cbn; [reflexivity |].
  destruct (leb (weight y) (weight x)); [reflexivity |].
  rewrite perm_swap. now apply perm_skip.
Qed.

Lemma sort_by_weight_perm l : Permutation l (sort_by_weight l).
Proof.
  induction l as [| x l IH]; cbn; [reflexivity |].
  rewrite <- insert_by_weight_perm. now apply perm_skip.
Qed.

Lemma insert_by_weight_sorted x l :
  StronglySorted heavier_first l ->
  StronglySorted heavier_first (insert_by_weight x l).
Proof.
  induction 1 as [| y l Hs IH Hy]; cbn.
  - constructor; constructor.
  - destruct (leb (weight y) (weight x)) eqn:E.
    + apply leb_le in E. constructor; [now constructor |].
      constructor; [exact E |].
      eapply Forall_impl; [exact Hy |].
      unfold heavier_first. intros z Hz. lra.
    + apply leb_gt in E. constructor; [exact IH |].
      rewrite <- insert_by_weight_perm.
      constructor; [unfold heavier_first; lra | exact Hy].
Qed.

Lemma sort_by_weight_sorted l : StronglySorted heavier_first (sort_by_weight l).
Proof.
  induction l as [| x l IH]; cbn; [constructor |].
  now apply insert_by_weight_sorted.
Qed.

(** Stability: the items of any one weight keep their push order. *)
Lemma insert_by_weight_stable w x l :
  filter (of_weight w) (insert_by_weight x l) = filter (of_weight w) (x :: l).
Proof.
  induction l as [| y l IH]; cbn; [reflexivity |].
  destruct (leb (weight y) (weight x)) eqn:E; [reflexivity |].
  apply leb_gt in E.
  rewrite !filter_cons in *.
  destruct (decide (of_weight w y)) as [Hy | Hy];
    destruct (decide (of_weight w x)) as [Hx | Hx];
    rewrite IH; try reflexivity.
  exfalso. unfold of_weight in *.
  apply Is_true_eq_true in Hy, Hx.
  apply Qeq_bool_iff in Hy, Hx. lra.
Qed.

Lemma sort_by_weight_stable w l :
  filter (of_weight w) (sort_by_weight l) = filter (of_weight w) l.
Proof.
  induction l as [| x l IH]; cbn; [reflexivity |].
  rewrite insert_by_weight_stable, !filter_cons, IH. reflexivity.
Qed.

(** *** What [evaluate] returns *)

Lemma evaluate_recomputes now s envs ns pm :
  recomputes now pm ->
  fst (evaluate now s envs ns pm) = sort_by_weight (collect s envs ns).
Proof.
  intros [Hc | Hage]; unfold evaluate.
  - now rewrite Hc.
  - destruct (priorityCache pm); [| reflexivity].
    apply ltb_ge in Hage. now rewrite Hage.
Qed.

(** A reachable manager only ever caches sorted pushes of some
snapshot. *)
Lemma reachable_cache pm :
  reachable pm ->
  forall l, priorityCache pm = Some l ->
            exists s envs ns, l = sort_by_weight (collect s envs ns).
Proof.
  induction 1 as [| now s envs ns pm Hr IH | pm Hr IH]; intros l Hl.
  - discriminate.
  - unfold evaluate in Hl.
    destruct (priorityCache pm) as [c |] eqn:Ec.
    + destruct (ltb (now - lastEvaluation pm) cacheLifetime).
      * cbn in Hl. rewrite Ec in Hl. now apply IH.
      * cbn in Hl. injection Hl as <-. eauto.
    + cbn in Hl. injection Hl as <-. eauto.
  - discriminate.
Qed.

Lemma evaluate_some_snapshot now s envs ns pm :
  reachable pm ->
  exists s' envs' ns',
    fst (evaluate now s envs ns pm) = sort_by_weight (collect s' envs' ns').
Proof.
  intros Hr. unfold evaluate.
  destruct (priorityCache pm) as [c |] eqn:Ec; [| cbn; eauto].
  destruct (ltb (now - lastEvaluation pm) cacheLifetime); [| cbn; eauto].
  cbn. now apply (reachable_cache pm Hr).
Qed.

(** *** What [evaluate] pushes *)

Lemma collect_self_items s envs ns :
  inventory_item s ∈ collect s envs ns /\ vitals_item s ∈ collect s envs ns.
Proof.
  unfold collect. cbv zeta. rewrite !elem_of_app.
  split; do 8 right.
  - apply list_elem_of_here.
  - apply list_elem_of_further, list_elem_of_here.
Qed.

Lemma elem_of_push_if b (i x : PriorityItem) :
  x ∈ push_if b i -> x = i.
Proof.
  destruct b; cbn; intros H.
  - now apply list_elem_of_singleton in H.
  - now apply elem_of_nil in H.
Qed.

(** The type of a pushed item fixes its weight. *)
Lemma collect_weights s envs ns i :
  i ∈ collect s envs ns ->
  (ptype i = "combat" -> weight i = 100)
  /\ (ptype i = "objective-near" -> weight i = 70).
Proof.
  unfold collect. cbv zeta. rewrite !elem_of_app.
  intros H.
  repeat match goal with
  | H : _ \/ _ |- _ => destruct H as [H | H]
  | H : _ ∈ push_if _ _ |- _ => apply elem_of_push_if in H; subst i
  end; try (split; cbn; intros; (discriminate || reflexivity)).
  - destruct (checkObjectiveProximity _ _).
    + apply list_elem_of_singleton in H. subst i.
      split; cbn; intros; (discriminate || reflexivity).
    + now apply elem_of_nil in H.
  - apply elem_of_cons in H. destruct H as [-> | H];
      [split; cbn; intros; discriminate |].
    apply list_elem_of_singleton in H. subst i.
    split; cbn; intros; discriminate.
Qed.

Lemma nonempty_map_filter {A B} (f : A -> B) (P : A -> bool) (l : list A) x :
  x ∈ l -> P x = true -> nonempty (map f (filter P l)) = true.
Proof.
  intros Hx HP.
  assert (Hin : x ∈ filter P l).
  { apply list_elem_of_filter. split; [now apply Is_true_eq_left | exact Hx]. }
  unfold nonempty. destruct (filter P l); [now apply elem_of_nil in Hin |].
  reflexivity.
Qed.

Lemma collect_combat s envs ns n :
  n ∈ ns -> is_combatant s n = true ->
  exists c, c ∈ collect s envs ns /\ ptype c = "combat" /\ weight c = 100
            /\ tier c = TIER_IMMEDIATE.
Proof.
  intros Hn Hc.
  exists (mkItem "combat" TIER_IMMEDIATE 100 (DCombatants (getCombatants s ns))).
  split; [| auto].
  assert (Hne : nonempty (getCombatants s ns) = true)
    by exact (nonempty_map_filter _ _ ns n Hn Hc).
  unfold collect. cbv zeta. rewrite !elem_of_app. right. left.
  rewrite Hne. apply list_elem_of_here.
Qed.

Lemma collect_objective s envs ns room env el objs :
  currentEnvironment s = Some room -> envs !! room = Some env ->
  el ∈ or_empty (elements env) -> isObjective el = true ->
  objectives s = Some objs ->
  exists o, o ∈ collect s envs ns /\ ptype o = "objective-near"
            /\ weight o = 70 /\ tier o = TIER_ENVIRONMENTAL.
Proof.
  intros Hcur Henv Hel Hobj Hobjs.
  assert (Hp : checkObjectiveProximity s (Some env)
               = Some (ObjectiveInRoom
                         (map el_id (filter isObjective
                                            (or_empty (elements env)))))).
  { unfold checkObjectiveProximity. rewrite Hobjs.
    assert (Hin : el ∈ filter isObjective (or_empty (elements env))).
    { apply list_elem_of_filter.
      split; [now apply Is_true_eq_left | exact Hel]. }
    destruct (filter isObjective (or_empty (elements env)));
      [now apply elem_of_nil in Hin | reflexivity]. }
  eexists. split; [| split; [| split]]; cycle 1.
  - instantiate (1 := mkItem "objective-near" TIER_ENVIRONMENTAL 70 _).
    reflexivity.
  - reflexivity.
  - reflexivity.
  - unfold collect. cbv zeta. rewrite !elem_of_app. do 5 right. left.
    rewrite Hcur, Henv, Hp. apply list_elem_of_here.
Qed.

(** In a sorted list a strictly heavier item stands strictly earlier. *)
Lemma sorted_lookup_le l i j a b :
  StronglySorted heavier_first l -> (i < j)%nat ->
  l !! i = Some a -> l !! j = Some b -> weight b <= weight a.
Proof.
  intros Hs. revert i j. induction Hs as [| x l Hs IH Hx]; intros i j Hij Ha Hb.
  - now rewrite lookup_nil in Ha.
  - destruct j as [| j]; [lia |]. destruct i as [| i].
    + cbn in Ha, Hb. injection Ha as <-.
      rewrite Forall_forall in Hx. apply Hx.
      apply list_elem_of_lookup. eauto.
    + cbn in Ha, Hb. apply (IH i j); [lia | assumption | assumption].
Qed.

Lemma sorted_heavier_earlier l i j a b :
  StronglySorted heavier_first l ->
  l !! i = Some a -> l !! j = Some b -> weight b < weight a -> (i < j)%nat.
Proof.
  intros Hs Ha Hb Hw.
  destruct (Nat.lt_trichotomy i j) as [H | [-> | H]]; [exact H | |].
  - rewrite Ha in Hb. injection Hb as ->. lra.
  - pose proof (sorted_lookup_le l j i b a Hs H Hb Ha). lra.
Qed.

(** C6. Whatever the snapshot, the list [evaluate] returns is sorted by
descending weight, and a combat item in it (weight 100) stands
strictly before an objective-proximity item (weight 70).  When the
evaluation recomputes, the list is the stable sort of the pushed
items: a permutation of them in which the items of any one weight
keep their push order; and if the snapshot has a hostile, engaged,
conscious NPC in the current room and an objective element there,
both items are present, combat first. *)
Theorem evaluate_sorted_by_weight (now : Q) (s : GameState)
  (envs : gmap string Environment) (ns : list NPC) (pm : PriorityManager) :
  reachable pm ->
  let l := fst (evaluate now s envs ns pm) in
  StronglySorted heavier_first l
  /\ (forall i j c o,
        l !! i = Some c -> l !! j = Some o ->
        ptype c = "combat" -> ptype o = "objective-near" ->
        weight c = 100 /\ weight o = 70 /\ (i < j)%nat)
  /\ (recomputes now pm ->
      l = sort_by_weight (collect s envs ns)
      /\ Permutation (collect s envs ns) l
      /\ (forall w, filter (of_weight w) l
                    = filter (of_weight w) (collect s envs ns))
      /\ (forall n room env el objs,
            n ∈ ns -> is_combatant s n = true ->
            currentEnvironment s = Some room -> envs !! room = Some env ->
            el ∈ or_empty (elements env) -> isObjective el = true ->
            objectives s = Some objs ->
            exists i j c o,
              l !! i = Some c /\ l !! j = Some o /\ (i < j)%nat
              /\ ptype c = "combat" /\ weight c = 100
              /\ ptype o = "objective-near" /\ weight o = 70)).
Proof.
  intros Hr l.
  destruct (evaluate_some_snapshot now s envs ns pm Hr)
    as (s' & envs' & ns' & El).
  fold l in El.
  assert (Hsorted : StronglySorted heavier_first l)
    by (rewrite El; apply sort_by_weight_sorted).
  assert (Hweights : forall i, i ∈ l ->
            (ptype i = "combat" -> weight i = 100)
            /\ (ptype i = "objective-near" -> weight i = 70)).
  { intros i Hi. apply (collect_weights s' envs' ns').
    rewrite El in Hi. now rewrite (sort_by_weight_perm (collect s' envs' ns')). }
  assert (Horder : forall i j c o,
            l !! i = Some c -> l !! j = Some o ->
            ptype c = "combat" -> ptype o = "objective-near" ->
            weight c = 100 /\ weight o = 70 /\ (i < j)%nat).
  { intros i j c o Hc Ho Tc To.
    assert (Wc : weight c = 100)
      by (apply Hweights; [apply list_elem_of_lookup; eauto | exact Tc]).
    assert (Wo : weight o = 70)
      by (apply Hweights; [apply list_elem_of_lookup; eauto | exact To]).
    repeat split; try assumption.
    apply (sorted_heavier_earlier l i j c o Hsorted Hc Ho).
    rewrite Wc, Wo. reflexivity. }
  split; [exact Hsorted |]. split; [exact Horder |].
  intros Hfresh.
  assert (Efresh : l = sort_by_weight (collect s envs ns))
    by (apply evaluate_recomputes; exact Hfresh).
  split; [exact Efresh |].
  split; [rewrite Efresh; apply sort_by_weight_perm |].
  split; [intros w; rewrite Efresh; apply sort_by_weight_stable |].
  intros n room env el objs Hn Hc Hcur Henv Hel Hobj Hobjs.
  destruct (collect_combat s envs ns n Hn Hc) as (c & Hcin & Tc & Wc & _).
  destruct (collect_objective s envs ns room env el objs Hcur Henv Hel Hobj Hobjs)
    as (o & Hoin & To & Wo & _).
  rewrite (sort_by_weight_perm (collect s envs ns)), <- Efresh in Hcin, Hoin.
  apply list_elem_of_lookup in Hcin, Hoin.
  destruct Hcin as [i Hi]. destruct Hoin as [j Hj].
  exists i, j, c, o. repeat split; try assumption.
  now apply (Horder i j c o).
Qed.

Lemma evaluate_sorted_by_weight_witness :
  exists i j c o,
    fst (evaluate 0 standoff facility (npcs standoff) initial_pm) !! i = Some c
    /\ fst (evaluate 0 standoff facility (npcs standoff) initial_pm) !! j
       = Some o
    /\ (i < j)%nat
    /\ ptype c = "combat" /\ weight c = 100
    /\ ptype o = "objective-near" /\ weight o = 70.
Proof.
  destruct (evaluate_sorted_by_weight 0 standoff facility (npcs standoff)
              initial_pm reach_new) as (_ & _ & H).
  destruct (H (or_introl eq_refl)) as (_ & _ & _ & H4).
  apply (H4 hostile_guard "lobby-main" lobby server []).
  - apply list_elem_of_here.
  - reflexivity.
  - reflexivity.
  - reflexivity.
  - apply list_elem_of_here.
  - reflexivity.
  - reflexivity.
Defined.

(** The list computed for the standoff in the lobby. *)
Example evaluate_standoff :
  map ptype (fst (evaluate 0 standoff facility (npcs standoff) initial_pm))
  = [ "combat"; "objective-near"; "environment-actions";
      "interactive-elements"; "inventory"; "vitals" ].
Proof. vm_compute. reflexivity. Qed.

(** C9. Whatever the snapshot, the list [evaluate] returns holds the
inventory item (weight 20) and the vitals item (weight 15), both of
the Self tier, so it is not empty and [getTopPriority] does not return
null; when the evaluation recomputes, they are the items built from
the player's current equipment and vitals. *)
Theorem evaluate_has_self_items (now : Q) (s : GameState)
  (envs : gmap string Environment) (ns : list NPC) (pm : PriorityManager) :
  reachable pm ->
  let l := fst (evaluate now s envs ns pm) in
  (exists i, i ∈ l /\ ptype i = "inventory" /\ weight i = 20
             /\ tier i = TIER_SELF)
  /\ (exists v, v ∈ l /\ ptype v = "vitals" /\ weight v = 15
                /\ tier v = TIER_SELF)
  /\ l <> []
  /\ fst (getTopPriority now s envs ns pm) <> None
  /\ (recomputes now pm -> inventory_item s ∈ l /\ vitals_item s ∈ l).
Proof.
  intros Hr l.
  destruct (evaluate_some_snapshot now s envs ns pm Hr)
    as (s' & envs' & ns' & El).
  fold l in El.
  destruct (collect_self_items s' envs' ns') as [Hi Hv].
  rewrite (sort_by_weight_perm (collect s' envs' ns')), <- El in Hi, Hv.
  assert (Hne : l <> []).
  { intros E. rewrite E in Hi. now apply elem_of_nil in Hi. }
  split; [exists (inventory_item s'); auto |].
  split; [exists (vitals_item s'); auto |].
  split; [exact Hne |].
  split.
  - unfold getTopPriority. subst l.
    destruct (evaluate now s envs ns pm) as [l' pm']. cbn in *.
    destruct l'; [congruence | discriminate].
  - intros Hfresh.
    assert (Efresh : l = sort_by_weight (collect s envs ns))
      by (apply evaluate_recomputes; exact Hfresh).
    destruct (collect_self_items s envs ns) as [Hi' Hv'].
    rewrite (sort_by_weight_perm (collect s envs ns)), <- Efresh in Hi', Hv'.
    auto.
Qed.

Lemma evaluate_has_self_items_witness :
  fst (getTopPriority 0 initial_state ∅ [] initial_pm) <> None.
Proof.
  apply (evaluate_has_self_items 0 initial_state ∅ [] initial_pm reach_new).
Defined.

End PriorityFacts.

(** ** Mode transitions *)

Module ModesFacts.
Import Js JsFacts Runtime Modes.

(** The three guards of [transitionTo]. *)
Lemma transitionTo_locked target o mm :
  transitionLocked mm = true -> transitionTo target o mm = (false, mm, []).
Proof. intros H. unfold transitionTo. now rewrite H. Qed.

Lemma transitionTo_same o mm :
  transitionTo (currentMode mm) o mm = (false, mm, []).
Proof.
  unfold transitionTo. destruct (transitionLocked mm); [reflexivity |].
  destruct (negb _); [reflexivity |]. now rewrite String.eqb_refl.
Qed.

Lemma transitionTo_no_member target o mm :
  MODES_get target = NoMember -> transitionTo target o mm = (false, mm, []).
Proof.
  intros H. unfold transitionTo. destruct (transitionLocked mm); [reflexivity |].
  now rewrite H.
Qed.

(** A name that is neither a mode nor inherited from [Object.prototype]
has no member in [MODES]. *)
Lemma MODES_get_unknown target :
  target ∉ mode_names -> target ∉ object_prototype_keys ->
  MODES_get target = NoMember.
Proof.
  intros Hm Hp. unfold MODES_get.
  assert (E : MODES !! target = None).
  { unfold MODES. apply not_elem_of_list_to_map_1.
    cbn [fmap list_fmap fst]. exact Hm. }
  rewrite E. unfold includes. now rewrite bool_decide_eq_false_2.
Qed.

(** A rejected call changes nothing and asks nothing of the host. *)
Lemma transitionTo_rejected target o mm :
  (transitionTo target o mm).1.1 = false ->
  transitionTo target o mm = (false, mm, []).
Proof.
  unfold transitionTo.
  destruct (transitionLocked mm); [reflexivity |].
  destruct (negb _); [reflexivity |].
  destruct (String.eqb _ _); [reflexivity | discriminate].
Qed.

(** An accepted call takes the lock and sets exactly one timer. *)
Lemma transitionTo_accepted target o mm :
  (transitionTo target o mm).1.1 = true ->
  transitionLocked mm = false
  /\ transitionTo target o mm
     = (true,
        mkManager target (Some (currentMode mm))
                  (if pushToStack o then modeStack mm ++ [currentMode mm]
                   else modeStack mm) true,
        [ SetTimeout (lock_delay o) UnlockTransitions;
          Notify (Emit "mode:changed" target) ]).
Proof.
  unfold transitionTo.
  destruct (transitionLocked mm); [discriminate |].
  destruct (negb _); [discriminate |].
  destruct (String.eqb _ _); [discriminate |]. auto.
Qed.

(** *** The lock window *)

Lemma initial_host_consistent : lock_consistent initial_host.
Proof. left. split; reflexivity. Qed.

Lemma advance_consistent now h :
  lock_consistent h -> lock_consistent (advance now h).
Proof.
  intros [[Hu Hp] | [Hl [d Hp]]]; unfold advance, due_timers, later_timers;
    rewrite Hp.
  - left. cbn. auto.
  - rewrite !filter_cons, !filter_nil.
    destruct (decide (is_due now (mkTimer d UnlockTransitions))) as [Hd | Hd].
    + left. rewrite decide_False by (destruct (is_due _ _); cbn in *; tauto).
      cbn. auto.
    + right. rewrite decide_True by (destruct (is_due _ _); cbn in *; tauto).
      cbn. eauto.
Qed.

Lemma advance_not_due now h d :
  pending h = [mkTimer d UnlockTransitions] -> now < d ->
  advance now h = mkHost (manager h) now (pending h) (delivered h).
Proof.
  intros Hp Hlt. unfold advance, due_timers, later_timers. rewrite Hp.
  assert (E : is_due now (mkTimer d UnlockTransitions) = false)
    by (apply leb_gt; exact Hlt).
  rewrite !filter_cons, !filter_nil.
  rewrite decide_False by (rewrite E; cbn; tauto).
  rewrite decide_True by (rewrite E; cbn; tauto).
  reflexivity.
Qed.

Lemma call_transitionTo_consistent now target o h :
  lock_consistent h -> lock_consistent (call_transitionTo now target o h).2.
Proof.
  intros Hc. apply (advance_consistent now) in Hc.
  unfold call_transitionTo.
  generalize dependent (advance now h). intros ha Hc.
  destruct (transitionTo target o (manager ha)) as [[ok mm] rs] eqn:E.
  destruct ok.
  - destruct (transitionTo_accepted target o (manager ha))
      as [Hu E']; [now rewrite E |].
    rewrite E in E'. injection E' as -> ->.
    destruct Hc as [[_ Hp] | [Hl _]]; [| congruence].
    right. cbn. rewrite Hp. cbn. eauto.
  - rewrite (transitionTo_rejected target o (manager ha)) in E
      by now rewrite E.
    injection E as <- <-. cbn. rewrite app_nil_r.
    destruct ha; exact Hc.
Qed.

(** Of two calls within one lock window the second is rejected and
changes neither the manager nor what was delivered. *)
Lemma second_call_rejected t0 t target o target' o' h :
  lock_consistent h ->
  (call_transitionTo t0 target o h).1 = true ->
  t0 <= t -> t < t0 + lock_delay o ->
  let h1 := (call_transitionTo t0 target o h).2 in
  (call_transitionTo t target' o' h1).1 = false
  /\ manager (call_transitionTo t target' o' h1).2 = manager h1
  /\ delivered (call_transitionTo t target' o' h1).2 = delivered h1
  /\ currentMode (manager h1) = target.
Proof.
  intros Hc Hok Hle Hlt h1.
  apply (advance_consistent t0) in Hc.
  assert (Eh1 : exists prev stack delivered0,
            h1 = mkHost (mkManager target prev stack true) t0
                        [mkTimer (t0 + lock_delay o) UnlockTransitions]
                        delivered0).
  { subst h1. unfold call_transitionTo in *.
    generalize dependent (advance t0 h). intros ha Hc Hok.
    destruct (transitionTo target o (manager ha)) as [[ok mm] rs] eqn:E.
    cbn in Hok. subst ok.
    destruct (transitionTo_accepted target o (manager ha))
      as [Hu E']; [now rewrite E |].
    rewrite E in E'. injection E' as -> ->.
    destruct Hc as [[_ Hp] | [Hl _]]; [| congruence].
    cbn. rewrite Hp. cbn. eauto. }
  destruct Eh1 as (prev & stack & delivered0 & Eh1).
  assert (Ea : advance t h1
               = mkHost (manager h1) t (pending h1) (delivered h1)).
  { apply (advance_not_due t h1 (t0 + lock_delay o)); [| exact Hlt].
    rewrite Eh1. reflexivity. }
  unfold call_transitionTo. rewrite Ea. cbn [manager].
  rewrite transitionTo_locked by (rewrite Eh1; reflexivity).
  cbn. rewrite app_nil_r. rewrite Eh1. cbn. auto.
Qed.

(** C7, at the input where the code departs from it.  [constructor]
is not a mode, yet [MODES["constructor"]] finds the member every
object inherits, which is truthy: on a fresh manager the call is
accepted, replaces the current mode, takes the lock and notifies. *)
Theorem transitionTo_inherited_name_accepted :
  ("constructor" ∉ mode_names)
  /\ MODES !! "constructor" = None
  /\ transitionTo "constructor" no_options initial_manager
     = (true,
        mkManager "constructor" (Some "exploration") [] true,
        [ SetTimeout 300 UnlockTransitions;
          Notify (Emit "mode:changed" "constructor") ]).
Proof.
  split; [| split; reflexivity].
  unfold mode_names. rewrite !elem_of_cons, elem_of_nil.
  intros H. repeat (destruct H as [H | H]; [discriminate H |]). exact H.
Qed.

End ModesFacts.

(** ** The game: detection gates and action dispatch *)

Module GameFacts.
Import Js JsFacts Vitals Npc Runtime Modes State Priority Game Examples.

(** The mode test of [update] compares strings with what
[getCurrentMode()] returns, a configuration object, or with the
fallback string [exploration]: it never finds [combat] or
[dialogue]. *)
Lemma mode_test_never_fires (w : World) :
  names_include ["combat"; "dialogue"] (current_mode_value w) = false.
Proof.
  unfold current_mode_value.
  destruct (truthy (getCurrentMode (modeManager w))); reflexivity.
Qed.

Lemma canCheckDetection_ignores_mode (w : World) :
  canCheckDetection w
  = detectionEnabled w
    && gtb (now w - lastDetectionCheck w) DETECTION_CHECK_INTERVAL.
Proof.
  unfold canCheckDetection. rewrite mode_test_never_fires.
  now rewrite andb_true_r.
Qed.

(** C2, at an input where the code departs from it.  After a failed
conversation the game is in combat mode; two seconds later a frame
runs the ambient detection check all the same, and the technician
standing by raises the player's detection from 30 to 35. *)
Theorem detection_runs_in_combat :
  let before := run loaded into_combat in
  let after := step before (6000, Frame stay always_seen 1%nat) in
  currentMode (modeManager before) = "combat"
  /\ currentMode (modeManager after) = "combat"
  /\ canCheckDetection (advance 6000 before) = true
  /\ p_detection (player_vitals (state before)) = 30
  /\ p_detection (player_vitals (state after)) = 35
  /\ In (Emit "detection:increased" "tech-1") (log after).
Proof.
  vm_compute. repeat split; tauto.
Qed.

(** C5, at an input where the code departs from it.  The player enters
the lobby at time 0 and the corridor at time 2000.  The timer set by
the first entry fires at 3000 and enables detection; the frame at
3700, only 1700 ms after the second entry, runs a check, and the
janitor raises the player's detection from 0 to 5. *)
Theorem detection_inside_grace_window :
  let entered := run loaded two_rooms in
  let after := step entered (3700, Frame stay always_seen 1%nat) in
  roomEntryTime entered = 2000
  /\ currentEnvironment (state entered) = Some "corridor"
  /\ detectionEnabled entered = false
  /\ p_detection (player_vitals (state entered)) = 0
  /\ now after = 3700
  /\ 3700 < roomEntryTime entered + DETECTION_GRACE_PERIOD
  /\ canCheckDetection (advance 3700 entered) = true
  /\ p_detection (player_vitals (state after)) = 5
  /\ In (Emit "detection:increased" "janitor-1") (log after).
Proof.
  vm_compute. repeat split; tauto.
Qed.

(** [wait] is in no mode's whitelist. *)
Lemma wait_never_allowed name m :
  MODES !! name = Some m -> "wait" ∉ allowedActions m.
Proof.
  revert name m.
  apply (bool_decide_eq_true_1
           (map_Forall (fun _ m => "wait" ∉ allowedActions m) MODES)).
  vm_compute. reflexivity.
Qed.

(** C3 fails: in exploration mode, whose whitelist does not hold
[wait], the action is executed and lowers the player's stress. *)
Lemma wait_executes_outside_whitelist :
  currentMode (modeManager tense) = "exploration"
  /\ isActionAllowed "wait" (modeManager tense) = Some false
  /\ p_stress (player_vitals (state tense)) = 50
  /\ p_stress (player_vitals
                 (state (executeAction 0 (mkData "wait" "room") tense))) = 40.
Proof. vm_compute. repeat split. Qed.

Lemma dispatch_unknown roll verb target w :
  verb ∉ dispatched_verbs ->
  dispatch roll verb target w
  = console_log ("Action not implemented: " ++ verb) w.
Proof.
  intros Hv. unfold dispatch.
  repeat match goal with
  | |- context [String.eqb verb ?s] =>
      destruct (String.eqb_spec verb s) as [-> | _];
      [exfalso; apply Hv; unfold dispatched_verbs;
       rewrite !elem_of_cons; tauto |]
  end.
  reflexivity.
Qed.

(** In cutscene mode nothing is allowed. *)
Lemma cutscene_allows_nothing verb mm :
  currentMode mm = "cutscene" -> isActionAllowed verb mm = Some false.
Proof.
  intros H. unfold isActionAllowed, getCurrentMode. rewrite H.
  vm_compute. reflexivity.
Qed.

(** C3, as the code has it.  [executeAction] dispatches on the verb
alone.  A verb for which the switch has no case is answered on the
console with [Action not implemented] and changes nothing else.  Each
of the fifteen verbs that have a case runs its handler on the world in
which the action was logged, in every world, so whatever
[isActionAllowed] says of the verb there: in cutscene mode, which
allows nothing, as in any other.  [wait], which no mode allows, always
applies its vitals change. *)
Theorem executeAction_dispatch_only (roll : Q) (d : ActionData) (w : World) :
  let logged :=
    console_log ("Action: " ++ data_verb d ++ " " ++ data_target d) w in
  (data_verb d ∉ dispatched_verbs ->
   executeAction roll d w
   = set_console (console w
                  ++ [ ("Action: " ++ data_verb d ++ " " ++ data_target d)%string;
                       ("Action not implemented: " ++ data_verb d)%string ]) w)
  /\ (data_verb d = "wait" ->
      (forall name m, MODES !! name = Some m -> "wait" ∉ allowedActions m)
      /\ state (executeAction roll d w)
         = updateVitals [("stress", -10); ("stamina", 5)] (state w))
  /\ ((data_verb d = "move" ->
       executeAction roll d w = moveToRoom (data_target d) logged)
      /\ (data_verb d = "sneak" ->
          executeAction roll d w = sneakToRoom (data_target d) logged)
      /\ (data_verb d = "examine" ->
          executeAction roll d w = examineElement (data_target d) logged)
      /\ (data_verb d = "take" ->
          executeAction roll d w = takeItem (data_target d) logged)
      /\ (data_verb d = "use" ->
          executeAction roll d w = useItem (data_target d) logged)
      /\ (data_verb d = "hack" ->
          executeAction roll d w = hackTerminal (data_target d) logged)
      /\ (data_verb d = "talk" ->
          executeAction roll d w = startDialogue (data_target d) logged)
      /\ (data_verb d = "look" ->
          executeAction roll d w = surveyRoom logged)
      /\ (data_verb d = "listen" ->
          executeAction roll d w = listenForSounds logged)
      /\ (data_verb d = "wait" ->
          executeAction roll d w = waitAction logged)
      /\ (data_verb d = "contact-mack" ->
          executeAction roll d w = contactMack logged)
      /\ (data_verb d = "contact-sloan" ->
          executeAction roll d w = offerMackConnection logged)
      /\ (data_verb d = "subdue" ->
          executeAction roll d w = attemptSubdue roll (data_target d) logged)
      /\ (data_verb d = "flee" ->
          executeAction roll d w = attemptFlee logged)
      /\ (data_verb d = "attack" ->
          executeAction roll d w = attemptAttack (data_target d) logged))
  /\ (currentMode (modeManager w) = "cutscene" ->
      isActionAllowed (data_verb d) (modeManager w) = Some false).
Proof.
  cbv zeta. split; [| split; [| split]].
  - intros Hv. unfold executeAction.
    rewrite (dispatch_unknown roll _ _ _ Hv).
    unfold console_log, set_console. cbn. now rewrite <- app_assoc.
  - intros Hv. split; [exact wait_never_allowed |].
    unfold executeAction. rewrite Hv. reflexivity.
  - unfold executeAction.
    repeat split; intros Hv; rewrite Hv; reflexivity.
  - apply cutscene_allows_nothing.
Qed.

Lemma executeAction_dispatch_only_witness :
  executeAction 0 (mkData "dance" "room") tense
  = set_console [ "Action: dance room"; "Action not implemented: dance" ]
                tense
  /\ state (executeAction 0 (mkData "wait" "room") tense)
     = updateVitals [("stress", -10); ("stamina", 5)] (state tense)
  /\ executeAction 0 (mkData "take" "knife") tense
     = takeItem "knife" (console_log "Action: take knife" tense).
Proof.
  destruct (executeAction_dispatch_only 0 (mkData "dance" "room") tense)
    as [H1 _].
  destruct (executeAction_dispatch_only 0 (mkData "wait" "room") tense)
    as (_ & H2 & _).
  destruct (executeAction_dispatch_only 0 (mkData "take" "knife") tense)
    as (_ & _ & (_ & _ & _ & H3 & _) & _).
  split; [| split].
  - apply H1. cbn. unfold dispatched_verbs.
    rewrite !elem_of_cons, elem_of_nil.
    intros H. repeat (destruct H as [H | H]; [discriminate H |]). exact H.
  - apply H2. reflexivity.
  - apply H3. reflexivity.
Defined.

(** *** The grace period of a single room entry

What does hold of the grace period: when no timer of an earlier entry
is pending, no detection check runs, and no frame changes the
player's detection, until the grace period has passed. *)

Lemma filter_enqueue (P : timer -> bool) x l :
  P x = false -> filter P (enqueue x l) = filter P l.
Proof.
  intros Hx. induction l as [| y l IH]; cbn [enqueue].
  - now rewrite filter_cons, Hx.
  - destruct (ltb (due x) (due y)).
    + now rewrite filter_cons, Hx.
    + now rewrite !filter_cons, IH.
Qed.

Lemma takeItem_detectionEnabled i w :
  detectionEnabled (takeItem i w) = detectionEnabled w.
Proof. unfold takeItem. repeat case_match; reflexivity. Qed.

Lemma fire_timer_detectionEnabled w t :
  enables_detection t = false ->
  detectionEnabled (fire_timer w t) = detectionEnabled w.
Proof.
  unfold enables_detection, fire_timer.
  destruct (action t) as [| room | items]; [reflexivity | discriminate |].
  intros _. unfold hack_done. cbn.
  revert w. induction items as [| i items IH]; intros w; [reflexivity |].
  cbn [fold_left]. now rewrite IH, takeItem_detectionEnabled.
Qed.

Lemma fold_fire_detectionEnabled ts w :
  Forall (fun t => enables_detection t = false) ts ->
  detectionEnabled (fold_left fire_timer ts w) = detectionEnabled w.
Proof.
  intros H. revert w. induction H as [| t ts Ht Hts IH]; intros w;
    [reflexivity |].
  cbn [fold_left]. now rewrite IH, fire_timer_detectionEnabled.
Qed.

Lemma enterRoom_known room env w :
  environments w !! room = Some env ->
  detectionEnabled (enterRoom room w) = false
  /\ roomEntryTime (enterRoom room w) = now w
  /\ now (enterRoom room w) = now w
  /\ timers (enterRoom room w)
     = enqueue (mkTimer (now w + DETECTION_GRACE_PERIOD)
                        (EnableDetection room)) (timers w).
Proof.
  intros H. unfold enterRoom. rewrite H.
  destruct (existsb _ _); repeat split.
Qed.

Lemma update_without_check behave rolls w :
  canCheckDetection w = false ->
  p_detection (player_vitals (state (update behave rolls w)))
  = p_detection (player_vitals (state w)).
Proof.
  intros H. unfold update. rewrite H. cbv zeta.
  destruct (evaluate _ _ _ _ _) as [priorities pm].
  unfold checkWinLoseConditions, handleGameOver, handleMissionComplete.
  repeat case_match; reflexivity.
Qed.

Lemma grace_single_entry room env t w :
  Forall (fun x => enables_detection x = false) (timers w) ->
  environments w !! room = Some env ->
  t < now w + DETECTION_GRACE_PERIOD ->
  let entered := advance t (enterRoom room w) in
  detectionEnabled entered = false
  /\ canCheckDetection entered = false
  /\ forall behave rolls,
       p_detection (player_vitals (state (update behave rolls entered)))
       = p_detection (player_vitals (state entered)).
Proof.
  intros Hold Henv Ht entered.
  destruct (enterRoom_known room env w Henv) as (Hd & _ & _ & Hq).
  assert (Hen : detectionEnabled entered = false).
  { subst entered. unfold advance.
    rewrite fold_fire_detectionEnabled; [exact Hd |].
    unfold due_timers. rewrite Hq, filter_enqueue.
    - apply Forall_forall. intros x Hx.
      apply list_elem_of_filter in Hx. destruct Hx as [_ Hx].
      rewrite Forall_forall in Hold. now apply Hold.
    - unfold is_due. cbn [due]. apply leb_gt. exact Ht. }
  assert (Hcan : canCheckDetection entered = false)
    by (unfold canCheckDetection; now rewrite Hen).
  split; [exact Hen |]. split; [exact Hcan |].
  intros behave rolls. now apply update_without_check.
Qed.

(** *** Terminal states *)

(** Steps that leave the flags and the counts alone. *)
Lemma count_app p l1 l2 : count p (l1 ++ l2) = (count p l1 + count p l2)%nat.
Proof. unfold count. now rewrite filter_app, length_app. Qed.

Lemma terminal_emit e w :
  terminal_event e = false -> terminal (emit e w) = terminal w.
Proof.
  unfold terminal_event. rewrite !orb_false_iff. intros [[Hf Hs] Hh].
  unfold terminal, failures, successes, halts, emit, set_log.
  cbn [log state]. rewrite !count_app. unfold count at 2 4 6.
  rewrite !filter_cons, !filter_nil, Hf, Hs, Hh. cbn.
  now rewrite !Nat.add_0_r.
Qed.

Lemma terminal_forceSpeech text w : terminal (forceSpeech text w) = terminal w.
Proof. now apply terminal_emit. Qed.

Lemma terminal_updateUI w : terminal (updateUI w) = terminal w.
Proof. now apply terminal_emit. Qed.

Lemma terminal_console_log text w : terminal (console_log text w) = terminal w.
Proof. reflexivity. Qed.

Lemma terminal_setTimeout d a w : terminal (setTimeout d a w) = terminal w.
Proof. reflexivity. Qed.

Lemma terminal_on_state g w :
  keeps_flags g -> terminal (on_state g w) = terminal w.
Proof.
  intros Hg. destruct (Hg (state w)) as [H1 H2].
  unfold terminal, on_state. cbn. now rewrite H1, H2.
Qed.

Lemma terminal_set_equipment x w : terminal (set_equipment x w) = terminal w.
Proof. reflexivity. Qed.
Lemma terminal_set_modeManager x w : terminal (set_modeManager x w) = terminal w.
Proof. reflexivity. Qed.
Lemma terminal_set_priorityManager x w :
  terminal (set_priorityManager x w) = terminal w.
Proof. reflexivity. Qed.
Lemma terminal_set_detectionEnabled x w :
  terminal (set_detectionEnabled x w) = terminal w.
Proof. reflexivity. Qed.
Lemma terminal_set_roomEntryTime x w :
  terminal (set_roomEntryTime x w) = terminal w.
Proof. reflexivity. Qed.
Lemma terminal_set_lastDetectionCheck x w :
  terminal (set_lastDetectionCheck x w) = terminal w.
Proof. reflexivity. Qed.
Lemma terminal_set_animationId x w : terminal (set_animationId x w) = terminal w.
Proof. reflexivity. Qed.
Lemma terminal_set_now x w : terminal (set_now x w) = terminal w.
Proof. reflexivity. Qed.
Lemma terminal_set_timers x w : terminal (set_timers x w) = terminal w.
Proof. reflexivity. Qed.

(** The state updates the handlers make keep both flags. *)
Ltac keeps :=
  let s := fresh "s" in
  intros s; unfold addEquipment, removeEquipment, setFlag;
  try case_match; split; cbn; try reflexivity;
  try (apply lookup_insert_ne; discriminate).

Lemma keeps_updateVitals ch : keeps_flags (updateVitals ch).
Proof. keeps. Qed.
Lemma keeps_addEquipment i : keeps_flags (addEquipment i).
Proof. keeps. Qed.
Lemma keeps_removeEquipment i : keeps_flags (removeEquipment i).
Proof. keeps. Qed.
Lemma keeps_npc_update i f : keeps_flags (npc_update i f).
Proof. keeps. Qed.
Lemma keeps_set_currentEnvironment x : keeps_flags (set_currentEnvironment x).
Proof. keeps. Qed.
Lemma keeps_set_player_vitals x : keeps_flags (set_player_vitals x).
Proof. keeps. Qed.
Lemma keeps_set_detection_level x : keeps_flags (set_detection_level x).
Proof. keeps. Qed.
Lemma keeps_logs_acquired : keeps_flags (setFlag "logs_acquired" true).
Proof. keeps. Qed.
Lemma keeps_set_npcs (f : GameState -> list NPC) :
  keeps_flags (fun s => set_npcs (f s) s).
Proof. keeps. Qed.
Lemma keeps_set_objectives (f : GameState -> option (list Objective)) :
  keeps_flags (fun s => set_objectives (f s) s).
Proof. keeps. Qed.

Create HintDb flags.

#[local] Hint Resolve keeps_updateVitals keeps_addEquipment
  keeps_removeEquipment keeps_npc_update keeps_set_currentEnvironment
  keeps_set_player_vitals keeps_set_detection_level keeps_logs_acquired
  keeps_set_npcs keeps_set_objectives : flags.

(** Calls into the mode manager only notify of mode changes. *)
Lemma count_none p es :
  Forall (fun e => p e = false) es -> count p es = 0%nat.
Proof.
  unfold count. induction 1 as [| e es He Hes IH]; [reflexivity |].
  rewrite filter_cons, He. exact IH.
Qed.

Lemma terminal_append es w :
  Forall (fun e => terminal_event e = false) es ->
  terminal (set_log (log w ++ es) w) = terminal w.
Proof.
  intros H.
  assert (Hf : count is_failure es = 0%nat).
  { apply count_none. eapply Forall_impl; [exact H |].
    unfold terminal_event. intros e He.
    rewrite !orb_false_iff in He. tauto. }
  assert (Hs : count is_success es = 0%nat).
  { apply count_none. eapply Forall_impl; [exact H |].
    unfold terminal_event. intros e He.
    rewrite !orb_false_iff in He. tauto. }
  assert (Hh : count is_halt es = 0%nat).
  { apply count_none. eapply Forall_impl; [exact H |].
    unfold terminal_event. intros e He.
    rewrite !orb_false_iff in He. tauto. }
  unfold terminal, failures, successes, halts, set_log.
  cbn [log state]. rewrite !count_app, Hf, Hs, Hh.
  now rewrite !Nat.add_0_r.
Qed.

Lemma transitionTo_notifies target o mm :
  Forall (fun e => terminal_event e = false)
         (notifications (transitionTo target o mm).2).
Proof.
  unfold transitionTo. repeat case_match; cbn; repeat constructor.
Qed.

Lemma returnToPrevious_notifies mm :
  Forall (fun e => terminal_event e = false)
         (notifications (returnToPrevious mm).2).
Proof.
  unfold returnToPrevious.
  repeat case_match; try apply transitionTo_notifies; cbn; constructor.
Qed.

Lemma terminal_with_manager call w :
  (forall mm, Forall (fun e => terminal_event e = false)
                     (notifications (call mm).2)) ->
  terminal (with_manager call w) = terminal w.
Proof.
  intros H. unfold with_manager. specialize (H (modeManager w)).
  destruct (call (modeManager w)) as [[ok mm] rs]. cbn [snd] in H.
  rewrite <- (terminal_append (notifications rs) w H). reflexivity.
Qed.

Lemma terminal_transitionTo target o w :
  terminal (with_manager (transitionTo target o) w) = terminal w.
Proof. apply terminal_with_manager. intros. apply transitionTo_notifies. Qed.

Lemma terminal_returnToPrevious w :
  terminal (with_manager returnToPrevious w) = terminal w.
Proof. apply terminal_with_manager. intros. apply returnToPrevious_notifies. Qed.

(** The handlers that never end the game. *)
Ltac quiet :=
  repeat first
    [ rewrite terminal_emit by reflexivity
    | rewrite terminal_forceSpeech
    | rewrite terminal_updateUI
    | rewrite terminal_console_log
    | rewrite terminal_setTimeout
    | rewrite terminal_on_state by auto with flags
    | rewrite terminal_transitionTo
    | rewrite terminal_returnToPrevious
    | rewrite terminal_set_equipment
    | rewrite terminal_set_modeManager
    | rewrite terminal_set_priorityManager
    | rewrite terminal_set_detectionEnabled
    | rewrite terminal_set_roomEntryTime
    | rewrite terminal_set_lastDetectionCheck
    | rewrite terminal_set_animationId
    | rewrite terminal_set_now
    | rewrite terminal_set_timers
    | progress cbv zeta
    | case_match ];
  try reflexivity.

Lemma terminal_enterRoom room w : terminal (enterRoom room w) = terminal w.
Proof. unfold enterRoom. quiet. Qed.

Lemma terminal_moveToRoom room w : terminal (moveToRoom room w) = terminal w.
Proof. unfold moveToRoom. quiet; rewrite ?terminal_enterRoom; quiet. Qed.

Lemma terminal_sneakToRoom room w : terminal (sneakToRoom room w) = terminal w.
Proof. unfold sneakToRoom. quiet. rewrite terminal_enterRoom. quiet. Qed.

Lemma terminal_examineElement i w : terminal (examineElement i w) = terminal w.
Proof. unfold examineElement. quiet. Qed.

Lemma terminal_surveyRoom w : terminal (surveyRoom w) = terminal w.
Proof. unfold surveyRoom. quiet. Qed.

Lemma terminal_listenForSounds w : terminal (listenForSounds w) = terminal w.
Proof. unfold listenForSounds. quiet. Qed.

Lemma terminal_waitAction w : terminal (waitAction w) = terminal w.
Proof. unfold waitAction. quiet. Qed.

Lemma terminal_takeItem i w : terminal (takeItem i w) = terminal w.
Proof. unfold takeItem. quiet. Qed.

Lemma terminal_drop_item i w : terminal (drop_item i w) = terminal w.
Proof. unfold drop_item. quiet. Qed.

Lemma terminal_useItem i w : terminal (useItem i w) = terminal w.
Proof. unfold useItem. quiet; rewrite ?terminal_drop_item; quiet. Qed.

Lemma terminal_contactMack w : terminal (contactMack w) = terminal w.
Proof. unfold contactMack. quiet. Qed.

Lemma terminal_offerMackConnection w :
  terminal (offerMackConnection w) = terminal w.
Proof. unfold offerMackConnection. quiet. Qed.

Lemma terminal_hackTerminal i w : terminal (hackTerminal i w) = terminal w.
Proof. unfold hackTerminal. quiet. Qed.

Lemma terminal_fold {A} (f : World -> A -> World) (l : list A) w :
  (forall x w', terminal (f w' x) = terminal w') ->
  terminal (fold_left f l w) = terminal w.
Proof.
  intros H. revert w. induction l as [| x l IH]; intros w; [reflexivity |].
  cbn [fold_left]. now rewrite IH, H.
Qed.

Lemma terminal_hack_done items w : terminal (hack_done items w) = terminal w.
Proof.
  unfold hack_done. quiet. apply terminal_fold.
  intros. apply terminal_takeItem.
Qed.

Lemma terminal_startDialogue i w : terminal (startDialogue i w) = terminal w.
Proof. unfold startDialogue. quiet. Qed.

Lemma terminal_drop_items items w : terminal (drop_items items w) = terminal w.
Proof.
  unfold drop_items. apply terminal_fold. intros. now apply terminal_emit.
Qed.

Lemma terminal_attemptSubdue roll i w :
  terminal (attemptSubdue roll i w) = terminal w.
Proof. unfold attemptSubdue. quiet; rewrite ?terminal_drop_items; quiet. Qed.

Lemma terminal_attemptFlee w : terminal (attemptFlee w) = terminal w.
Proof. unfold attemptFlee. quiet; rewrite ?terminal_enterRoom; quiet. Qed.

Lemma terminal_attemptAttack i w : terminal (attemptAttack i w) = terminal w.
Proof. unfold attemptAttack. quiet; rewrite ?terminal_drop_items; quiet. Qed.

Lemma terminal_handleNPCEngagement n w :
  terminal (handleNPCEngagement n w) = terminal w.
Proof. unfold handleNPCEngagement. quiet; rewrite ?terminal_startDialogue; quiet. Qed.

Lemma terminal_executeAction roll d w :
  terminal (executeAction roll d w) = terminal w.
Proof.
  unfold executeAction, dispatch.
  repeat case_match;
    rewrite ?terminal_moveToRoom, ?terminal_sneakToRoom,
      ?terminal_examineElement, ?terminal_takeItem, ?terminal_useItem,
      ?terminal_hackTerminal, ?terminal_startDialogue, ?terminal_surveyRoom,
      ?terminal_listenForSounds, ?terminal_waitAction, ?terminal_contactMack,
      ?terminal_offerMackConnection, ?terminal_attemptSubdue,
      ?terminal_attemptFlee, ?terminal_attemptAttack, ?terminal_console_log;
    reflexivity.
Qed.

Lemma terminal_fire_timer w t : terminal (fire_timer w t) = terminal w.
Proof. unfold fire_timer. quiet. apply terminal_hack_done. Qed.

Lemma terminal_advance t w : terminal (advance t w) = terminal w.
Proof.
  unfold advance.
  rewrite terminal_fold by (intros; apply terminal_fire_timer). quiet.
Qed.

(** *** The terminal handlers *)

Lemma carries_refl w : carries_on w w.
Proof. unfold carries_on. tauto. Qed.

Lemma carries_trans w1 w2 w3 :
  carries_on w1 w2 -> carries_on w2 w3 -> carries_on w1 w3.
Proof. unfold carries_on. tauto. Qed.

Lemma quiet_carries w w' : terminal w' = terminal w -> carries_on w w'.
Proof.
  unfold terminal. intros H. injection H as Hg Hm Hf Hs Hh.
  unfold carries_on, settled, flag_count, hasFlag.
  rewrite Hg, Hm, Hf, Hs, Hh. tauto.
Qed.

Lemma game_over_events reason :
  let es := [ Speech "We've lost contact. Mission failed."; LoopStop;
              ErrorOverlay ("MISSION FAILED" ++ newline ++ newline ++ reason) ] in
  count is_failure es = 1%nat /\ count is_success es = 0%nat
  /\ count is_halt es = 1%nat.
Proof. repeat split. Qed.

Lemma mission_complete_events :
  let es := [ Speech "You're out. Good work. We got what we needed.";
              Advisor "mack.getStats"; LoopStop;
              ErrorOverlay "MISSION COMPLETE: The Quiet Floor" ] in
  count is_failure es = 0%nat /\ count is_success es = 1%nat
  /\ count is_halt es = 1%nat.
Proof. repeat split. Qed.

(** The first call of [handleGameOver] and every later one. *)
Lemma handleGameOver_first reason w :
  hasFlag "game_over" (state w) = false ->
  log (handleGameOver reason w)
  = log w ++ [ Speech "We've lost contact. Mission failed."; LoopStop;
               ErrorOverlay ("MISSION FAILED" ++ newline ++ newline ++ reason) ]
  /\ flags (state (handleGameOver reason w))
     = <[ "game_over" := true ]> (flags (state w)).
Proof.
  intros H. unfold handleGameOver. rewrite H.
  unfold emit, stop, forceSpeech, emit, console_log, on_state, setFlag.
  cbn. rewrite <- !app_assoc. auto.
Qed.

Lemma handleGameOver_again reason w :
  hasFlag "game_over" (state w) = true -> handleGameOver reason w = w.
Proof. intros H. unfold handleGameOver. now rewrite H. Qed.

Lemma handleGameOver_sets reason w :
  hasFlag "game_over" (state (handleGameOver reason w)) = true.
Proof.
  destruct (hasFlag "game_over" (state w)) eqn:E.
  - now rewrite handleGameOver_again.
  - destruct (handleGameOver_first reason w E) as [_ Hf].
    unfold hasFlag. now rewrite Hf, lookup_insert_eq.
Qed.

Lemma handleGameOver_carries reason w : carries_on w (handleGameOver reason w).
Proof.
  destruct (hasFlag "game_over" (state w)) eqn:E.
  - rewrite handleGameOver_again by exact E. apply carries_refl.
  - destruct (handleGameOver_first reason w E) as [Hl Hf].
    assert (Hm : hasFlag "mission_complete" (state (handleGameOver reason w))
                 = hasFlag "mission_complete" (state w)).
    { unfold hasFlag. rewrite Hf, lookup_insert_ne by discriminate.
      reflexivity. }
    split; [| split].
    + unfold settled, failures, successes, halts, flag_count.
      rewrite Hl, Hm, handleGameOver_sets, E, !count_app.
      destruct (game_over_events reason) as (-> & -> & ->). lia.
    + intros _. apply handleGameOver_sets.
    + now rewrite Hm.
Qed.

(** The first call of [handleMissionComplete] and every later one. *)
Lemma handleMissionComplete_first w :
  hasFlag "mission_complete" (state w) = false ->
  log (handleMissionComplete w)
  = log w ++ [ Speech "You're out. Good work. We got what we needed.";
               Advisor "mack.getStats"; LoopStop;
               ErrorOverlay "MISSION COMPLETE: The Quiet Floor" ]
  /\ flags (state (handleMissionComplete w))
     = <[ "mission_complete" := true ]> (flags (state w)).
Proof.
  intros H. unfold handleMissionComplete. rewrite H.
  unfold emit, stop, forceSpeech, emit, console_log, on_state, setFlag.
  cbn. rewrite <- !app_assoc. auto.
Qed.

Lemma handleMissionComplete_again w :
  hasFlag "mission_complete" (state w) = true -> handleMissionComplete w = w.
Proof. intros H. unfold handleMissionComplete. now rewrite H. Qed.

Lemma handleMissionComplete_sets w :
  hasFlag "mission_complete" (state (handleMissionComplete w)) = true.
Proof.
  destruct (hasFlag "mission_complete" (state w)) eqn:E.
  - now rewrite handleMissionComplete_again.
  - destruct (handleMissionComplete_first w E) as [_ Hf].
    unfold hasFlag. now rewrite Hf, lookup_insert_eq.
Qed.

Lemma handleMissionComplete_carries w :
  carries_on w (handleMissionComplete w).
Proof.
  destruct (hasFlag "mission_complete" (state w)) eqn:E.
  - rewrite handleMissionComplete_again by exact E. apply carries_refl.
  - destruct (handleMissionComplete_first w E) as [Hl Hf].
    assert (Hg : hasFlag "game_over" (state (handleMissionComplete w))
                 = hasFlag "game_over" (state w)).
    { unfold hasFlag. rewrite Hf, lookup_insert_ne by discriminate.
      reflexivity. }
    split; [| split].
    + unfold settled, failures, successes, halts, flag_count.
      rewrite Hl, Hg, handleMissionComplete_sets, E, !count_app.
      destruct mission_complete_events as (-> & -> & ->). lia.
    + now rewrite Hg.
    + intros _. apply handleMissionComplete_sets.
Qed.

(** The functions that may call the handlers. *)
Ltac carry_quiet := apply quiet_carries; quiet.

Lemma checkWinLoseConditions_carries w :
  carries_on w (checkWinLoseConditions w).
Proof.
  unfold checkWinLoseConditions.
  repeat case_match;
    try apply carries_refl; try apply handleGameOver_carries.
  eapply carries_trans; [| apply handleMissionComplete_carries].
  carry_quiet.
Qed.

Lemma handleDialogueFailed_carries npc w :
  carries_on w (handleDialogueFailed npc w).
Proof.
  unfold handleDialogueFailed. cbv zeta.
  eapply carries_trans; [| apply quiet_carries, terminal_updateUI].
  case_match.
  - eapply carries_trans; [| apply handleGameOver_carries]. carry_quiet.
  - carry_quiet.
Qed.

Lemma detect_one_carries rolls env n w :
  carries_on w (detect_one rolls env n w).1.
Proof.
  unfold detect_one. cbv zeta.
  repeat case_match; cbn [fst];
    try apply carries_refl;
    try (eapply carries_trans; [| apply handleGameOver_carries]);
    apply quiet_carries; rewrite ?terminal_handleNPCEngagement; quiet.
Qed.

Lemma detect_loop_carries rolls env ids w :
  carries_on w (detect_loop rolls env ids w).
Proof.
  revert w. induction ids as [| i ids IH]; intros w; cbn [detect_loop].
  - apply carries_refl.
  - destruct (npc_get i (state w)) as [n |]; [| apply IH].
    pose proof (detect_one_carries rolls env n w) as H1.
    destruct (detect_one rolls env n w) as [w' returned]. cbn [fst] in H1.
    destruct returned; [exact H1 |].
    eapply carries_trans; [exact H1 | apply IH].
Qed.

Lemma checkNPCDetection_carries rolls w :
  carries_on w (checkNPCDetection rolls w).
Proof.
  unfold checkNPCDetection.
  destruct (current_env w); [apply detect_loop_carries | apply carries_refl].
Qed.

Lemma update_carries behave rolls w : carries_on w (update behave rolls w).
Proof.
  unfold update. cbv zeta.
  set (w1 := if canCheckDetection w then _ else w).
  assert (H1 : carries_on w w1).
  { subst w1. destruct (canCheckDetection w); [| apply carries_refl].
    eapply carries_trans; [| apply checkNPCDetection_carries].
    carry_quiet. }
  set (w2 := on_state _ w1).
  assert (H2 : carries_on w1 w2) by (subst w2; carry_quiet).
  pose proof (checkWinLoseConditions_carries w2) as H3.
  destruct (evaluate _ _ _ _ _) as [priorities pm].
  eapply carries_trans; [exact H1 |].
  eapply carries_trans; [exact H2 |].
  eapply carries_trans; [exact H3 |].
  carry_quiet.
Qed.

Lemma handle_input_carries i w : carries_on w (handle_input i w).
Proof.
  destruct i; cbn [handle_input].
  - unfold frame. eapply carries_trans; [apply update_carries |]. carry_quiet.
  - apply quiet_carries, terminal_executeAction.
  - apply quiet_carries, terminal_enterRoom.
  - apply quiet_carries, terminal_returnToPrevious.
  - apply handleDialogueFailed_carries.
Qed.

Lemma perform_carries w c : carries_on w (perform w c).
Proof.
  destruct c; cbn [perform].
  - unfold step. cbn [fst snd].
    eapply carries_trans; [| apply handle_input_carries].
    apply quiet_carries, terminal_advance.
  - apply handleGameOver_carries.
  - apply handleMissionComplete_carries.
  - apply checkWinLoseConditions_carries.
Qed.

Lemma perform_all_carries cs w : carries_on w (perform_all w cs).
Proof.
  revert w. induction cs as [| c cs IH]; intros w; [apply carries_refl |].
  unfold perform_all in *. cbn [fold_left].
  eapply carries_trans; [apply perform_carries | apply IH].
Qed.

Lemma perform_all_app w cs1 cs2 :
  perform_all w (cs1 ++ cs2) = perform_all (perform_all w cs1) cs2.
Proof. unfold perform_all. apply fold_left_app. Qed.

Lemma settled_bounds w :
  settled w -> (failures w <= 1)%nat /\ (successes w <= 1)%nat.
Proof.
  unfold settled, flag_count. intros (-> & -> & _).
  split; case_match; lia.
Qed.

Lemma settled_initial envs items : settled (initial_world envs items).
Proof. repeat split. Qed.

Lemma checkWinLoseConditions_dead w :
  hasFlag "game_over" (state w) = false ->
  hasFlag "mission_complete" (state w) = false ->
  p_health (player_vitals (state w)) <= 0 ->
  checkWinLoseConditions w = handleGameOver "You were killed." w
  /\ checkWinLoseConditions (checkWinLoseConditions w)
     = checkWinLoseConditions w.
Proof.
  intros Hg Hm Hh.
  assert (E : checkWinLoseConditions w = handleGameOver "You were killed." w).
  { unfold checkWinLoseConditions. rewrite Hg, Hm. cbn [orb].
    apply leb_le in Hh. now rewrite Hh. }
  split; [exact E |].
  rewrite E. unfold checkWinLoseConditions at 1.
  now rewrite handleGameOver_sets.
Qed.

(** The handlers run once.  Start from a world whose log agrees with
its flags (a fresh world does) and let anything happen in any order: frames, player
actions, room changes, timers, and direct calls of [handleGameOver],
[handleMissionComplete] and [checkWinLoseConditions].  Then the log
still agrees with the flags: at most one failure overlay and at most
one victory overlay were shown, and [stop] was called once for
each.  If [handleGameOver] was called at all, the flag is set and
exactly one failure was shown; likewise for [handleMissionComplete].
A second call of either handler changes nothing, and the win/lose
check of a dead player is the game-over handler, once. *)
Theorem terminal_handlers_run_once (w : World) (cs : list call) :
  settled w ->
  let w' := perform_all w cs in
  settled w'
  /\ (failures w' <= 1)%nat /\ (successes w' <= 1)%nat
  /\ halts w' = (failures w' + successes w')%nat
  /\ ((exists reason, In (HandleGameOver reason) cs) ->
      hasFlag "game_over" (state w') = true /\ failures w' = 1%nat)
  /\ (In HandleMissionComplete cs ->
      hasFlag "mission_complete" (state w') = true /\ successes w' = 1%nat)
  /\ (forall r1 r2,
        handleGameOver r2 (handleGameOver r1 w) = handleGameOver r1 w)
  /\ handleMissionComplete (handleMissionComplete w) = handleMissionComplete w
  /\ (hasFlag "game_over" (state w) = false ->
      hasFlag "mission_complete" (state w) = false ->
      p_health (player_vitals (state w)) <= 0 ->
      checkWinLoseConditions w = handleGameOver "You were killed." w
      /\ checkWinLoseConditions (checkWinLoseConditions w)
         = checkWinLoseConditions w).
Proof.
  intros Hw w'.
  destruct (perform_all_carries cs w) as (Hs & _ & _).
  specialize (Hs Hw). fold w' in Hs.
  destruct (settled_bounds w' Hs) as [Hf Hc].
  split; [exact Hs |]. split; [exact Hf |]. split; [exact Hc |].
  split; [apply Hs |].
  split; [| split; [| split; [| split]]].
  - intros [reason Hin]. apply in_split in Hin.
    destruct Hin as (cs1 & cs2 & ->).
    assert (Hflag : hasFlag "game_over" (state w') = true).
    { subst w'. rewrite perform_all_app.
      change (HandleGameOver reason :: cs2)
        with ([HandleGameOver reason] ++ cs2).
      rewrite perform_all_app.
      apply (perform_all_carries cs2). apply handleGameOver_sets. }
    split; [exact Hflag |].
    destruct Hs as (-> & _). unfold flag_count. now rewrite Hflag.
  - intros Hin. apply in_split in Hin.
    destruct Hin as (cs1 & cs2 & ->).
    assert (Hflag : hasFlag "mission_complete" (state w') = true).
    { subst w'. rewrite perform_all_app.
      change (HandleMissionComplete :: cs2)
        with ([HandleMissionComplete] ++ cs2).
      rewrite perform_all_app.
      apply (perform_all_carries cs2). apply handleMissionComplete_sets. }
    split; [exact Hflag |].
    destruct Hs as (_ & -> & _). unfold flag_count. now rewrite Hflag.
  - intros r1 r2. apply handleGameOver_again, handleGameOver_sets.
  - apply handleMissionComplete_again, handleMissionComplete_sets.
  - apply checkWinLoseConditions_dead.
Qed.

Lemma terminal_handlers_run_once_witness :
  failures
    (perform_all (initial_world facility ∅)
       [ HandleGameOver "You were killed."; CheckWinLose;
         HandleGameOver "You were caught by security.";
         Host 100 (Frame stay always_seen 1%nat);
         HandleGameOver "You were killed." ]) = 1%nat.
Proof.
  apply (terminal_handlers_run_once (initial_world facility ∅)
           [ HandleGameOver "You were killed."; CheckWinLose;
             HandleGameOver "You were caught by security.";
             Host 100 (Frame stay always_seen 1%nat);
             HandleGameOver "You were killed." ]).
  - repeat split.
  - exists "You were killed.". simpl. tauto.
Defined.

(** C8, at an input where the code departs from it.  The player is at
health zero while the loop runs.  The frame's win/lose check reaches
the game-over handler: the flag is set, one failure is shown and
[stop] is called once, which clears the handle.  But the frame goes on
to ask for the next frame, as every frame does, so the loop is armed
again and the next frame runs [update] once more.  Called outside a
frame, the same handler leaves the loop without a handle. *)
Theorem game_over_in_frame_rearms_loop :
  let w1 := frame stay always_seen 2 dying in
  let w2 := frame stay always_seen 3 w1 in
  (hasFlag "game_over" (state dying) = false
   /\ animationId dying = Some 1%nat
   /\ hasFlag "game_over" (state w1) = true
   /\ failures w1 = 1%nat /\ halts w1 = 1%nat
   /\ animationId w1 = Some 2%nat
   /\ animationId (handleGameOver "You were killed." dying) = None
   /\ animationId w2 = Some 3%nat
   /\ log w2 = log w1 ++ [ Emit "priorities:updated" "condition-overlay" ])
  /\ (forall behave rolls handle w,
        animationId (frame behave rolls handle w) = Some handle).
Proof.
  cbv zeta. split.
  - vm_compute. repeat split.
  - intros behave rolls handle w. reflexivity.
Qed.

End GameFacts.

(** ** More on vitals *)

Module VitalsMore.
Import Js JsFacts Vitals Status.

Lemma elem_of_add_if x b c s :
  x ∈ add_if b c s <-> (b = true /\ x = c) \/ x ∈ s.
Proof.
  unfold add_if. destruct b.
  - rewrite elem_of_union, elem_of_singleton. tauto.
  - split; [tauto | intros [[H _] | H]; [discriminate H | exact H]].
Qed.

Lemma elem_of_autoConditions x :
  x ∈ autoConditions <->
  x = "high-stress" \/ x = "injured" \/ x = "exhausted" \/ x = "panicked".
Proof.
  unfold autoConditions. rewrite !elem_of_union, !elem_of_singleton. tauto.
Qed.

Lemma elem_of_derived x v :
  x ∈ derived_conditions v <->
  (stamina v < 20 /\ x = "exhausted")
  \/ (health v < 30 /\ x = "injured")
  \/ (90 < stress v /\ x = "panicked")
  \/ (70 < stress v /\ x = "high-stress")
  \/ (x ∈ conditions v /\ x ∉ autoConditions).
Proof.
  unfold derived_conditions.
  rewrite !elem_of_add_if, elem_of_difference.
  unfold HEALTH_WOUNDED, STRESS_CRITICAL, STRESS_HIGH.
  rewrite !ltb_lt, !gtb_gt. tauto.
Qed.

(** X1. After [updateConditions] each automatic tag is present exactly
when its threshold is crossed (high-stress: stress above 70; panicked:
stress above 90; injured: health below 30; exhausted: stamina below
20), so panicked never comes without high-stress; every other tag is
kept as it was, and a second call changes nothing. *)
Theorem updateConditions_derives (v : VitalsSystem) (c : string) :
  let v' := updateConditions v in
  ("high-stress" ∈ conditions v' <-> 70 < stress v)
  /\ ("panicked" ∈ conditions v' <-> 90 < stress v)
  /\ ("injured" ∈ conditions v' <-> health v < 30)
  /\ ("exhausted" ∈ conditions v' <-> stamina v < 20)
  /\ ("panicked" ∈ conditions v' -> "high-stress" ∈ conditions v')
  /\ (c ∉ autoConditions -> (c ∈ conditions v' <-> c ∈ conditions v))
  /\ updateConditions v' = v'.
Proof.
  cbv zeta.
  assert (H1 : "high-stress" ∈ conditions (updateConditions v)
               <-> 70 < stress v).
  { cbn. rewrite elem_of_derived, elem_of_autoConditions.
    split; [| tauto]. intros H. repeat destruct H as [H | H];
      destruct H as [H H']; try discriminate H'; [exact H |].
    exfalso. apply H'. tauto. }
  assert (H2 : "panicked" ∈ conditions (updateConditions v)
               <-> 90 < stress v).
  { cbn. rewrite elem_of_derived, elem_of_autoConditions.
    split; [| tauto]. intros H. repeat destruct H as [H | H];
      destruct H as [H H']; try discriminate H'; [exact H |].
    exfalso. apply H'. tauto. }
  split; [exact H1 |]. split; [exact H2 |].
  split.
  { cbn. rewrite elem_of_derived, elem_of_autoConditions.
    split; [| tauto]. intros H. repeat destruct H as [H | H];
      destruct H as [H H']; try discriminate H'; [exact H |].
    exfalso. apply H'. tauto. }
  split.
  { cbn. rewrite elem_of_derived, elem_of_autoConditions.
    split; [| tauto]. intros H. repeat destruct H as [H | H];
      destruct H as [H H']; try discriminate H'; [exact H |].
    exfalso. apply H'. tauto. }
  split; [rewrite H1, H2; lra |].
  split.
  { intros Hc. cbn. rewrite elem_of_derived.
    pose proof (elem_of_autoConditions c) as Ha. tauto. }
  unfold updateConditions at 1.
  assert (E : derived_conditions (updateConditions v)
              = conditions (updateConditions v)).
  { apply set_eq. intros x.
    rewrite (elem_of_derived x (updateConditions v)).
    cbn [updateConditions set_conditions conditions health stamina stress].
    pose proof (elem_of_derived x v) as Hx.
    rewrite elem_of_autoConditions in *.
    split; [tauto |]. intros H. rewrite Hx in H. tauto. }
  rewrite E. destruct v; reflexivity.
Qed.

(** Case analysis on every comparison in the goal, leaving the order
facts in the context. *)
Ltac compare_cases :=
  repeat match goal with
  | |- context [ltb ?a ?b] =>
      let E := fresh "E" in
      destruct (ltb a b) eqn:E; [apply ltb_lt in E | apply ltb_ge in E]
  | |- context [gtb ?a ?b] =>
      let E := fresh "E" in
      destruct (gtb a b) eqn:E; [apply gtb_gt in E | apply gtb_le in E]
  | |- context [geb ?a ?b] =>
      let E := fresh "E" in
      destruct (geb a b) eqn:E; [apply geb_ge in E | apply geb_lt in E]
  | |- context [leb ?a ?b] =>
      let E := fresh "E" in
      destruct (leb a b) eqn:E; [apply leb_le in E | apply leb_gt in E]
  end.

Lemma tick_fields v :
  health (tick v)
  = (if has (conditions v) "injured"
     then Math_max 0 (Math_min (maxHealth v) (health v + - injured_bleedRate))
     else health v)
  /\ stress (tick v)
     = (if ltb (detection v) DETECTION_SUSPICIOUS
        then Math_max 0 (Math_min 100 (stress v + -1)) else stress v)
  /\ stamina (tick v)
     = Math_max 0 (Math_min (maxStamina v) (stamina v + (1#2)))
  /\ detection (tick v) = detection v
  /\ maxHealth (tick v) = maxHealth v
  /\ maxStamina (tick v) = maxStamina v
  /\ effects (tick v) = tick_effects (effects v).
Proof.
  unfold tick. cbv zeta.
  destruct (has (conditions v) "injured");
    cbn [modifyVital fst updateConditions modify_switch set_effects
         set_conditions set_health set_stress set_stamina String.eqb
         Ascii.eqb Bool.eqb health maxHealth stamina maxStamina stress
         detection conditions effects];
    destruct (ltb (detection v) DETECTION_SUSPICIOUS); repeat split.
Qed.

Lemma tick_effects_positive e : Forall (fun p => 0 < snd p) (tick_effects e).
Proof.
  unfold tick_effects. apply Forall_forall. intros p Hp.
  apply list_elem_of_filter in Hp. destruct Hp as [Hp _].
  destruct (leb (snd p) 0) eqn:E; [destruct Hp |].
  now apply leb_gt in E.
Qed.

(** X2. One [tick] keeps vitals that are within their bounds within
their bounds; it never raises health or stress, never lowers stamina,
leaves detection alone, and every timed effect it keeps has ticks
remaining. *)
Theorem tick_stays_in_range (v : VitalsSystem) :
  in_range v ->
  in_range (tick v)
  /\ health (tick v) <= health v
  /\ stress (tick v) <= stress v
  /\ stamina v <= stamina (tick v)
  /\ detection (tick v) = detection v
  /\ Forall (fun p => 0 < snd p) (effects (tick v)).
Proof.
  unfold in_range. intros ((Hh0 & Hh1) & (Hs0 & Hs1) & (Ht0 & Ht1) & Hd).
  destruct (tick_fields v) as (Eh & Et & Es & Ed & Emh & Ems & Ee).
  rewrite Eh, Et, Es, Ed, Emh, Ems, Ee. clear Eh Et Es Ed Emh Ems Ee.
  unfold injured_bleedRate.
  assert (Hh : 0 <= (if has (conditions v) "injured"
                     then Math_max 0 (Math_min (maxHealth v) (health v + - (2)))
                     else health v) <= health v
               /\ (if has (conditions v) "injured"
                   then Math_max 0 (Math_min (maxHealth v) (health v + - (2)))
                   else health v) <= maxHealth v).
  { destruct (has _ _); [| lra].
    destruct (Math_min_spec (maxHealth v) (health v + - (2)))
      as [[? ->] | [? ->]];
      [destruct (Math_max_spec 0 (maxHealth v)) as [[? ->] | [? ->]]
      |destruct (Math_max_spec 0 (health v + - (2))) as [[? ->] | [? ->]]];
      lra. }
  assert (Ht : 0 <= (if ltb (detection v) DETECTION_SUSPICIOUS
                     then Math_max 0 (Math_min 100 (stress v + -1))
                     else stress v) <= stress v).
  { destruct (ltb _ _); [| lra].
    destruct (Math_min_spec 100 (stress v + -1)) as [[? ->] | [? ->]];
      [destruct (Math_max_spec 0 100) as [[? ->] | [? ->]]
      |destruct (Math_max_spec 0 (stress v + -1)) as [[? ->] | [? ->]]];
      lra. }
  assert (Hs : stamina v
               <= Math_max 0 (Math_min (maxStamina v) (stamina v + (1#2)))
               <= maxStamina v).
  { destruct (Math_min_spec (maxStamina v) (stamina v + (1#2)))
      as [[? ->] | [? ->]];
      [destruct (Math_max_spec 0 (maxStamina v)) as [[? ->] | [? ->]]
      |destruct (Math_max_spec 0 (stamina v + (1#2))) as [[? ->] | [? ->]]];
      lra. }
  repeat split; try tauto; try lra.
  apply tick_effects_positive.
Qed.

Lemma tick_stays_in_range_witness :
  in_range (tick default_vitals).
Proof.
  apply (tick_stays_in_range default_vitals).
  vm_compute. repeat split; discriminate.
Defined.

(** X3. [addSuspicion] caps suspicion at 100 and never lowers
awareness, whatever the amount: awareness either stays or moves along
unaware, suspicious, alert (possibly two steps in one call) or to
hostile.  An NPC is hostile afterwards exactly when it was hostile
before or suspicion has reached 100.  The vitals proper are not
touched. *)
Theorem addSuspicion_escalates (amount : Q) (n : NPCVitals) :
  let n' := addSuspicion amount n in
  suspicion n' <= 100
  /\ (awareness n' = awareness n \/ escalation (awareness n) (awareness n'))
  /\ (awareness n' = Hostile <-> awareness n = Hostile \/ 100 <= suspicion n')
  /\ (awareness n = Unaware -> 70 < suspicion n' -> suspicion n' < 100 ->
      awareness n' = Alert)
  /\ base n' = base n.
Proof.
  cbv zeta. unfold addSuspicion.
  cbn [suspicion awareness base].
  set (s := Math_min 100 (suspicion n + amount)).
  assert (Hs : s <= 100).
  { subst s. destruct (Math_min_spec 100 (suspicion n + amount))
      as [[? ->] | [? ->]]; lra. }
  split; [exact Hs |].
  destruct (awareness n); cbn;
    compare_cases; cbn; repeat split;
    try (left; reflexivity); try (right; constructor);
    try tauto; try discriminate; try lra;
    try (intros [H | H]; [discriminate H | lra]);
    try (intros; lra).
Qed.

(** X4. Saving and restoring vitals gives back the same vitals, and
restoring from data that lacks every field gives the defaults (100 for
health, stamina and their maxima, 0 for stress and detection, no
conditions, no effects). *)
Theorem deserialize_serialize (v : VitalsSystem) :
  deserialize (serialize v) = v
  /\ deserialize (mkData None None None None None None None None)
     = default_vitals.
Proof.
  split; [| reflexivity].
  unfold deserialize, serialize. cbn.
  rewrite list_to_set_elements_L. destruct v; reflexivity.
Qed.

(** X5. The status tiers are ordered as the vitals are: more health
never gives a worse health tier, more stress or detection never a
better one.  The health tier is [dead] exactly below 10, so an NPC
with health between 0 and 10 that is not unconscious is called dead
and can still act. *)
Theorem status_tiers_ordered (v1 v2 : VitalsSystem) (n : NPCVitals) :
  (health v1 <= health v2 ->
   (index_of (getHealthStatus v2) health_tiers
    <= index_of (getHealthStatus v1) health_tiers)%nat)
  /\ (stress v1 <= stress v2 ->
      (index_of (getStressStatus v1) stress_tiers
       <= index_of (getStressStatus v2) stress_tiers)%nat)
  /\ (detection v1 <= detection v2 ->
      (index_of (getDetectionStatus v1) detection_tiers
       <= index_of (getDetectionStatus v2) detection_tiers)%nat)
  /\ (getHealthStatus v1 = "dead" <-> health v1 < 10)
  /\ (0 < health (base n) -> health (base n) < 10 ->
      "unconscious" ∉ conditions (base n) ->
      getHealthStatus (base n) = "dead" /\ canAct n = true).
Proof.
  unfold getHealthStatus, getStressStatus, getDetectionStatus,
    HEALTH_HEALTHY, HEALTH_HURT, HEALTH_WOUNDED, HEALTH_CRITICAL,
    STRESS_LOW, STRESS_MEDIUM, STRESS_HIGH, STRESS_CRITICAL,
    DETECTION_SAFE, DETECTION_NOTICED, DETECTION_SUSPICIOUS,
    DETECTION_SPOTTED.
  split; [| split; [| split; [| split]]].
  - intros H. compare_cases; cbn; try lia; lra.
  - intros H. compare_cases; cbn; try lia; lra.
  - intros H. compare_cases; cbn; try lia; lra.
  - compare_cases; split; intros H; try discriminate H; try lra;
      reflexivity.
  - intros Hpos Hlow Hc. split.
    + compare_cases; try lra. reflexivity.
    + unfold canAct, has.
      rewrite (proj2 (gtb_gt _ _) Hpos).
      now rewrite bool_decide_eq_false_2.
Qed.

Lemma status_tiers_ordered_witness :
  getHealthStatus (mkVitals 5 100 100 100 0 0 ∅ []) = "dead"
  /\ canAct (mkNPCVitals (mkVitals 5 100 100 100 0 0 ∅ []) Unaware 0 0) = true.
Proof.
  apply (status_tiers_ordered default_vitals default_vitals
           (mkNPCVitals (mkVitals 5 100 100 100 0 0 ∅ []) Unaware 0 0)).
  - vm_compute. reflexivity.
  - vm_compute. reflexivity.
  - vm_compute. intros H. discriminate H.
Defined.

End VitalsMore.

(** ** More on NPCs *)

Module NpcMore.
Import Js JsFacts Vitals Npc Priority NpcFacts.

Lemma ticks_cannot_act (behaves : list (NPC -> Motion)) (n : NPC) :
  canAct (vitals n) = false ->
  fold_left (fun m b => tick b m) behaves n = n.
Proof.
  intros Hc. induction behaves as [| b bs IH]; [reflexivity |].
  cbn [fold_left]. now rewrite (tick_cannot_act b n Hc).
Qed.

(** X6. A subdued NPC is unconscious, disengaged and unaware, cannot
act, and no number of ticks changes it; it keeps its suspicion.
[subdue] returns the inventory but does not empty it, so the NPC
still carries the items it dropped. *)
Theorem subdue_incapacitates (behaves : list (NPC -> Motion)) (n : NPC) :
  let n' := (subdue n).1 in
  unconscious n' = true
  /\ canAct (vitals n') = false
  /\ engaged n' = false
  /\ Npc.awareness n' = Unaware
  /\ suspicion (vitals n') = suspicion (vitals n)
  /\ (subdue n).2 = inventory n
  /\ inventory n' = inventory n
  /\ fold_left (fun m b => tick b m) behaves n' = n'.
Proof.
  cbv zeta.
  assert (Hu : unconscious (subdue n).1 = true).
  { unfold unconscious, subdue, has. cbn.
    apply bool_decide_eq_true_2.
    apply elem_of_union. left. now apply elem_of_singleton. }
  assert (Hc : canAct (vitals (subdue n).1) = false).
  { unfold unconscious in Hu. unfold canAct. rewrite Hu.
    now rewrite andb_false_r. }
  repeat split; try assumption.
  now apply ticks_cannot_act.
Qed.

(** X7. [takeDamage] keeps the NPC's health between 0 and its maximum
and leaves its awareness alone.  Damage of at least the current health
leaves health at 0 and the NPC unconscious, disengaged and unable to
act, after which ticks no longer change it; an NPC left with health
above 0 stays engaged if it was. *)
Theorem takeDamage_bounds (amount : Q) (behaves : list (NPC -> Motion))
  (n : NPC) :
  0 <= maxHealth (base (vitals n)) ->
  let n' := takeDamage amount n in
  (0 <= health (base (vitals n')) <= maxHealth (base (vitals n)))
  /\ Npc.awareness n' = Npc.awareness n
  /\ (health (base (vitals n)) <= amount ->
      health (base (vitals n')) == 0
      /\ unconscious n' = true /\ engaged n' = false
      /\ canAct (vitals n') = false
      /\ fold_left (fun m b => tick b m) behaves n' = n')
  /\ (0 < health (base (vitals n')) -> engaged n' = engaged n).
Proof.
  intros Hmax. cbv zeta. unfold takeDamage. cbv zeta.
  set (h := Math_max 0 (Math_min (maxHealth (base (vitals n)))
                                 (health (base (vitals n)) + - amount))).
  assert (Eh : health (modifyVital "health" (- amount) (base (vitals n))).1
               = h) by reflexivity.
  rewrite Eh.
  pose proof (clamp_range 0 (maxHealth (base (vitals n)))
                (health (base (vitals n)) + - amount) Hmax) as Hr.
  fold h in Hr.
  destruct (leb h 0) eqn:El.
  - apply leb_le in El.
    assert (Hu : unconscious
                   (set_engaged false
                      (set_vitals
                         (mkNPCVitals
                            (set_conditions
                               ({["unconscious"]}
                                ∪ conditions
                                    (modifyVital "health" (- amount)
                                       (base (vitals n))).1)
                               (modifyVital "health" (- amount)
                                  (base (vitals n))).1)
                            (Vitals.awareness (vitals n))
                            (suspicion (vitals n))
                            (alertCooldown (vitals n))) n)) = true).
    { unfold unconscious, has. cbn.
      apply bool_decide_eq_true_2.
    apply elem_of_union. left. now apply elem_of_singleton. }
    split; [exact Hr |]. split; [reflexivity |].
    split.
    + intros _.
      assert (Hc : canAct
                     (vitals
                        (set_engaged false
                           (set_vitals
                              (mkNPCVitals
                                 (set_conditions
                                    ({["unconscious"]}
                                     ∪ conditions
                                         (modifyVital "health" (- amount)
                                            (base (vitals n))).1)
                                    (modifyVital "health" (- amount)
                                       (base (vitals n))).1)
                                 (Vitals.awareness (vitals n))
                                 (suspicion (vitals n))
                                 (alertCooldown (vitals n))) n))) = false).
      { unfold unconscious in Hu. unfold canAct. rewrite Hu.
        now rewrite andb_false_r. }
      split; [cbn; fold h; lra |].
      split; [exact Hu |]. split; [reflexivity |].
      split; [exact Hc |]. now apply ticks_cannot_act.
    + cbn. fold h. intros Hpos. lra.
  - apply leb_gt in El.
    split; [exact Hr |]. split; [reflexivity |].
    split.
    + intros Hle. exfalso.
      assert (h == 0); [| lra].
      subst h. apply clamp_low; [lra | exact Hmax].
    + reflexivity.
Qed.

Lemma takeDamage_bounds_witness :
  unconscious (takeDamage 100 (Examples.guard Hostile 100)) = true
  /\ engaged (takeDamage 100 (Examples.guard Hostile 100)) = false.
Proof.
  destruct (takeDamage_bounds 100 [] (Examples.guard Hostile 100))
    as (_ & _ & H & _).
  - vm_compute. discriminate.
  - destruct H as (_ & Hu & He & _).
    + vm_compute. discriminate.
    + split; [exact Hu | exact He].
Defined.

End NpcMore.

(** ** More on mode transitions *)

Module ModesMore.
Import Js JsFacts Runtime Modes ModeOps ModesFacts.

(** Every call has one of the two outcomes. *)
Lemma transitionTo_shape target o mm :
  rejected mm (transitionTo target o mm)
  \/ accepted mm (transitionTo target o mm).
Proof.
  unfold transitionTo.
  destruct (transitionLocked mm) eqn:El; [left; repeat split |].
  destruct (truthy (MODES_get target)) eqn:Et; cbn [negb];
    [| left; repeat split; now rewrite El].
  destruct (String.eqb _ _); [left; repeat split; now rewrite El |].
  right. repeat split; cbn; eauto.
Qed.

Lemma apply_op_shape o mm :
  rejected mm (apply_op o mm) \/ accepted mm (apply_op o mm).
Proof.
  destruct o as [target opts | | |]; cbn [apply_op].
  - apply transitionTo_shape.
  - unfold returnToPrevious.
    destruct (previousMode mm) as [p |]; [| left; repeat split].
    destruct (String.eqb p EmptyString); [left; repeat split |].
    apply transitionTo_shape.
  - unfold popMode.
    destruct (rev (modeStack mm)) as [| top rest]; [left; repeat split |].
    apply (transitionTo_shape top no_options
             (mkManager (currentMode mm) (previousMode mm) (rev rest)
                        (transitionLocked mm))).
  - apply (transitionTo_shape "exploration" no_options
             (mkManager (currentMode mm) None [] (transitionLocked mm))).
Qed.

Lemma advance_currentMode now h :
  currentMode (manager (advance now h)) = currentMode (manager h).
Proof.
  unfold advance. cbn [manager].
  generalize (manager h).
  induction (due_timers now (pending h)) as [| t ts IH]; intros mm;
    [reflexivity |].
  cbn [fold_left]. rewrite IH. unfold fire. now destruct (action t).
Qed.

Lemma call_keeps h c :
  lock_consistent h ->
  truthy (MODES_get (currentMode (manager h))) = true ->
  lock_consistent (call h c)
  /\ truthy (MODES_get (currentMode (manager (call h c)))) = true.
Proof.
  intros Hc Ht. unfold call.
  apply (advance_consistent (fst c)) in Hc.
  rewrite <- (advance_currentMode (fst c) h) in Ht.
  generalize dependent (advance (fst c) h). intros ha Hc Ht.
  destruct (apply_op_shape (snd c) (manager ha)) as [Hr | Ha].
  - destruct (apply_op (snd c) (manager ha)) as [[ok mm] rs].
    destruct Hr as (_ & Hrs & Hl & Hm). cbn in Hrs, Hl, Hm. subst rs.
    cbn. rewrite app_nil_r, Hm. split; [| exact Ht].
    destruct Hc as [[Hu Hp] | [Hk Hp]]; [left | right];
      cbn; rewrite Hl; auto.
  - destruct (apply_op (snd c) (manager ha)) as [[ok mm] rs].
    destruct Ha as (_ & Hu & Hl & Hm & d & Hrs). cbn in Hu, Hl, Hm, Hrs.
    subst rs. split; [| exact Hm].
    destruct Hc as [[_ Hp] | [Hk _]]; [| congruence].
    right. cbn. rewrite Hp. cbn. eauto.
Qed.

(** X8. However the manager is driven (transitions, returns, pops,
resets, at any times), its lock and its timer agree: it is locked
exactly while one unlock timer is pending, and that timer releases it
when due.  The current mode is always a name [MODES] has a member
for. *)
Theorem manager_lock_invariant (cs : list (Q * op)) :
  let h := calls initial_host cs in
  lock_consistent h
  /\ truthy (getCurrentMode (manager h)) = true
  /\ (transitionLocked (manager h) = false -> pending h = [])
  /\ (transitionLocked (manager h) = true ->
      exists d, pending h = [mkTimer d UnlockTransitions]
                /\ transitionLocked (manager (advance d h)) = false
                /\ pending (advance d h) = []).
Proof.
  cbv zeta.
  assert (H : lock_consistent (calls initial_host cs)
              /\ truthy (MODES_get
                           (currentMode (manager (calls initial_host cs))))
                 = true).
  { unfold calls. generalize initial_host_consistent.
    assert (Ht : truthy (MODES_get (currentMode (manager initial_host)))
                 = true) by reflexivity.
    revert Ht. generalize initial_host.
    induction cs as [| c cs IH]; intros h Ht Hc; [auto |].
    cbn [fold_left]. destruct (call_keeps h c Hc Ht) as [Hc' Ht'].
    now apply IH. }
  destruct H as [Hc Ht].
  split; [exact Hc |]. split; [exact Ht |].
  split.
  - intros Hu. destruct Hc as [[_ Hp] | [Hl _]]; [exact Hp | congruence].
  - intros Hl. destruct Hc as [[Hu _] | [_ [d Hp]]]; [congruence |].
    exists d. split; [exact Hp |].
    unfold advance, due_timers, later_timers. rewrite Hp.
    assert (E : is_due d (mkTimer d UnlockTransitions) = true)
      by (apply leb_le; cbn; lra).
    rewrite !filter_cons, !filter_nil.
    rewrite decide_True by (rewrite E; exact I).
    rewrite decide_False by (rewrite E; cbn; tauto).
    split; reflexivity.
Qed.

(** X9. [popMode] always discards the top of the stack, whether or not
the transition to it is then accepted; it is accepted exactly when the
manager is unlocked and the top names a member of [MODES] other than
the current mode.  A rejected pop changes neither the mode nor the
lock and notifies nobody. *)
Theorem popMode_drops_top (mm : ModeManager) :
  let r := popMode mm in
  modeStack r.1.2 = removelast (modeStack mm)
  /\ (r.1.1 = true <->
      exists top, last (modeStack mm) = Some top
                  /\ transitionLocked mm = false
                  /\ truthy (MODES_get top) = true
                  /\ top <> currentMode mm)
  /\ (r.1.1 = true ->
      last (modeStack mm) = Some (currentMode r.1.2)
      /\ previousMode r.1.2 = Some (currentMode mm))
  /\ (r.1.1 = false ->
      currentMode r.1.2 = currentMode mm
      /\ previousMode r.1.2 = previousMode mm
      /\ transitionLocked r.1.2 = transitionLocked mm
      /\ r.2 = []).
Proof.
  cbv zeta. unfold popMode.
  destruct (rev (modeStack mm)) as [| top rest] eqn:E.
  - apply (f_equal (@rev string)) in E. rewrite rev_involutive in E.
    cbn in E. rewrite E. cbn.
    repeat split; try discriminate; try assumption.
    intros (top & Hl & _). discriminate.
  - apply (f_equal (@rev string)) in E. rewrite rev_involutive in E.
    cbn [rev] in E. rewrite E, removelast_last, last_snoc.
    unfold transitionTo. cbn [transitionLocked currentMode modeStack].
    destruct (transitionLocked mm) eqn:El; cbn.
    { repeat split; try discriminate; try assumption.
      intros (t & _ & Hf & _). discriminate. }
    destruct (truthy (MODES_get top)) eqn:Et; cbn.
    2:{ repeat split; try discriminate; try assumption.
        intros (t & Ht & _ & Hy & _). congruence. }
    destruct (String.eqb (currentMode mm) top) eqn:Ec; cbn.
    { apply String.eqb_eq in Ec.
      repeat split; try discriminate; try assumption.
      intros (t & Ht & _ & _ & Hn). congruence. }
    apply String.eqb_neq in Ec.
    repeat split; try discriminate.
    intros _. exists top. repeat split; auto.
Qed.

(** X10. Entering a mode with [pushToStack] and popping after the lock
has been released brings the manager back to the mode it left, with
the stack it had.  Popping while the lock of the entering transition
is still held is rejected, and the entry to return to is lost: the
manager stays in the entered mode with the shorter stack. *)
Theorem push_pop_round_trip (target : string) (d : option Q)
  (mm : ModeManager) :
  transitionLocked mm = false ->
  truthy (MODES_get target) = true ->
  truthy (getCurrentMode mm) = true ->
  target <> currentMode mm ->
  let entered := (transitionTo target (mkOptions true d) mm).1.2 in
  modeStack entered = modeStack mm ++ [currentMode mm]
  /\ popMode (unlock entered)
     = (true,
        mkManager (currentMode mm) (Some target) (modeStack mm) true,
        [ SetTimeout 300 UnlockTransitions;
          Notify (Emit "mode:changed" (currentMode mm)) ])
  /\ popMode entered
     = (false,
        mkManager target (Some (currentMode mm)) (modeStack mm) true,
        []).
Proof.
  intros Hu Ht Hc Hn. cbv zeta. unfold getCurrentMode in Hc.
  assert (En : String.eqb (currentMode mm) target = false)
    by (apply String.eqb_neq; congruence).
  assert (En' : String.eqb target (currentMode mm) = false)
    by (apply String.eqb_neq; congruence).
  assert (Ee : (transitionTo target (mkOptions true d) mm).1.2
               = mkManager target (Some (currentMode mm))
                           (modeStack mm ++ [currentMode mm]) true).
  { unfold transitionTo. now rewrite Hu, Ht, En. }
  rewrite Ee. split; [reflexivity |].
  unfold popMode, unlock. cbn [modeStack currentMode previousMode
                               transitionLocked].
  rewrite !rev_app_distr. cbn [rev app]. rewrite !rev_involutive.
  unfold transitionTo. cbn. rewrite Hc, En'. cbn.
  split; reflexivity.
Qed.

Lemma push_pop_round_trip_witness :
  let entered :=
    (transitionTo "combat" (mkOptions true None) initial_manager).1.2 in
  modeStack entered = [ "exploration" ]
  /\ popMode (unlock entered)
     = (true, mkManager "exploration" (Some "combat") [] true,
        [ SetTimeout 300 UnlockTransitions;
          Notify (Emit "mode:changed" "exploration") ])
  /\ popMode entered
     = (false, mkManager "combat" (Some "exploration") [] true, []).
Proof.
  apply (push_pop_round_trip "combat" None initial_manager);
    [reflexivity | reflexivity | reflexivity | discriminate].
Defined.

(** X11. [previousMode] is one slot, not a history: a return that is
accepted swaps the current and the previous mode, so a second return
(after the lock is released) leads back to where the first one
started.  While the lock is held a return is rejected and changes
nothing. *)
Theorem returnToPrevious_swaps (p : string) (mm : ModeManager) :
  previousMode mm = Some p ->
  p <> EmptyString ->
  p <> currentMode mm ->
  truthy (MODES_get p) = true ->
  truthy (getCurrentMode mm) = true ->
  let back := (returnToPrevious (unlock mm)).1.2 in
  back = mkManager p (Some (currentMode mm)) (modeStack mm) true
  /\ (returnToPrevious (unlock back)).1.2
     = mkManager (currentMode mm) (Some p) (modeStack mm) true
  /\ returnToPrevious back = (false, back, []).
Proof.
  intros Hp He Hn Ht Hc. cbv zeta. unfold getCurrentMode in Hc.
  assert (E0 : String.eqb p EmptyString = false)
    by (now apply String.eqb_neq).
  assert (En : String.eqb (currentMode mm) p = false)
    by (apply String.eqb_neq; congruence).
  assert (En' : String.eqb p (currentMode mm) = false)
    by (now apply String.eqb_neq).
  assert (Eb : (returnToPrevious (unlock mm)).1.2
               = mkManager p (Some (currentMode mm)) (modeStack mm) true).
  { unfold returnToPrevious, unlock. cbn. rewrite Hp, E0.
    unfold transitionTo. cbn. now rewrite Ht, En. }
  rewrite Eb. split; [reflexivity |]. split.
  - unfold returnToPrevious, unlock. cbn.
    destruct (String.eqb (currentMode mm) EmptyString) eqn:Ee.
    + apply String.eqb_eq in Ee. rewrite Ee in Hc. discriminate.
    + unfold transitionTo. cbn. now rewrite Hc, En'.
  - unfold returnToPrevious. cbn.
    now destruct (String.eqb (currentMode mm) EmptyString).
Qed.

Lemma returnToPrevious_swaps_witness :
  let mm := mkManager "combat" (Some "exploration") [] true in
  let back := (returnToPrevious (unlock mm)).1.2 in
  back = mkManager "exploration" (Some "combat") [] true
  /\ (returnToPrevious (unlock back)).1.2
     = mkManager "combat" (Some "exploration") [] true
  /\ returnToPrevious back = (false, back, []).
Proof.
  apply (returnToPrevious_swaps "exploration"
           (mkManager "combat" (Some "exploration") [] true));
    [reflexivity | discriminate | discriminate | reflexivity | reflexivity].
Defined.

(** X12. [reset] always empties the stack, but it reaches exploration
only through [transitionTo]: while the lock is held the manager stays
in its mode.  When the transition is made, [previousMode] is not left
cleared: it holds the mode that was reset from. *)
Theorem reset_outcome (mm : ModeManager) :
  let r := reset mm in
  modeStack r.1.2 = []
  /\ (r.1.1 = true <->
      transitionLocked mm = false /\ currentMode mm <> "exploration")
  /\ (r.1.1 = true ->
      currentMode r.1.2 = "exploration"
      /\ previousMode r.1.2 = Some (currentMode mm)
      /\ transitionLocked r.1.2 = true)
  /\ (r.1.1 = false ->
      currentMode r.1.2 = currentMode mm
      /\ previousMode r.1.2 = None
      /\ transitionLocked r.1.2 = transitionLocked mm
      /\ r.2 = []).
Proof.
  cbv zeta. unfold reset, transitionTo.
  cbn [transitionLocked currentMode modeStack previousMode].
  destruct (transitionLocked mm) eqn:El; cbn.
  { repeat split; try discriminate; try assumption.
    intros [Hf _]. discriminate. }
  change (truthy (MODES_get "exploration")) with true. cbn.
  destruct (String.eqb (currentMode mm) "exploration") eqn:Ec; cbn.
  - apply String.eqb_eq in Ec.
    repeat split; try discriminate; try assumption.
    intros [_ Hn]. congruence.
  - apply String.eqb_neq in Ec. repeat split; try discriminate; auto.
Qed.

End ModesMore.

(** ** More on the game state *)

Module StateMore.
Import Js JsFacts State StateOps.

Lemma clamp100_range x : 0 <= clamp100 x /\ clamp100 x <= 100.
Proof.
  unfold clamp100.
  assert (H : 0 <= Math_max 0 (Math_min 100 x) <= 100)
    by (apply clamp_range; lra).
  tauto.
Qed.

Lemma bump_ok v c : vitals_ok v -> vitals_ok (bump v c).
Proof.
  intros (Hh & Hs & Ht & Hd). destruct c as [key delta]. unfold bump.
  repeat (destruct (String.eqb key _);
          [repeat split; cbn; try tauto; apply clamp100_range |]).
  repeat split; tauto.
Qed.

Lemma bump_not_owned v key delta : owns key = false -> bump v (key, delta) = v.
Proof.
  unfold owns, includes. intros H. apply bool_decide_eq_false in H.
  unfold bump.
  repeat match goal with
  | |- context [String.eqb key ?k] =>
      destruct (String.eqb key k) eqn:E;
      [apply String.eqb_eq in E; subst key; exfalso; apply H;
       repeat (first [apply list_elem_of_here | apply list_elem_of_further])
      | clear E]
  end.
  reflexivity.
Qed.

Lemma fold_bump_ok changes v :
  vitals_ok v -> vitals_ok (fold_left bump changes v).
Proof.
  revert v. induction changes as [| c l IH]; intros v Hv; [exact Hv |].
  cbn [fold_left]. apply IH. now apply bump_ok.
Qed.

Lemma fold_bump_owned changes v :
  fold_left bump (filter (fun c => owns (fst c)) changes) v
  = fold_left bump changes v.
Proof.
  revert v. induction changes as [| [key delta] l IH]; intros v;
    [reflexivity |].
  rewrite filter_cons. cbn [fst]. destruct (owns key) eqn:E.
  - rewrite decide_True by exact I. cbn [fold_left]. apply IH.
  - rewrite decide_False by (cbn; tauto). cbn [fold_left].
    rewrite (bump_not_owned v key delta E). apply IH.
Qed.

(** X13. [updateVitals] keeps the player's vitals within [0, 100] once
they are there, whatever changes it is given; entries under keys the
vitals object does not own are ignored; and the advisor's connection
quality is set to 100 minus the new stress, whatever it was before.
Nothing else of the state is touched. *)
Theorem updateVitals_bounds (changes : list (string * Q)) (s : GameState) :
  vitals_ok (player_vitals s) ->
  let s' := updateVitals changes s in
  vitals_ok (player_vitals s')
  /\ connectionQuality s' == 100 - p_stress (player_vitals s')
  /\ (0 <= connectionQuality s' /\ connectionQuality s' <= 100)
  /\ updateVitals (filter (fun c => owns (fst c)) changes) s = s'
  /\ npcs s' = npcs s
  /\ player_equipment s' = player_equipment s
  /\ flags s' = flags s
  /\ currentEnvironment s' = currentEnvironment s.
Proof.
  intros Hv. cbv zeta. unfold updateVitals.
  rewrite fold_bump_owned.
  pose proof (fold_bump_ok changes _ Hv) as Hv'.
  set (v := fold_left bump changes (player_vitals s)) in *.
  cbn [player_vitals connectionQuality set_connectionQuality
       set_player_vitals npcs player_equipment flags currentEnvironment].
  destruct Hv' as (_ & _ & [Hs0 Hs1] & _).
  split; [exact (fold_bump_ok changes _ Hv) |].
  destruct (Math_max_spec 0 (100 - p_stress v)) as [[? ->] | [? ->]];
    repeat split; try lra; reflexivity.
Qed.

Lemma updateVitals_bounds_witness :
  let s' := updateVitals [ ("stress", 250); ("morale", 5); ("health", -30) ]
                         initial_state in
  vitals_ok (player_vitals s')
  /\ connectionQuality s' == 100 - p_stress (player_vitals s')
  /\ (0 <= connectionQuality s' /\ connectionQuality s' <= 100)
  /\ updateVitals (filter (fun c => owns (fst c))
                          [ ("stress", 250); ("morale", 5); ("health", -30) ])
                  initial_state = s'
  /\ npcs s' = npcs initial_state
  /\ player_equipment s' = player_equipment initial_state
  /\ flags s' = flags initial_state
  /\ currentEnvironment s' = currentEnvironment initial_state.
Proof.
  apply (updateVitals_bounds
           [ ("stress", 250); ("morale", 5); ("health", -30) ] initial_state).
  unfold vitals_ok. cbn. lra.
Defined.

Lemma remove_first_subset item l x :
  x ∈ remove_first item l -> x ∈ l.
Proof.
  induction l as [| y l IH]; cbn; [auto |].
  destruct (String.eqb y item).
  - apply list_elem_of_further.
  - intros H. apply elem_of_cons in H. destruct H as [-> | H].
    + apply list_elem_of_here.
    + apply list_elem_of_further. now apply IH.
Qed.

Lemma remove_first_NoDup item l :
  NoDup l -> NoDup (remove_first item l) /\ item ∉ remove_first item l.
Proof.
  induction 1 as [| y l Hy Hl IH]; cbn.
  - split; [constructor | apply not_elem_of_nil].
  - destruct (String.eqb y item) eqn:E.
    + apply String.eqb_eq in E. subst y. split; assumption.
    + apply String.eqb_neq in E. destruct IH as [IH1 IH2]. split.
      * constructor; [| exact IH1].
        intros Hin. apply Hy. now apply (remove_first_subset item).
      * intros Hin. apply elem_of_cons in Hin.
        destruct Hin as [-> | Hin]; [congruence | contradiction].
Qed.

Lemma remove_first_snoc item l :
  item ∉ l -> remove_first item (l ++ [item]) = l.
Proof.
  induction l as [| y l IH]; intros Hn; cbn.
  - now rewrite String.eqb_refl.
  - destruct (String.eqb y item) eqn:E.
    + apply String.eqb_eq in E. subst y. exfalso. apply Hn.
      apply list_elem_of_here.
    + f_equal. apply IH. intros Hin. apply Hn.
      now apply list_elem_of_further.
Qed.

(** X14. The inventory of the game state holds no item twice as long as
it is changed through [addEquipment] and [removeEquipment]: both keep
a duplicate-free list duplicate-free.  After [removeEquipment] the
item is gone, after [addEquipment] it is there, adding an item that is
there changes nothing, and removing an item right after adding it as a
new one gives back the inventory as it was. *)
Theorem equipment_no_duplicates (item : string) (s : GameState) :
  NoDup (player_equipment s) ->
  NoDup (player_equipment (addEquipment item s))
  /\ NoDup (player_equipment (removeEquipment item s))
  /\ includes (player_equipment (addEquipment item s)) item = true
  /\ includes (player_equipment (removeEquipment item s)) item = false
  /\ addEquipment item (addEquipment item s) = addEquipment item s
  /\ (includes (player_equipment s) item = false ->
      player_equipment (removeEquipment item (addEquipment item s))
      = player_equipment s).
Proof.
  intros Hn.
  assert (Hadd : includes (player_equipment (addEquipment item s)) item
                 = true).
  { unfold addEquipment.
    destruct (includes (player_equipment s) item) eqn:E; [exact E |].
    cbn. apply bool_decide_eq_true_2, elem_of_app. right.
    apply list_elem_of_here. }
  repeat split.
  - unfold addEquipment.
    destruct (includes (player_equipment s) item) eqn:E; [exact Hn |].
    cbn. apply bool_decide_eq_false in E.
    apply NoDup_app. split; [exact Hn |]. split.
    + intros x Hx Hx'. apply list_elem_of_singleton in Hx'. now subst x.
    + apply NoDup_singleton.
  - cbn. now apply remove_first_NoDup.
  - exact Hadd.
  - cbn. apply bool_decide_eq_false. now apply remove_first_NoDup.
  - unfold addEquipment at 1. now rewrite Hadd.
  - intros E. unfold addEquipment. rewrite E. cbn.
    apply remove_first_snoc. now apply bool_decide_eq_false in E.
Qed.

Lemma equipment_no_duplicates_witness :
  let s := addEquipment "taser" initial_state in
  NoDup (player_equipment (addEquipment "knife" s))
  /\ NoDup (player_equipment (removeEquipment "knife" s))
  /\ includes (player_equipment (addEquipment "knife" s)) "knife" = true
  /\ includes (player_equipment (removeEquipment "knife" s)) "knife" = false
  /\ addEquipment "knife" (addEquipment "knife" s) = addEquipment "knife" s
  /\ (includes (player_equipment s) "knife" = false ->
      player_equipment (removeEquipment "knife" (addEquipment "knife" s))
      = player_equipment s).
Proof.
  apply (equipment_no_duplicates "knife"
           (addEquipment "taser" initial_state)).
  cbn. apply NoDup_singleton.
Defined.

End StateMore.

(** ** More on the priorities *)

Module PriorityMore.
Import Js JsFacts Vitals Npc State Priority PriorityOps PriorityFacts.

(** The weights are pairwise different, so the sort has one outcome
whatever is pushed. *)
Lemma sort_pushes (b1 b2 b3 b4 b5 b7 b8 : bool) (o : option Proximity)
  (d1 d2 d3 d4 d5 d7 d8 d9 d10 : item_data) :
  sort_by_weight
    (push_if b1 (mkItem "condition-overlay" TIER_MODIFIER 90 d1)
     ++ push_if b2 (mkItem "combat" TIER_IMMEDIATE 100 d2)
     ++ push_if b3 (mkItem "npc-interaction" TIER_IMMEDIATE 95 d3)
     ++ push_if b4 (mkItem "critical-status" TIER_IMMEDIATE 85 d4)
     ++ push_if b5 (mkItem "npc-nearby" TIER_ENVIRONMENTAL 60 d5)
     ++ match o with
        | Some p => [mkItem "objective-near" TIER_ENVIRONMENTAL 70
                            (DProximity p)]
        | None => []
        end
     ++ push_if b7 (mkItem "environment-actions" TIER_ENVIRONMENTAL 50 d7)
     ++ push_if b8 (mkItem "interactive-elements" TIER_ENVIRONMENTAL 45 d8)
     ++ [ mkItem "inventory" TIER_SELF 20 d9;
          mkItem "vitals" TIER_SELF 15 d10 ])
  = push_if b2 (mkItem "combat" TIER_IMMEDIATE 100 d2)
    ++ push_if b3 (mkItem "npc-interaction" TIER_IMMEDIATE 95 d3)
    ++ push_if b1 (mkItem "condition-overlay" TIER_MODIFIER 90 d1)
    ++ push_if b4 (mkItem "critical-status" TIER_IMMEDIATE 85 d4)
    ++ match o with
       | Some p => [mkItem "objective-near" TIER_ENVIRONMENTAL 70
                           (DProximity p)]
       | None => []
       end
    ++ push_if b5 (mkItem "npc-nearby" TIER_ENVIRONMENTAL 60 d5)
    ++ push_if b7 (mkItem "environment-actions" TIER_ENVIRONMENTAL 50 d7)
    ++ push_if b8 (mkItem "interactive-elements" TIER_ENVIRONMENTAL 45 d8)
    ++ [ mkItem "inventory" TIER_SELF 20 d9;
         mkItem "vitals" TIER_SELF 15 d10 ].
Proof.
  destruct b1, b2, b3, b4, b5, o, b7, b8; vm_compute; reflexivity.
Qed.

Lemma collect_ranked s envs ns :
  sort_by_weight (collect s envs ns) = ranked s envs ns.
Proof. unfold collect, ranked. cbv zeta. apply sort_pushes. Qed.

(** X15. Because the ten weights are pairwise different, a fresh
evaluation returns the items in one fixed order whatever the state:
combat, NPC interaction, condition overlay, critical status, objective,
nearby NPCs, environment actions, interactive elements, inventory,
vitals, each present under the condition [evaluate] pushes it under. *)
Theorem evaluate_ranking (now : Q) (s : GameState)
  (envs : gmap string Environment) (ns : list NPC) (pm : PriorityManager) :
  recomputes now pm ->
  fst (evaluate now s envs ns pm) = ranked s envs ns.
Proof.
  intros H. rewrite (evaluate_recomputes now s envs ns pm H).
  apply collect_ranked.
Qed.

Lemma evaluate_ranking_witness :
  fst (evaluate 0 Examples.standoff
                Examples.facility
                (npcs Examples.standoff) initial_pm)
  = ranked Examples.standoff Examples.facility
           (npcs Examples.standoff).
Proof.
  apply (evaluate_ranking 0 Examples.standoff
           Examples.facility
           (npcs Examples.standoff) initial_pm).
  left. reflexivity.
Defined.

(** X16. The game mode a fresh evaluation yields.  Combat whenever a
combatant is in the room.  Otherwise the first engaged NPC decides
between dialogue and stealth.  Otherwise nearby NPCs give stealth only
if nothing heavier was pushed: an active overlay, a critical status or
an objective in reach each make the mode exploration even with NPCs
nearby. *)
Theorem determineGameMode_cases (now : Q) (s : GameState)
  (envs : gmap string Environment) (ns : list NPC) (pm : PriorityManager) :
  recomputes now pm ->
  fst (determineGameMode now s envs ns pm)
  = if nonempty (getCombatants s ns) then "combat"
    else match getEngagedNPCs s ns with
         | e :: _ => if e_hasDialogue e then "dialogue" else "stealth"
         | [] =>
             if hasEffects (getUIModifiers s)
                || nonempty (getCriticalConditions s)
                || bool_decide
                     (is_Some (checkObjectiveProximity s
                                 (match currentEnvironment s with
                                  | Some r => envs !! r
                                  | None => None
                                  end)))
             then "exploration"
             else if nonempty (getNearbyNPCs s ns) then "stealth"
                  else "exploration"
         end.
Proof.
  intros H. unfold determineGameMode.
  pose proof (evaluate_recomputes now s envs ns pm H) as E.
  rewrite collect_ranked in E.
  destruct (evaluate now s envs ns pm) as [l pm']. cbn [fst] in *. subst l.
  unfold ranked. cbv zeta.
  destruct (getCombatants s ns) as [| c cs]; [| reflexivity].
  destruct (getEngagedNPCs s ns) as [| e es]; [| reflexivity].
  destruct (hasEffects (getUIModifiers s)); [reflexivity |].
  destruct (nonempty (getCriticalConditions s)); [reflexivity |].
  destruct (checkObjectiveProximity s _) as [p |].
  { rewrite bool_decide_eq_true_2 by (now exists p). reflexivity. }
  rewrite bool_decide_eq_false_2 by (intros [x Hx]; discriminate).
  destruct (nonempty (getNearbyNPCs s ns)); [reflexivity |].
  cbn [orb andb nonempty empty length Nat.eqb negb push_if app].
  destruct (nonempty (getEnvironmentActions s _)); [reflexivity |].
  destruct (nonempty (getInteractiveElements _)); reflexivity.
Qed.

Lemma determineGameMode_cases_witness :
  fst (determineGameMode 0 Examples.standoff
         Examples.facility
         (npcs Examples.standoff) initial_pm)
  = "combat".
Proof.
  rewrite (determineGameMode_cases 0 Examples.standoff
             Examples.facility
             (npcs Examples.standoff) initial_pm);
    [reflexivity | left; reflexivity].
Defined.

Ltac channels := unfold channels_ok; cbn; repeat split; try tauto; try lra.

Lemma min1_range x : 0 < x -> 0 <= Math_min 1 x /\ Math_min 1 x <= 1.
Proof.
  intros H. destruct (Math_min_spec 1 x) as [[? ->] | [? ->]]; lra.
Qed.

Lemma max_range a b :
  0 <= a /\ a <= 1 -> 0 <= b /\ b <= 1 ->
  0 <= Math_max a b /\ Math_max a b <= 1.
Proof.
  intros Ha Hb. destruct (Math_max_spec a b) as [[? ->] | [? ->]]; tauto.
Qed.

Lemma stress_mods_ok stress m :
  channels_ok m -> channels_ok (stress_mods stress m).
Proof.
  intros (Hs & Hb & Hd & Hp & Hv). unfold stress_mods.
  destruct (gtb stress STRESS_HIGH) eqn:E1.
  - apply gtb_gt in E1. unfold STRESS_HIGH in *.
    assert (Hsh : 0 <= Math_min 1 ((stress - 70) / 30)
                  /\ Math_min 1 ((stress - 70) / 30) <= 1).
    { apply min1_range. apply Qlt_shift_div_l; lra. }
    destruct (geb stress STRESS_CRITICAL); channels.
  - destruct (geb stress STRESS_CRITICAL); channels.
Qed.

Lemma health_mods_ok health m :
  channels_ok m -> channels_ok (health_mods health m).
Proof.
  intros (Hs & Hb & Hd & Hp & Hv). unfold health_mods.
  assert (H8 : 0 <= Math_max (pulse m) (8#10)
               /\ Math_max (pulse m) (8#10) <= 1)
    by (apply max_range; [tauto | lra]).
  destruct (ltb health HEALTH_WOUNDED) eqn:E1.
  - apply ltb_lt in E1. unfold HEALTH_WOUNDED in *.
    assert (Hvi : 0 <= Math_min 1 ((30 - health) / 30)
                  /\ Math_min 1 ((30 - health) / 30) <= 1).
    { apply min1_range. apply Qlt_shift_div_l; lra. }
    destruct (leb health HEALTH_CRITICAL); channels.
  - destruct (leb health HEALTH_CRITICAL); channels.
Qed.

Lemma detection_mods_ok detection m :
  channels_ok m -> channels_ok (detection_mods detection m).
Proof.
  intros H. unfold detection_mods.
  destruct (gtb detection DETECTION_SUSPICIOUS); [| exact H].
  destruct H as (Hs & Hb & Hd & Hp & Hv). channels.
Qed.

Lemma condition_mods_ok m c :
  channels_ok m -> channels_ok (condition_mods m c).
Proof.
  intros (Hs & Hb & Hd & Hp & Hv). unfold condition_mods.
  assert (H1 : 0 <= Math_max (shake m) (6#10)
               /\ Math_max (shake m) (6#10) <= 1)
    by (apply max_range; [tauto | lra]).
  assert (H2 : 0 <= Math_max (blur m) (2#10)
               /\ Math_max (blur m) (2#10) <= 1)
    by (apply max_range; [tauto | lra]).
  assert (H3 : 0 <= Math_max (pulse m) (7#10)
               /\ Math_max (pulse m) (7#10) <= 1)
    by (apply max_range; [tauto | lra]).
  assert (H4 : 0 <= Math_max (blur m) (1#10)
               /\ Math_max (blur m) (1#10) <= 1)
    by (apply max_range; [tauto | lra]).
  assert (H5 : 0 <= Math_max (darken m) (15#100)
               /\ Math_max (darken m) (15#100) <= 1)
    by (apply max_range; [tauto | lra]).
  repeat (destruct (String.eqb c _); [channels |]).
  channels.
Qed.

Lemma fold_condition_mods_ok cs m :
  channels_ok m -> channels_ok (fold_left condition_mods cs m).
Proof.
  revert m. induction cs as [| c cs IH]; intros m H; [exact H |].
  cbn [fold_left]. apply IH. now apply condition_mods_ok.
Qed.

(** When the flag is set. *)
Lemma stress_mods_flag stress m :
  hasEffects (stress_mods stress m) = hasEffects m || gtb stress STRESS_HIGH.
Proof.
  unfold stress_mods.
  destruct (gtb stress STRESS_HIGH) eqn:E1.
  - destruct (geb stress STRESS_CRITICAL); rewrite orb_true_r; reflexivity.
  - destruct (geb stress STRESS_CRITICAL) eqn:E2; [| now rewrite orb_false_r].
    apply gtb_le in E1. apply geb_ge in E2.
    unfold STRESS_HIGH, STRESS_CRITICAL in *. lra.
Qed.

Lemma health_mods_flag health m :
  hasEffects (health_mods health m) = hasEffects m || ltb health HEALTH_WOUNDED.
Proof.
  unfold health_mods.
  destruct (ltb health HEALTH_WOUNDED) eqn:E1.
  - destruct (leb health HEALTH_CRITICAL); rewrite orb_true_r; reflexivity.
  - destruct (leb health HEALTH_CRITICAL) eqn:E2; [| now rewrite orb_false_r].
    apply ltb_ge in E1. apply leb_le in E2.
    unfold HEALTH_WOUNDED, HEALTH_CRITICAL in *. lra.
Qed.

Lemma detection_mods_flag detection m :
  hasEffects (detection_mods detection m)
  = hasEffects m || gtb detection DETECTION_SUSPICIOUS.
Proof.
  unfold detection_mods.
  destruct (gtb detection DETECTION_SUSPICIOUS);
    [now rewrite orb_true_r | now rewrite orb_false_r].
Qed.

Lemma condition_mods_flag m c :
  hasEffects (condition_mods m c)
  = hasEffects m || includes overlay_conditions c.
Proof.
  unfold condition_mods, overlay_conditions, includes.
  repeat match goal with
  | |- context [String.eqb c ?k] =>
      let E := fresh "E" in
      destruct (String.eqb c k) eqn:E;
      [apply String.eqb_eq in E; subst c; rewrite orb_true_r; reflexivity
      | apply String.eqb_neq in E]
  end.
  rewrite bool_decide_eq_false_2; [now rewrite orb_false_r |].
  rewrite !elem_of_cons. intros H.
  repeat (destruct H as [H | H]; [congruence |]).
  now apply elem_of_nil in H.
Qed.

Lemma fold_condition_mods_flag cs m :
  hasEffects (fold_left condition_mods cs m)
  = hasEffects m || existsb (includes overlay_conditions) cs.
Proof.
  revert m. induction cs as [| c cs IH]; intros m; cbn [fold_left existsb].
  - now rewrite orb_false_r.
  - rewrite IH, condition_mods_flag. now rewrite orb_assoc.
Qed.

(** Without the flag nothing was written. *)
Lemma stage_untouched (f : UIModifiers -> UIModifiers) m :
  (f m = m \/ hasEffects (f m) = true) ->
  (hasEffects m = false -> m = no_modifiers) ->
  hasEffects (f m) = false -> f m = no_modifiers.
Proof.
  intros [E | E] Hm Hf; [| congruence].
  rewrite E in *. now apply Hm.
Qed.

Lemma stress_mods_touch stress m :
  stress_mods stress m = m \/ hasEffects (stress_mods stress m) = true.
Proof.
  unfold stress_mods.
  destruct (gtb stress STRESS_HIGH), (geb stress STRESS_CRITICAL); cbn; auto.
Qed.

Lemma health_mods_touch health m :
  health_mods health m = m \/ hasEffects (health_mods health m) = true.
Proof.
  unfold health_mods.
  destruct (ltb health HEALTH_WOUNDED), (leb health HEALTH_CRITICAL); cbn; auto.
Qed.

Lemma detection_mods_touch detection m :
  detection_mods detection m = m
  \/ hasEffects (detection_mods detection m) = true.
Proof.
  unfold detection_mods.
  destruct (gtb detection DETECTION_SUSPICIOUS); cbn; auto.
Qed.

Lemma condition_mods_touch m c :
  condition_mods m c = m \/ hasEffects (condition_mods m c) = true.
Proof.
  unfold condition_mods.
  repeat (destruct (String.eqb c _); [cbn; auto |]). auto.
Qed.

Lemma fold_condition_mods_untouched cs m :
  (hasEffects m = false -> m = no_modifiers) ->
  hasEffects (fold_left condition_mods cs m) = false ->
  fold_left condition_mods cs m = no_modifiers.
Proof.
  revert m. induction cs as [| c cs IH]; intros m Hm; cbn [fold_left];
    [exact Hm |].
  apply IH. apply (stage_untouched (fun m => condition_mods m c));
    [apply condition_mods_touch | exact Hm].
Qed.

(** X17. Whatever the player's vitals and conditions are, the five
intensities of the overlay [getUIModifiers] computes lie within
[0, 1].  The overlay is flagged as having effects exactly when stress
is above the high threshold, health below the wounded threshold,
detection above the suspicious threshold, or one of the four overlay
conditions is held; without the flag every channel is zero and no
tint is set. *)
Theorem getUIModifiers_channels (s : GameState) :
  let m := getUIModifiers s in
  let v := player_vitals s in
  channels_ok m
  /\ hasEffects m
     = gtb (p_stress v) STRESS_HIGH
       || ltb (p_health v) HEALTH_WOUNDED
       || gtb (p_detection v) DETECTION_SUSPICIOUS
       || existsb (includes overlay_conditions) (player_conditions s)
  /\ (hasEffects m = false -> m = no_modifiers).
Proof.
  cbv zeta. unfold getUIModifiers.
  split; [| split].
  - apply fold_condition_mods_ok, detection_mods_ok, health_mods_ok,
      stress_mods_ok.
    unfold channels_ok. cbn. lra.
  - rewrite fold_condition_mods_flag, detection_mods_flag, health_mods_flag,
      stress_mods_flag.
    reflexivity.
  - apply fold_condition_mods_untouched.
    apply (stage_untouched (detection_mods _)); [apply detection_mods_touch |].
    apply (stage_untouched (health_mods _)); [apply health_mods_touch |].
    apply (stage_untouched (stress_mods _)); [apply stress_mods_touch |].
    reflexivity.
Qed.

(** X18. After a fresh evaluation at time [now], an evaluation less
than [cacheLifetime] later returns the list of the earlier state, not
of the state it is given, and leaves the manager as it is; after
[invalidateCache] the list is that of the state given. *)
Theorem cache_staleness (now now' : Q) (s s' : GameState)
  (envs envs' : gmap string Environment) (ns ns' : list NPC)
  (pm : PriorityManager) :
  recomputes now pm ->
  now' - now < cacheLifetime ->
  let pm1 := snd (evaluate now s envs ns pm) in
  evaluate now' s' envs' ns' pm1 = (ranked s envs ns, pm1)
  /\ fst (evaluate now' s' envs' ns' (invalidateCache pm1))
     = ranked s' envs' ns'.
Proof.
  intros H Hage. cbv zeta.
  assert (E : evaluate now s envs ns pm
              = (ranked s envs ns, mkPM (Some (ranked s envs ns)) now)).
  { rewrite <- collect_ranked. destruct H as [Hc | Ha]; unfold evaluate.
    - now rewrite Hc.
    - destruct (priorityCache pm); [| reflexivity].
      apply ltb_ge in Ha. now rewrite Ha. }
  rewrite E. cbn [snd]. split.
  - unfold evaluate. cbn [priorityCache lastEvaluation].
    apply ltb_lt in Hage. now rewrite Hage.
  - unfold evaluate, invalidateCache. cbn. apply collect_ranked.
Qed.


Lemma cache_staleness_witness :
  let pm1 := snd (evaluate 0 Examples.standoff Examples.facility
                           (npcs Examples.standoff) initial_pm) in
  evaluate 50 initial_state ∅ [] pm1
  = (ranked Examples.standoff Examples.facility (npcs Examples.standoff),
     pm1)
  /\ fst (evaluate 50 initial_state ∅ [] (invalidateCache pm1))
     = ranked initial_state ∅ [].
Proof.
  apply (cache_staleness 0 50 Examples.standoff initial_state
           Examples.facility ∅ (npcs Examples.standoff) [] initial_pm).
  - left. reflexivity.
  - reflexivity.
Defined.

End PriorityMore.

(** ** More on the game *)

Module GameMore.
Import Js JsFacts Vitals Npc Runtime Modes State Priority Game GameOps GameFacts.

Lemma detect_chance_bounds n env s :
  -17 <= detect_chance n env s /\ detect_chance n env s <= 48.
Proof.
  unfold detect_chance, DETECTION_BASE_CHANCE. cbv zeta.
  generalize (match noise env with
              | Some x => if String.eqb x EmptyString then "normal" else x
              | None => "normal"
              end).
  intros x.
  destruct (String.eqb x "loud") eqn:E1, (String.eqb x "silent") eqn:E2;
    [apply String.eqb_eq in E1, E2; congruence | | |];
    repeat case_bool_decide; try congruence;
    destruct (includes (player_conditions s) "hidden");
    destruct (gtb (p_stress (player_vitals s)) 50);
    split; lra.
Qed.

Lemma detect_one_high_roll rolls env n w :
  48 <= rolls (id n) -> detect_one rolls env n w = (w, false).
Proof.
  intros H. unfold detect_one.
  destruct (negb _); [reflexivity |].
  destruct (engaged n); [reflexivity |].
  destruct (ltb _ _) eqn:E; [| reflexivity].
  apply ltb_lt in E.
  pose proof (detect_chance_bounds n env (state w)). lra.
Qed.

(** X19. The chance [checkNPCDetection] computes for an NPC lies
between -17 and 48 whatever the room, the NPC and the player are, so a
check in which every roll is 48 or more detects nothing and leaves the
world as it is. *)
Theorem detection_needs_low_roll (rolls : string -> Q) (w : World) :
  (forall i, 48 <= rolls i) ->
  checkNPCDetection rolls w = w.
Proof.
  intros H. unfold checkNPCDetection.
  destruct (current_env w) as [env |]; [| reflexivity].
  induction (map id (npcs (state w))) as [| i ids IH]; [reflexivity |].
  cbn [detect_loop]. destruct (npc_get i (state w)) as [n |]; [| exact IH].
  rewrite (detect_one_high_roll rolls env n w (H (id n))). exact IH.
Qed.

Lemma detection_needs_low_roll_witness :
  checkNPCDetection (fun _ => 48) Examples.tense = Examples.tense.
Proof.
  apply (detection_needs_low_roll (fun _ => 48) Examples.tense).
  intros i. lra.
Defined.

Lemma pv_emit e w : pv (emit e w) = pv w.
Proof. reflexivity. Qed.
Lemma pv_console_log t w : pv (console_log t w) = pv w.
Proof. reflexivity. Qed.
Lemma pv_with_manager call w : pv (with_manager call w) = pv w.
Proof.
  unfold with_manager. now destruct (call (modeManager w)) as [[ok mm] rs].
Qed.
Lemma pv_npc_update i f w : pv (on_state (npc_update i f) w) = pv w.
Proof. reflexivity. Qed.
Lemma pv_handleGameOver r w : pv (handleGameOver r w) = pv w.
Proof. unfold handleGameOver. now destruct (hasFlag _ _). Qed.
Lemma pv_startDialogue i w : pv (startDialogue i w) = pv w.
Proof. unfold startDialogue. now destruct (npc_get _ _). Qed.
Lemma pv_handleNPCEngagement n w : pv (handleNPCEngagement n w) = pv w.
Proof.
  unfold handleNPCEngagement.
  destruct (bool_decide _).
  - unfold forceSpeech. now rewrite !pv_emit, pv_with_manager.
  - destruct (_ || _); [| reflexivity].
    now rewrite pv_startDialogue, pv_with_manager.
Qed.

Lemma pv_detect_one rolls env n w :
  pv (detect_one rolls env n w).1 = pv w
  \/ pv (detect_one rolls env n w).1 = raised (pv w).
Proof.
  unfold detect_one.
  destruct (negb _); [now left |].
  destruct (engaged n); [now left |].
  destruct (ltb _ _); [| now left].
  right. cbv zeta.
  repeat match goal with
  | |- context [if ?b then _ else _] => destruct b
  end; cbn [fst]; unfold forceSpeech;
    rewrite ?pv_handleGameOver, ?pv_handleNPCEngagement, ?pv_npc_update,
      ?pv_emit, ?pv_npc_update, ?pv_emit; reflexivity.
Qed.

Lemma steps_refl k v : steps k v v.
Proof.
  repeat split; try lra.
  assert (0 <= inject_Z (Z.of_nat k)).
  { change 0 with (inject_Z 0). rewrite <- Zle_Qle. lia. }
  lra.
Qed.

Lemma steps_succ k v v' : steps k v v' -> steps (S k) v v'.
Proof.
  intros (H1 & H2 & H3 & H4). repeat split; try tauto.
  destruct (H4 H) as (_ & _ & H5).
  rewrite Nat2Z.inj_succ. unfold Z.succ. rewrite inject_Z_plus.
  change (inject_Z 1) with 1. lra.
Qed.

Lemma steps_raise k v v' : steps k (raised v) v' -> steps (S k) v v'.
Proof.
  intros (H1 & H2 & H3 & H4). unfold raised, DETECTION_INCREMENT in *.
  cbn [p_health p_stamina p_stress p_detection] in *.
  split; [exact H1 |]. split; [exact H2 |]. split; [exact H3 |].
  intros H.
  rewrite Nat2Z.inj_succ. unfold Z.succ. rewrite inject_Z_plus.
  change (inject_Z 1) with 1.
  destruct (Math_min_spec 100 (p_detection v + 5)) as [[Ha Hb] | [Ha Hb]];
    rewrite Hb in H4; lra.
Qed.

Lemma detect_loop_steps rolls env ids w :
  steps (length ids) (pv w) (pv (detect_loop rolls env ids w)).
Proof.
  revert w. induction ids as [| i ids IH]; intros w; [apply steps_refl |].
  cbn [detect_loop length].
  destruct (npc_get i (state w)) as [n |]; [| apply steps_succ, IH].
  pose proof (pv_detect_one rolls env n w) as Hd.
  destruct (detect_one rolls env n w) as [w' returned]. cbn [fst] in Hd.
  destruct returned.
  - destruct Hd as [-> | ->].
    + apply steps_succ. 
      pose proof (steps_refl (length ids) (pv w)). exact H.
    + apply steps_raise, steps_refl.
  - specialize (IH w'). destruct Hd as [Hd | Hd]; rewrite Hd in IH.
    + now apply steps_succ.
    + now apply steps_raise.
Qed.

(** X20. A detection check leaves the player's health, stamina and
stress alone.  A detection level that is at most 100 never falls in a
check, stays at most 100, and rises by at most 5 for each NPC of the
game. *)
Theorem checkNPCDetection_raises (rolls : string -> Q) (w : World) :
  let v := player_vitals (state w) in
  let v' := player_vitals (state (checkNPCDetection rolls w)) in
  p_health v' = p_health v /\ p_stamina v' = p_stamina v
  /\ p_stress v' = p_stress v
  /\ (p_detection v <= 100 ->
      p_detection v <= p_detection v' /\ p_detection v' <= 100
      /\ p_detection v'
         <= p_detection v
            + 5 * inject_Z (Z.of_nat (length (npcs (state w))))).
Proof.
  cbv zeta. unfold checkNPCDetection.
  destruct (current_env w) as [env |].
  - pose proof (detect_loop_steps rolls env (map id (npcs (state w))) w) as H.
    rewrite length_map in H. exact H.
  - apply (steps_refl _ (pv w)).
Qed.

Lemma state_with_manager call w : state (with_manager call w) = state w.
Proof.
  unfold with_manager. now destruct (call (modeManager w)) as [[ok mm] rs].
Qed.

Lemma state_drop_items items w : state (drop_items items w) = state w.
Proof.
  unfold drop_items. revert w.
  induction items as [| i l IH]; intros w; [reflexivity |].
  cbn [fold_left]. now rewrite IH.
Qed.

Lemma find_map_id (i : string) (f : NPC -> NPC) (l : list NPC) :
  (forall m, id (f m) = id m) ->
  find (fun n => String.eqb (id n) i)
       (map (fun n => if String.eqb (id n) i then f n else n) l)
  = option_map f (find (fun n => String.eqb (id n) i) l).
Proof.
  intros Hid. induction l as [| n l IH]; [reflexivity |].
  cbn [map find]. destruct (String.eqb (id n) i) eqn:E.
  - now rewrite Hid, E.
  - now rewrite E.
Qed.

Lemma ltb_compat a b b' : b == b' -> ltb a b = ltb a b'.
Proof.
  intros H. destruct (ltb a b) eqn:E1, (ltb a b') eqn:E2; try reflexivity.
  - apply ltb_lt in E1. apply ltb_ge in E2. lra.
  - apply ltb_ge in E1. apply ltb_lt in E2. lra.
Qed.

(** X21. A conscious NPC is unconscious after [attemptSubdue] exactly
when the player had at least 30 stamina, the NPC was not hostile, and
the roll was below 20: against a hostile NPC the threshold is
40 + 20 - 60 = 0, which no roll is below, so the attempt cannot
succeed. *)
Theorem attemptSubdue_odds (roll : Q) (npcId : string) (w : World) (n : NPC) :
  npc_get npcId (state w) = Some n ->
  unconscious n = false ->
  0 <= roll ->
  out_cold npcId (attemptSubdue roll npcId w)
  = negb (ltb (p_stamina (pv w)) 30)
    && negb (bool_decide (Npc.awareness n = Hostile))
    && ltb roll 20.
Proof.
  intros Hn Hu Hr. unfold attemptSubdue, pv. rewrite Hn.
  destruct (ltb (p_stamina (player_vitals (state w))) 30).
  { unfold out_cold. cbn. now rewrite Hn. }
  cbv zeta. cbn [negb andb].
  assert (Hget : forall f s',
             npcs s' = npcs (state w) ->
             (forall m, id (f m) = id m) ->
             npc_get npcId (npc_update npcId f s') = Some (f n)).
  { intros f s' Hs Hid. unfold npc_get, npc_update. cbn [npcs set_npcs].
    rewrite Hs, (find_map_id npcId f _ Hid).
    unfold npc_get in Hn. now rewrite Hn. }
  assert (Hfail : out_cold npcId
            (on_state (npc_update npcId
                         (fun m => set_vitals (addSuspicion 100 (vitals m))
                                              (set_awareness Hostile m)))
               (on_state (updateVitals [("health", -20); ("stress", 25)])
                  (forceSpeech "Didn't work! They're fighting back!"
                     (on_state (updateVitals [("stamina", -30); ("stress", 15)])
                        w)))) = false).
  { unfold out_cold, forceSpeech, emit, on_state.
    cbn [state set_state set_log].
    rewrite Hget; [exact Hu | reflexivity | reflexivity]. }
  assert (Hwin : out_cold npcId
            (updateUI
               (with_manager returnToPrevious
                  (drop_items (inventory n)
                     (forceSpeech "Target down. Grab what you can and move."
                        (on_state (npc_update npcId (fun m => fst (subdue m)))
                           (on_state
                              (updateVitals [("stamina", -30); ("stress", 15)])
                              w)))))) = true).
  { unfold out_cold, updateUI, emit at 1. cbn [state set_log].
    rewrite state_with_manager, state_drop_items.
    unfold forceSpeech, emit, on_state. cbn [state set_state set_log].
    rewrite Hget; [| reflexivity | reflexivity].
    unfold unconscious, has. cbn.
    apply bool_decide_eq_true_2, elem_of_union. left.
    now apply elem_of_singleton. }
  destruct (bool_decide (Npc.awareness n = Hostile)); cbn [negb andb].
  - rewrite (proj2 (ltb_ge roll (40 + 20 - 60))) by lra. exact Hfail.
  - rewrite (ltb_compat roll (40 + 20 - 40) 20) by lra.
    destruct (ltb roll 20); [exact Hwin | exact Hfail].
Qed.

Lemma attemptSubdue_odds_witness :
  out_cold "guard-1" (attemptSubdue 0 "guard-1" Examples.loaded) = true
  /\ out_cold "guard-1"
       (attemptSubdue 0 "guard-1"
          (on_state (set_npcs [Examples.hostile_guard]) Examples.loaded))
     = false.
Proof.
  split.
  - rewrite (attemptSubdue_odds 0 "guard-1" Examples.loaded
               (Examples.guard Unaware 0));
      [reflexivity | reflexivity | reflexivity | lra].
  - rewrite (attemptSubdue_odds 0 "guard-1"
               (on_state (set_npcs [Examples.hostile_guard]) Examples.loaded)
               Examples.hostile_guard);
      [reflexivity | reflexivity | reflexivity | lra].
Defined.

Lemma find_exit_destination roomId w e :
  find_exit roomId w = Some e ->
  destination e = roomId
  /\ exists env, current_env w = Some env /\ e ∈ or_empty (exits env).
Proof.
  unfold find_exit. destruct (current_env w) as [env |]; [| discriminate].
  intros H. apply find_some in H. destruct H as [Hin He].
  apply String.eqb_eq in He. split; [exact He |].
  exists env. split; [reflexivity |]. now apply list_elem_of_In.
Qed.

Lemma enterRoom_room roomId w :
  currentEnvironment (state (enterRoom roomId w))
  = if bool_decide (is_Some (environments w !! roomId)) then Some roomId
    else currentEnvironment (state w).
Proof.
  unfold enterRoom.
  destruct (environments w !! roomId) as [env |] eqn:E.
  - rewrite bool_decide_eq_true_2 by eauto.
    destruct (existsb _ _); reflexivity.
  - rewrite bool_decide_eq_false_2 by (intros [x Hx]; discriminate).
    reflexivity.
Qed.

(** X22. [moveToRoom] changes the room only through an exit of the
current room that leads to the requested room, which is a room of the
game, and which is unlocked or for which a sufficient keycard is
held. *)
Theorem moveToRoom_through_exit (roomId : string) (w : World) :
  currentEnvironment (state (moveToRoom roomId w))
  <> currentEnvironment (state w) ->
  currentEnvironment (state (moveToRoom roomId w)) = Some roomId
  /\ is_Some (environments w !! roomId)
  /\ exists env e,
       current_env w = Some env /\ e ∈ or_empty (exits env)
       /\ destination e = roomId
       /\ (locked e = true -> has_key_for (keycardLevel e) (state w) = true).
Proof.
  unfold moveToRoom. intros H.
  destruct (find_exit roomId w) as [e |] eqn:Ee; [| now contradiction H].
  destruct (find_exit_destination roomId w e Ee) as (Hd & env & Hc & Hin).
  destruct (locked e && negb (has_key_for (keycardLevel e) (state w))) eqn:El;
    [now contradiction H |].
  unfold updateUI, emit in *. cbn [state set_log] in *.
  rewrite enterRoom_room in *.
  change (environments (on_state ?f w)) with (environments w) in *.
  destruct (bool_decide (is_Some (environments w !! roomId))) eqn:Ek;
    [| now contradiction H].
  apply bool_decide_eq_true in Ek.
  split; [reflexivity |]. split; [exact Ek |].
  exists env, e. repeat split; try assumption.
  intros Hl. rewrite Hl in El. cbn in El.
  now apply negb_false_iff in El.
Qed.

Lemma moveToRoom_through_exit_witness :
  currentEnvironment (state (moveToRoom "corridor" Examples.tense))
  = Some "corridor"
  /\ is_Some (environments Examples.tense !! "corridor")
  /\ exists env e,
       current_env Examples.tense = Some env /\ e ∈ or_empty (exits env)
       /\ destination e = "corridor"
       /\ (locked e = true ->
           has_key_for (keycardLevel e) (state Examples.tense) = true).
Proof.
  apply (moveToRoom_through_exit "corridor" Examples.tense).
  vm_compute. discriminate.
Defined.

(** X23. Where the [move] action is refused at a locked exit for want
of a keycard and leaves the state as it is, the [sneak] action to the
same room goes through: [sneakToRoom] consults neither exits nor
locks. *)
Theorem sneakToRoom_passes_locked_exit (roll : Q) (roomId : string)
  (w : World) (e : Exit) :
  find_exit roomId w = Some e ->
  locked e = true ->
  has_key_for (keycardLevel e) (state w) = false ->
  is_Some (environments w !! roomId) ->
  state (executeAction roll (mkData "move" roomId) w) = state w
  /\ currentEnvironment
       (state (executeAction roll (mkData "sneak" roomId) w))
     = Some roomId.
Proof.
  intros He Hl Hk Hr. unfold executeAction, dispatch. cbn [data_verb data_target].
  cbn [String.eqb Ascii.eqb Bool.eqb].
  split.
  - unfold moveToRoom.
    assert (E : find_exit roomId
                  (console_log ("Action: " ++ "move" ++ " " ++ roomId) w)
                = Some e) by exact He.
    rewrite E. cbn [state console_log set_console]. now rewrite Hl, Hk.
  - unfold sneakToRoom, updateUI, emit. cbn [state set_log].
    rewrite enterRoom_room.
    rewrite bool_decide_eq_true_2; [reflexivity | exact Hr].
Qed.

Lemma sneakToRoom_passes_locked_exit_witness :
  state (executeAction 0 (mkData "move" "vault") in_hall) = state in_hall
  /\ currentEnvironment
       (state (executeAction 0 (mkData "sneak" "vault") in_hall))
     = Some "vault".
Proof.
  apply (sneakToRoom_passes_locked_exit 0 "vault" in_hall
           (mkExit "vault" "Vault" true (Some 2)));
    [reflexivity | reflexivity | reflexivity |].
  exists (mkEnvironment "vault" "Vault" None None None None). reflexivity.
Defined.

(** X24. A locked exit without a keycard level is offered by
[getEnvironmentActions] as not blocked, yet [moveToRoom] refuses it
whatever the player carries. *)
Theorem locked_exit_without_level (roomId : string) (w : World) (e : Exit) :
  find_exit roomId w = Some e ->
  locked e = true ->
  keycardLevel e = None ->
  blocked (exit_action (state w) e) = Some false
  /\ state (moveToRoom roomId w) = state w.
Proof.
  intros He Hl Hk. split.
  - unfold exit_action. cbn. now rewrite Hl, Hk.
  - unfold moveToRoom. rewrite He, Hl, Hk.
    assert (E : has_key_for None (state w) = false).
    { unfold has_key_for. induction (player_equipment (state w)) as [| i l IH];
        [reflexivity |].
      cbn [existsb]. rewrite IH. now destruct (keycard_match i). }
    now rewrite E.
Qed.

Lemma locked_exit_without_level_witness :
  blocked (exit_action (state in_hall) (mkExit "archive" "Archive" true None))
  = Some false
  /\ state (moveToRoom "archive" in_hall) = state in_hall.
Proof.
  apply (locked_exit_without_level "archive" in_hall
           (mkExit "archive" "Archive" true None)); reflexivity.
Defined.

Lemma hasFlag_handleGameOver key reason w :
  key <> "game_over" ->
  hasFlag key (state (handleGameOver reason w)) = hasFlag key (state w).
Proof.
  intros Hk. destruct (hasFlag "game_over" (state w)) eqn:E.
  - now rewrite handleGameOver_again.
  - destruct (handleGameOver_first reason w E) as [_ Hf].
    unfold hasFlag. rewrite Hf, lookup_insert_ne by congruence. reflexivity.
Qed.

Lemma hasFlag_handleMissionComplete key w :
  key <> "mission_complete" ->
  hasFlag key (state (handleMissionComplete w)) = hasFlag key (state w).
Proof.
  intros Hk. destruct (hasFlag "mission_complete" (state w)) eqn:E.
  - now rewrite handleMissionComplete_again.
  - destruct (handleMissionComplete_first w E) as [_ Hf].
    unfold hasFlag. rewrite Hf, lookup_insert_ne by congruence. reflexivity.
Qed.

(** X25. One win/lose check of a game still running: it ends in
failure exactly when the player's health is at most zero or the alarm
flag is set, in victory exactly when neither holds and the logs are
carried and flagged, the player is in the main lobby and the exit
objective exists and is open; never in both; otherwise the world is
unchanged; and checking again changes nothing. *)
Theorem checkWinLoseConditions_outcome (w : World) :
  hasFlag "game_over" (state w) = false ->
  hasFlag "mission_complete" (state w) = false ->
  let w' := checkWinLoseConditions w in
  hasFlag "game_over" (state w')
  = leb (p_health (pv w)) 0 || hasFlag "alarm_triggered" (state w)
  /\ hasFlag "mission_complete" (state w') = victory_ready w
  /\ (hasFlag "game_over" (state w') = false
      \/ hasFlag "mission_complete" (state w') = false)
  /\ (hasFlag "game_over" (state w') = false ->
      hasFlag "mission_complete" (state w') = false -> w' = w)
  /\ checkWinLoseConditions w' = w'.
Proof.
  intros Hg Hm. cbv zeta.
  assert (Hcore :
    hasFlag "game_over" (state (checkWinLoseConditions w))
    = leb (p_health (pv w)) 0 || hasFlag "alarm_triggered" (state w)
    /\ hasFlag "mission_complete" (state (checkWinLoseConditions w))
       = victory_ready w
    /\ (hasFlag "game_over" (state (checkWinLoseConditions w)) = false ->
        hasFlag "mission_complete" (state (checkWinLoseConditions w)) = false ->
        checkWinLoseConditions w = w)).
  { unfold checkWinLoseConditions, victory_ready, pv. rewrite Hg, Hm.
    cbn [orb].
    destruct (leb (p_health (player_vitals (state w))) 0) eqn:Eh; cbn [negb andb orb].
    { rewrite handleGameOver_sets, hasFlag_handleGameOver by discriminate.
      split; [reflexivity |]. split; [exact Hm |]. discriminate. }
    destruct (hasFlag "alarm_triggered" (state w)) eqn:Ea; cbn [negb andb orb].
    { rewrite handleGameOver_sets, hasFlag_handleGameOver by discriminate.
      split; [reflexivity |]. split; [exact Hm |]. discriminate. }
    destruct (includes (player_equipment (state w)) "access-logs");
      cbn [andb]; [| auto].
    destruct (bool_decide (currentEnvironment (state w) = Some "lobby-main"));
      cbn [andb]; [| auto].
    destruct (hasFlag "logs_acquired" (state w)); cbn [andb]; [| auto].
    destruct (find_objective "obj-extract-exit" (state w)) as [o |]; [| auto].
    destruct (completed o); cbn [negb]; [auto |].
    rewrite handleMissionComplete_sets, hasFlag_handleMissionComplete
      by discriminate.
    split; [exact Hg |]. split; [reflexivity |]. discriminate. }
  destruct Hcore as (H1 & H2 & H3).
  split; [exact H1 |]. split; [exact H2 |].
  split.
  { rewrite H1, H2. unfold victory_ready.
    destruct (leb (p_health (pv w)) 0); cbn; [now right |].
    destruct (hasFlag "alarm_triggered" (state w)); cbn; [now right | now left]. }
  split; [exact H3 |].
  destruct (hasFlag "game_over" (state (checkWinLoseConditions w))) eqn:E1.
  { unfold checkWinLoseConditions at 1. now rewrite E1. }
  destruct (hasFlag "mission_complete" (state (checkWinLoseConditions w))) eqn:E2.
  { unfold checkWinLoseConditions at 1. rewrite E1, E2. reflexivity. }
  pose proof (H3 eq_refl eq_refl) as E. rewrite E. exact E.
Qed.


Lemma checkWinLoseConditions_outcome_witness :
  let w' := checkWinLoseConditions Examples.tense in
  hasFlag "game_over" (state w')
  = leb (p_health (pv Examples.tense)) 0
    || hasFlag "alarm_triggered" (state Examples.tense)
  /\ hasFlag "mission_complete" (state w') = victory_ready Examples.tense
  /\ (hasFlag "game_over" (state w') = false
      \/ hasFlag "mission_complete" (state w') = false)
  /\ (hasFlag "game_over" (state w') = false ->
      hasFlag "mission_complete" (state w') = false -> w' = Examples.tense)
  /\ checkWinLoseConditions w' = w'.
Proof.
  apply (checkWinLoseConditions_outcome Examples.tense); reflexivity.
Defined.

Lemma takeItem_holds i w :
  includes (player_equipment (state (takeItem i w))) i = true.
Proof.
  unfold takeItem.
  destruct (includes (player_equipment (state w)) i) eqn:E; [exact E |].
  assert (H : includes (player_equipment (state (on_state (addEquipment i) w)))
                       i = true).
  { unfold on_state, addEquipment. cbn [state set_state]. rewrite E. cbn.
    apply bool_decide_eq_true_2, elem_of_app. right. apply list_elem_of_here. }
  destruct (String.eqb i "access-logs"); [| exact H].
  cbv zeta. unfold forceSpeech, emit at 1. cbn [state set_log].
  destruct (find_objective _ _); exact H.
Qed.

(** X26. Taking an item twice is taking it once.  After [takeItem] the
item is held, an inventory without duplicates stays without
duplicates, and the flag [logs_acquired] is set exactly when it was
set before or the access logs were taken as a new item. *)
Theorem takeItem_once (i : string) (w : World) :
  takeItem i (takeItem i w) = takeItem i w
  /\ includes (player_equipment (state (takeItem i w))) i = true
  /\ (NoDup (player_equipment (state w)) ->
      NoDup (player_equipment (state (takeItem i w))))
  /\ hasFlag "logs_acquired" (state (takeItem i w))
     = hasFlag "logs_acquired" (state w)
       || (String.eqb i "access-logs"
           && negb (includes (player_equipment (state w)) i)).
Proof.
  split; [| split; [apply takeItem_holds | split]].
  - unfold takeItem at 1. now rewrite takeItem_holds.
  - intros Hn. unfold takeItem.
    destruct (includes (player_equipment (state w)) i) eqn:E; [exact Hn |].
    assert (H : NoDup (player_equipment (state (on_state (addEquipment i) w)))).
    { unfold on_state, addEquipment. cbn [state set_state]. rewrite E. cbn.
      apply bool_decide_eq_false in E.
      apply NoDup_app. split; [exact Hn |]. split.
      - intros x Hx Hx'. apply list_elem_of_singleton in Hx'. now subst x.
      - apply NoDup_singleton. }
    destruct (String.eqb i "access-logs"); [| exact H].
    cbv zeta. unfold forceSpeech, emit at 1. cbn [state set_log].
    destruct (find_objective _ _); exact H.
  - unfold takeItem.
    destruct (includes (player_equipment (state w)) i) eqn:E.
    { cbn [negb]. now rewrite andb_false_r, orb_false_r. }
    cbn [negb]. rewrite andb_true_r.
    destruct (String.eqb i "access-logs").
    + cbv zeta. unfold forceSpeech, emit at 1. cbn [state set_log].
      rewrite orb_true_r.
      destruct (find_objective _ _); unfold hasFlag; cbn;
        now rewrite lookup_insert_eq.
    + rewrite orb_false_r. unfold on_state, addEquipment.
      cbn [state set_state]. now rewrite E.
Qed.

End GameMore.

(** ** The event bus *)

Module BusFacts.
Import Bus.

Lemma emit_on event c b e' :
  emit e' (on event c b)
  = if String.eqb e' event then emit event b ++ [c] else emit e' b.
Proof.
  unfold emit, on. destruct (String.eqb e' event) eqn:E.
  - apply String.eqb_eq in E. subst e'. rewrite lookup_insert_eq.
    now destruct (b !! event).
  - apply String.eqb_neq in E. rewrite lookup_insert_ne by congruence.
    reflexivity.
Qed.

Lemma emit_off event c b e' :
  emit e' (off event c b)
  = if String.eqb e' event then splice_first c (emit event b) else emit e' b.
Proof.
  unfold emit, off. destruct (String.eqb e' event) eqn:E.
  - apply String.eqb_eq in E. subst e'.
    destruct (b !! event) eqn:Eb.
    + now rewrite lookup_insert_eq.
    + now rewrite Eb.
  - apply String.eqb_neq in E.
    destruct (b !! event); [| reflexivity].
    rewrite lookup_insert_ne by congruence. reflexivity.
Qed.

Lemma splice_first_snoc_fresh c l :
  c ∉ l -> splice_first c (l ++ [c]) = l.
Proof.
  induction l as [| x l IH]; intros Hn; cbn.
  - now rewrite Nat.eqb_refl.
  - destruct (Nat.eqb x c) eqn:E.
    + apply Nat.eqb_eq in E. subst x. exfalso. apply Hn.
      apply list_elem_of_here.
    + f_equal. apply IH. intros Hin. apply Hn.
      now apply list_elem_of_further.
Qed.

Lemma splice_first_snoc_old c l x :
  c ∈ l -> splice_first c (l ++ [x]) = splice_first c l ++ [x].
Proof.
  induction l as [| y l IH]; intros Hin; cbn.
  - now apply elem_of_nil in Hin.
  - destruct (Nat.eqb y c) eqn:E; [reflexivity |].
    apply Nat.eqb_neq in E. apply elem_of_cons in Hin.
    destruct Hin as [-> | Hin]; [congruence |].
    cbn. f_equal. now apply IH.
Qed.

Lemma splice_first_length c l :
  length (splice_first c l)
  = if bool_decide (c ∈ l) then pred (length l) else length l.
Proof.
  induction l as [| x l IH]; cbn.
  - rewrite bool_decide_eq_false_2 by apply not_elem_of_nil. reflexivity.
  - destruct (Nat.eqb x c) eqn:E.
    + apply Nat.eqb_eq in E. subst x.
      rewrite bool_decide_eq_true_2 by apply list_elem_of_here. reflexivity.
    + apply Nat.eqb_neq in E. cbn. rewrite IH.
      destruct (bool_decide (c ∈ l)) eqn:Ec.
      * apply bool_decide_eq_true in Ec.
        rewrite bool_decide_eq_true_2 by now apply list_elem_of_further.
        destruct l; [now apply elem_of_nil in Ec | reflexivity].
      * apply bool_decide_eq_false in Ec.
        rewrite bool_decide_eq_false_2; [reflexivity |].
        intros Hin. apply elem_of_cons in Hin.
        destruct Hin as [-> | Hin]; [congruence | contradiction].
Qed.

(** Registering a callback appends it to the calls of its event
and removing one takes away its earliest registration only; other
events are not affected.  Registering and then removing a callback
gives back the calls as they were if the callback was not registered
before; if it was, its earlier registration is the one removed, so it
is now called last. *)
Theorem on_then_off (event : string) (c : callback)
  (b : gmap string (list callback)) :
  (forall e', e' <> event -> emit e' (off event c (on event c b)) = emit e' b)
  /\ emit event (on event c b) = emit event b ++ [c]
  /\ length (emit event (off event c b))
     = (if bool_decide (c ∈ emit event b)
        then pred (length (emit event b)) else length (emit event b))
  /\ (c ∉ emit event b ->
      emit event (off event c (on event c b)) = emit event b)
  /\ (c ∈ emit event b ->
      emit event (off event c (on event c b))
      = splice_first c (emit event b) ++ [c]).
Proof.
  repeat split.
  - intros e' Hne. apply String.eqb_neq in Hne.
    now rewrite emit_off, Hne, emit_on, Hne.
  - rewrite emit_on. now rewrite String.eqb_refl.
  - rewrite emit_off, String.eqb_refl. apply splice_first_length.
  - intros Hn. rewrite emit_off, String.eqb_refl, emit_on, String.eqb_refl.
    now apply splice_first_snoc_fresh.
  - intros Hin. rewrite emit_off, String.eqb_refl, emit_on, String.eqb_refl.
    now apply splice_first_snoc_old.
Qed.

End BusFacts.

(** ** Condition effects *)

Module EffectsFacts.
Import Js JsFacts Vitals Effects VitalsMore.

Lemma has_union x X k :
  has ({[ x ]} ∪ X) k = String.eqb x k || has X k.
Proof.
  unfold has. destruct (String.eqb x k) eqn:E.
  - apply String.eqb_eq in E. subst k. cbn.
    apply bool_decide_eq_true_2, elem_of_union. left.
    now apply elem_of_singleton.
  - apply String.eqb_neq in E. cbn.
    destruct (bool_decide (k ∈ X)) eqn:Ek.
    + apply bool_decide_eq_true in Ek. apply bool_decide_eq_true_2.
      apply elem_of_union. now right.
    + apply bool_decide_eq_false in Ek. apply bool_decide_eq_false_2.
      rewrite elem_of_union, elem_of_singleton. intros [H | H]; congruence.
Qed.

Lemma number_is_add r q x : number_is r q -> number_is (add r x) (q + x).
Proof. destruct r as [m |]; cbn; [intros H; lra | auto]. Qed.

Lemma turn_entry actionType r q condition effects :
  includes object_prototype_keys actionType = false ->
  own condition CONDITION_EFFECTS = Some effects ->
  number_is r q ->
  number_is (turn actionType r condition) (q + entry actionType effects).
Proof.
  intros Hp Ho Hr. unfold turn, entry. rewrite Ho, Hp.
  assert (H1 : number_is
                 (match own actionType effects with
                  | Some x => if Qeq_bool x 0 then r else add r x
                  | None => r
                  end) (q + default 0 (own actionType effects))).
  { destruct (own actionType effects) as [x |]; cbn [default].
    - destruct (Qeq_bool x 0) eqn:E.
      + apply Qeq_bool_iff in E. destruct r; cbn in *; [lra | auto].
      + now apply number_is_add.
    - destruct r; cbn in *; [lra | auto]. }
  revert H1. generalize (match own actionType effects with
                         | Some x => if Qeq_bool x 0 then r else add r x
                         | None => r
                         end).
  intros m1 H1.
  destruct (own "allActions" effects) as [a |]; cbn [default].
  - destruct (Qeq_bool a 0) eqn:E.
    + apply Qeq_bool_iff in E. destruct m1; cbn in *; [lra | auto].
    + apply (number_is_add m1 _ a) in H1. destruct (add m1 a); cbn in *; [lra | auto].
  - destruct m1; cbn in *; [lra | auto].
Qed.

Ltac tally :=
  repeat match goal with
  | |- context [entry ?a ?l] =>
      let e := fresh "e" in generalize (entry a l); intros e
  end;
  repeat match goal with
  | |- context [has ?X ?k] => destruct (has X k)
  end; lra.

Lemma table_sum_add actionType x X :
  x ∉ X ->
  table_sum actionType ({[ x ]} ∪ X)
  == table_sum actionType X
     + match own x CONDITION_EFFECTS with
       | Some effects => entry actionType effects
       | None => 0
       end.
Proof.
  intros Hx. unfold table_sum, CONDITION_EFFECTS.
  cbn [fold_right fst snd own]. rewrite !has_union.
  assert (Hh : forall k, String.eqb k x = true -> has X k = false).
  { intros k Hk. apply String.eqb_eq in Hk. subst k.
    now apply bool_decide_eq_false_2. }
  assert (Hs : forall k, String.eqb x k = String.eqb k x)
    by (intros k; apply String.eqb_sym).
  rewrite !Hs.
  destruct (String.eqb "high-stress" x) eqn:E1;
    [rewrite (Hh _ E1); apply String.eqb_eq in E1; subst x; cbn; tally |].
  destruct (String.eqb "injured" x) eqn:E2;
    [rewrite (Hh _ E2); apply String.eqb_eq in E2; subst x; cbn; tally |].
  destruct (String.eqb "exhausted" x) eqn:E3;
    [rewrite (Hh _ E3); apply String.eqb_eq in E3; subst x; cbn; tally |].
  destruct (String.eqb "panicked" x) eqn:E4;
    [rewrite (Hh _ E4); apply String.eqb_eq in E4; subst x; cbn; tally |].
  cbn [orb]. tally.
Qed.

Lemma getEffectModifier_sum actionType v :
  includes object_prototype_keys actionType = false ->
  number_is (getEffectModifier actionType v)
            (table_sum actionType (conditions v)).
Proof.
  intros Hp. unfold getEffectModifier.
  apply (set_fold_ind_L
           (fun r X => number_is r (table_sum actionType X))).
  - unfold table_sum, CONDITION_EFFECTS, has.
    cbn [fold_right fst snd number_is].
    rewrite !bool_decide_eq_false_2 by apply not_elem_of_empty. lra.
  - intros x X r Hx Hr.
    pose proof (table_sum_add actionType x X Hx) as Hs.
    destruct (own x CONDITION_EFFECTS) as [effects |] eqn:Eo.
    + pose proof (turn_entry actionType r _ x effects Hp Eo Hr) as Ht.
      destruct (turn actionType r x); cbn in *; [lra | auto].
    + unfold turn. rewrite Eo. destruct r; cbn in *; [lra | auto].
Qed.


Lemma has_derived v :
  has (derived_conditions v) "high-stress" = gtb (stress v) STRESS_HIGH
  /\ has (derived_conditions v) "injured" = ltb (health v) HEALTH_WOUNDED
  /\ has (derived_conditions v) "exhausted" = ltb (stamina v) 20
  /\ has (derived_conditions v) "panicked" = gtb (stress v) STRESS_CRITICAL.
Proof.
  assert (Hb : forall P (b : bool) `{Decision P},
             (P <-> b = true) -> bool_decide P = b).
  { intros P b D H. destruct b.
    - apply bool_decide_eq_true_2. now apply H.
    - apply bool_decide_eq_false_2. intros HP. apply H in HP. discriminate. }
  unfold has, STRESS_HIGH, HEALTH_WOUNDED, STRESS_CRITICAL.
  repeat split; apply Hb; rewrite elem_of_derived, elem_of_autoConditions,
    ?gtb_gt, ?ltb_lt.
  - split; [| tauto]. intros H.
    repeat (destruct H as [H | H]; [destruct H; congruence || tauto |]).
    destruct H as [_ H]. exfalso. apply H. tauto.
  - split; [| tauto]. intros H.
    repeat (destruct H as [H | H]; [destruct H; congruence || tauto |]).
    destruct H as [_ H]. exfalso. apply H. tauto.
  - split; [| tauto]. intros H.
    repeat (destruct H as [H | H]; [destruct H; congruence || tauto |]).
    destruct H as [_ H]. exfalso. apply H. tauto.
  - split; [| tauto]. intros H.
    repeat (destruct H as [H | H]; [destruct H; congruence || tauto |]).
    destruct H as [_ H]. exfalso. apply H. tauto.
Qed.

(** X27. For an action type that is not a name of [Object.prototype],
[getEffectModifier] returns a number: the sum, over the conditions of
the table that are held, of the entry for the action type and the
entry for [allActions], in whatever order the set is walked.  Right
after [updateConditions] the conditions of the table that are held are
those whose threshold is crossed, so the modifier is a function of
stress, health and stamina alone. *)
Theorem getEffectModifier_total (actionType : string) (v : VitalsSystem) :
  includes object_prototype_keys actionType = false ->
  number_is (getEffectModifier actionType v)
            (table_sum actionType (conditions v))
  /\ number_is (getEffectModifier actionType (updateConditions v))
       ((if gtb (stress v) STRESS_HIGH
         then entry actionType (effects_of "high-stress") else 0)
        + (if ltb (health v) HEALTH_WOUNDED
           then entry actionType (effects_of "injured") else 0)
        + (if ltb (stamina v) 20
           then entry actionType (effects_of "exhausted") else 0)
        + (if gtb (stress v) STRESS_CRITICAL
           then entry actionType (effects_of "panicked") else 0)).
Proof.
  intros Hp. split; [now apply getEffectModifier_sum |].
  pose proof (getEffectModifier_sum actionType (updateConditions v) Hp) as H.
  destruct (getEffectModifier actionType (updateConditions v)) as [q |];
    [| exact H].
  cbn [number_is] in *. rewrite H.
  unfold table_sum, effects_of, CONDITION_EFFECTS.
  cbn [fold_right fst snd own conditions updateConditions set_conditions
       String.eqb Ascii.eqb Bool.eqb default from_option id].
  destruct (has_derived v) as (-> & -> & -> & ->).
  destruct (gtb (stress v) STRESS_HIGH), (ltb (health v) HEALTH_WOUNDED),
    (ltb (stamina v) 20), (gtb (stress v) STRESS_CRITICAL); tally.
Qed.

Lemma getEffectModifier_total_witness :
  let v := mkVitals 100 100 10 100 95 0 ∅ [] in
  number_is (getEffectModifier "combat" v) (table_sum "combat" (conditions v))
  /\ number_is (getEffectModifier "combat" (updateConditions v))
       ((if gtb (stress v) STRESS_HIGH
         then entry "combat" (effects_of "high-stress") else 0)
        + (if ltb (health v) HEALTH_WOUNDED
           then entry "combat" (effects_of "injured") else 0)
        + (if ltb (stamina v) 20
           then entry "combat" (effects_of "exhausted") else 0)
        + (if gtb (stress v) STRESS_CRITICAL
           then entry "combat" (effects_of "panicked") else 0)).
Proof.
  apply (getEffectModifier_total "combat"
           (mkVitals 100 100 10 100 95 0 ∅ [])).
  reflexivity.
Defined.

End EffectsFacts.

(** ** Cards and the display manager *)

Module DisplayFacts.
Import Js JsFacts Vitals Npc State Priority Modes PriorityOps PriorityFacts
       PriorityMore Display.

Lemma state_eqb_eq a b : state_eqb a b = true <-> a = b.
Proof. destruct a, b; cbn; split; congruence. Qed.

Lemma state_eqb_sym a b : state_eqb a b = state_eqb b a.
Proof. now destruct a, b. Qed.

(** The state a card should be in depends on its type and data only. *)
Lemma determineCardState_reads c c' top :
  card_type c' = card_type c -> card_data c' = card_data c ->
  determineCardState c' top = determineCardState c top.
Proof.
  intros Ht Hd.
  unfold determineCardState, determineActionPaletteState,
    determineSloanPanelState, determineInventoryState, determineVitalsState,
    determineMapState, determineDialogueState.
  now rewrite Ht, Hd.
Qed.

Lemma card_frame_restarts c0 c f :
  fst f < 300 ->
  determineCardState c0 (head (snd f)) <> card_state c0 ->
  (c = c0 /\ transitioning c0 = false) \/ restarted c0 c ->
  restarted c0 (card_frame f c).
Proof.
  intros Hdt Hw Hc.
  assert (Hu : card_type (updateTransition (fst f) c) = card_type c0
               /\ card_data (updateTransition (fst f) c) = card_data c0
               /\ card_state (updateTransition (fst f) c) = card_state c0).
  { destruct Hc as [[-> Hn] | (Ht & Hd & Hs & Htr & Hp & Hdu & [tg Htg])].
    - unfold updateTransition. now rewrite Hn.
    - unfold updateTransition. rewrite Htr, Hdu, Htg, Hp. cbn [negb].
      assert (E : geb (0 + fst f / 300) 1 = false).
      { apply geb_lt. assert (fst f / 300 < 1); [| lra].
        apply Qlt_shift_div_r; lra. }
      rewrite E. cbn. auto. }
  destruct Hu as (Ht & Hd & Hs).
  unfold card_frame, recalculate_card.
  rewrite (determineCardState_reads c0 _ _ Ht Hd).
  rewrite Hs.
  destruct (state_eqb (determineCardState c0 (head (snd f))) (card_state c0))
    eqn:E; [apply state_eqb_eq in E; contradiction |].
  cbn [negb]. unfold transitionTo. rewrite Hs, state_eqb_sym, E.
  unfold restarted. cbn. repeat split; eauto.
Qed.

Lemma fold_restarts c0 fs c1 :
  Forall (fun f => fst f < 300
                   /\ determineCardState c0 (head (snd f)) <> card_state c0)
         fs ->
  restarted c0 c1 ->
  restarted c0 (fold_left (fun c' f => card_frame f c') fs c1).
Proof.
  revert c1. induction fs as [| f fs IH]; intros c1 Hfs Hc; [exact Hc |].
  apply Forall_cons in Hfs. destruct Hfs as [[Hdt Hw] Hfs].
  cbn [fold_left]. apply IH; [exact Hfs |].
  apply card_frame_restarts; auto.
Qed.

Lemma frames_cards d fs :
  cards (frames d fs) = map (fun c => fold_left (fun c' f => card_frame f c') fs c)
                            (cards d).
Proof.
  unfold frames. revert d. induction fs as [| f fs IH]; intros d.
  - cbn. now rewrite map_id.
  - cbn [fold_left]. rewrite IH. unfold frame, handlePriorityUpdate,
      recalculateCardStates, update. cbn [cards priorities].
    rewrite !map_map. reflexivity.
Qed.

(** X28. The game loop updates the display and then notifies it of the
priorities, in every frame.  As long as the state wanted for a card
differs from its state and the frames are shorter than the 300 ms of a
transition, each notification starts the transition again from zero:
after any number of such frames the card is still in its old state, in
transition, with no progress and a blend of zero. *)
Theorem transition_restarts (d : DisplayManager)
  (fs : list (Q * list PriorityItem)) (i : nat) (c : Card) :
  cards d !! i = Some c ->
  transitioning c = false ->
  Forall (fun f => fst f < 300
                   /\ determineCardState c (head (snd f)) <> card_state c) fs ->
  fs <> [] ->
  exists c', cards (frames d fs) !! i = Some c'
             /\ card_state c' = card_state c
             /\ transitioning c' = true
             /\ transitionProgress c' = 0
             /\ blend c' = 0.
Proof.
  intros Hi Hn Hfs Hne.
  rewrite frames_cards, list_lookup_fmap, Hi. cbn.
  eexists. split; [reflexivity |].
  assert (H : restarted c (fold_left (fun c' f => card_frame f c') fs c)).
  { destruct fs as [| f fs]; [congruence |].
    apply Forall_cons in Hfs. destruct Hfs as [[Hdt Hw] Hfs].
    cbn [fold_left]. apply fold_restarts; [exact Hfs |].
    apply card_frame_restarts; auto. }
  destruct H as (_ & _ & Hs & Ht & Hp & _).
  repeat split; try assumption.
  unfold blend. rewrite Ht, Hp. reflexivity.
Qed.

Lemma transition_restarts_witness :
  let c := new_card "inv" "inventory" None
                    (mkCardData None false false false false) in
  let top := mkItem "npc-interaction" TIER_IMMEDIATE 95 (DEngaged []) in
  exists c',
    cards (frames (mkDisplay [c] [] [] (mkMods 0 0 0 0))
                  [ (16, [top]); (17, [top]) ]) !! 0%nat = Some c'
    /\ card_state c' = card_state c
    /\ transitioning c' = true
    /\ transitionProgress c' = 0
    /\ blend c' = 0.
Proof.
  apply (transition_restarts
           (mkDisplay [ new_card "inv" "inventory" None
                          (mkCardData None false false false false) ]
                      [] [] (mkMods 0 0 0 0))
           [ (16, [ mkItem "npc-interaction" TIER_IMMEDIATE 95 (DEngaged []) ]);
             (17, [ mkItem "npc-interaction" TIER_IMMEDIATE 95 (DEngaged []) ]) ]
           0%nat).
  - reflexivity.
  - reflexivity.
  - repeat constructor; cbn; discriminate.
  - discriminate.
Defined.

Lemma no_hostile_engaged s ns :
  getCombatants s ns = [] ->
  existsb (fun e => bool_decide (e_awareness e = Hostile))
          (getEngagedNPCs s ns) = false.
Proof.
  unfold getCombatants, getEngagedNPCs.
  induction ns as [| n ns IH]; [reflexivity |].
  rewrite !filter_cons.
  destruct (decide (is_combatant s n)) as [Hc | Hc]; [discriminate |].
  intros Hrest. specialize (IH Hrest).
  destruct (decide _) as [He | He]; [| exact IH].
  cbn [map existsb e_awareness]. rewrite IH, orb_false_r.
  apply bool_decide_eq_false_2. intros Hh. apply Hc.
  unfold is_combatant. rewrite Hh.
  apply Is_true_true in He.
  rewrite !andb_true_iff in He. destruct He as [[[H1 H2] H3] H4].
  rewrite H1, H2, H4. cbn.
  rewrite bool_decide_eq_true_2 by reflexivity. exact I.
Qed.

Lemma head_ranked_hostile s envs ns :
  is_interaction (head (ranked s envs ns)) = true ->
  some_hostile (head (ranked s envs ns)) = false.
Proof.
  unfold ranked. cbv zeta.
  destruct (getCombatants s ns) as [| c cs] eqn:Ec; [| discriminate].
  pose proof (no_hostile_engaged s ns Ec) as Hh.
  destruct (getEngagedNPCs s ns) as [| e es]; cbn.
  - intros _.
    repeat match goal with
    | |- context [push_if ?b ?i] => destruct b; cbn; [reflexivity |]
    | |- context [match ?o with Some _ => _ | None => _ end] =>
        destruct o; cbn; [reflexivity |]
    end.
    reflexivity.
  - intros _. exact Hh.
Qed.

(** X29. The advisor panel is minimised only for an NPC interaction
with a hostile NPC among the engaged.  [evaluate] never pushes such an
item: an engaged hostile NPC is a combatant, and with a combatant
present the interaction item is not pushed.  So for every priority
list the manager returns, fresh or cached, the panel is expanded while
the advisor speaks and standard otherwise. *)
Theorem advisor_panel_never_minimized (now : Q) (s : GameState)
  (envs : gmap string Environment) (ns : list NPC) (pm : PriorityManager)
  (c : Card) :
  reachable pm ->
  let top := head (fst (evaluate now s envs ns pm)) in
  determineSloanPanelState c top
  = (if speaking (card_data c) then Expanded else Standard).
Proof.
  intros Hr. cbv zeta.
  destruct (evaluate_some_snapshot now s envs ns pm Hr)
    as (s' & envs' & ns' & ->).
  rewrite collect_ranked. unfold determineSloanPanelState.
  destruct (speaking (card_data c)); [reflexivity |].
  destruct (is_interaction (head (ranked s' envs' ns'))) eqn:E;
    [| reflexivity].
  now rewrite (head_ranked_hostile s' envs' ns' E).
Qed.

Lemma advisor_panel_never_minimized_witness :
  determineSloanPanelState
    (new_card "sloan" "sloan-panel" None
              (mkCardData None false false false false))
    (head (fst (evaluate 0 Examples.standoff Examples.facility
                         (npcs Examples.standoff) initial_pm)))
  = Standard.
Proof.
  apply (advisor_panel_never_minimized 0 Examples.standoff Examples.facility
           (npcs Examples.standoff) initial_pm
           (new_card "sloan" "sloan-panel" None
                     (mkCardData None false false false false))).
  constructor.
Defined.

Lemma min1_unit x : 0 <= x -> 0 <= Math_min 1 x /\ Math_min 1 x <= 1.
Proof.
  intros H. destruct (Math_min_spec 1 x) as [[? ->] | [? ->]]; lra.
Qed.

Lemma accumulate_in_unit m kv :
  0 <= snd kv -> in_unit m -> in_unit (accumulate m kv).
Proof.
  intros Hv Hm k. unfold accumulate.
  assert (Hs : 0 <= Math_min 1 (fl (get_channel (fst kv) m + snd kv))
               /\ Math_min 1 (fl (get_channel (fst kv) m + snd kv)) <= 1).
  { apply min1_unit, fl_nonneg. destruct (Hm (fst kv)). lra. }
  revert Hs. generalize (Math_min 1 (fl (get_channel (fst kv) m + snd kv))).
  intros x Hx. pose proof (Hm k) as Hk.
  destruct k, (fst kv); cbn in *; tauto.
Qed.

Lemma fold_accumulate_in_unit e m :
  nonneg e -> in_unit m -> in_unit (fold_left accumulate e m).
Proof.
  revert m. induction e as [| kv e IH]; intros m Hn Hm; [exact Hm |].
  apply Forall_cons in Hn. destruct Hn as [Hv Hn].
  cbn [fold_left]. apply IH; [exact Hn |]. now apply accumulate_in_unit.
Qed.

Lemma total_of_in_unit es :
  Forall (fun e => nonneg (snd e)) es -> in_unit (total_of es).
Proof.
  unfold total_of.
  assert (H0 : in_unit (mkMods 0 0 0 0)) by (intros k; destruct k; cbn; lra).
  revert H0. generalize (mkMods 0 0 0 0).
  induction es as [| e es IH]; intros m Hm Hn; [exact Hm |].
  apply Forall_cons in Hn. destruct Hn as [He Hn].
  cbn [fold_left]. apply IH; [| exact Hn].
  now apply fold_accumulate_in_unit.
Qed.

Lemma effectMap_get_nonneg c e : effectMap_get c = Some e -> nonneg e.
Proof.
  unfold effectMap_get, effectMap. cbn [assoc].
  repeat (destruct (String.eqb _ c);
          [intros H; injection H as <-; unfold nonneg;
           repeat constructor; cbn [snd]; apply fl_nonneg; lra |]).
  destruct (includes object_prototype_keys c); [| discriminate].
  intros H. injection H as <-. constructor.
Qed.

Lemma map_set_Forall {A} (P : string * A -> Prop) k x l :
  (forall k', P (k', x)) -> Forall P l -> Forall P (map_set k x l).
Proof.
  intros Hx. induction 1 as [| [k' y] l Hy Hl IH]; cbn.
  - repeat constructor. apply Hx.
  - destruct (String.eqb k' k); constructor; auto.
Qed.

Lemma map_delete_Forall {A} (P : string * A -> Prop) k l :
  Forall P l -> Forall P (map_delete k l).
Proof.
  induction 1 as [| [k' y] l Hy Hl IH]; cbn; [constructor |].
  destruct (String.eqb k' k); [exact Hl | constructor; auto].
Qed.

Lemma map_delete_set {A} k (x : A) l :
  assoc k l = None -> map_delete k (map_set k x l) = l.
Proof.
  induction l as [| [k' y] l IH]; cbn.
  - now rewrite String.eqb_refl.
  - destruct (String.eqb k' k) eqn:E; [discriminate |].
    intros H. cbn. rewrite E. f_equal. now apply IH.
Qed.

Lemma handleConditionChange_tidy c added d :
  tidy d -> tidy (handleConditionChange c added d).
Proof.
  intros [Hn Hm]. unfold handleConditionChange.
  destruct (effectMap_get c) as [e |] eqn:E; [| split; assumption].
  apply effectMap_get_nonneg in E.
  split; [| reflexivity]. cbn [activeEffects recalculateModifiers].
  destruct added.
  - apply map_set_Forall; [intros k'; exact E | exact Hn].
  - now apply map_delete_Forall.
Qed.

Lemma changes_tidy cs d : tidy d -> tidy (changes d cs).
Proof.
  unfold changes. revert d. induction cs as [| c cs IH]; intros d Hd;
    [exact Hd |].
  cbn [fold_left]. apply IH. now apply handleConditionChange_tidy.
Qed.

(** X30. However conditions are added and removed, each of the four
global modifiers lies within [0, 1], and the modifiers are those
[recalculateModifiers] computes from the active effects in the order
in which they became active.  Adding a condition that is not active
and removing it again gives back the manager as it was.  The order
matters, because the sums are sums of doubles: with injured, critical
and hidden active, darken is 0.1 + 0.3 + 0.2 or 0.3 + 0.2 + 0.1, and
these differ. *)
Theorem modifiers_in_unit (cs : list (string * bool)) :
  let d := changes new_display cs in
  in_unit (modifiers d)
  /\ modifiers d = total_of (activeEffects d)
  /\ (forall c, assoc c (activeEffects d) = None ->
                handleConditionChange c false (handleConditionChange c true d)
                = d)
  /\ ~ m_darken (modifiers (changes new_display
                              [ ("injured", true); ("critical", true);
                                ("hidden", true) ]))
       == m_darken (modifiers (changes new_display
                                 [ ("critical", true); ("hidden", true);
                                   ("injured", true) ])).
Proof.
  cbv zeta.
  assert (Ht : tidy (changes new_display cs)).
  { apply changes_tidy. split; [constructor | reflexivity]. }
  destruct Ht as [Hn Hm].
  split; [rewrite Hm; now apply total_of_in_unit |].
  split; [exact Hm |].
  split.
  - intros c Hc. revert Hn Hm Hc.
    generalize (changes new_display cs). intros d Hn Hm Hc.
    unfold handleConditionChange.
    destruct (effectMap_get c) as [e |] eqn:E; [| reflexivity].
    cbn [cards activeEffects priorities recalculateModifiers].
    rewrite (map_delete_set c e _ Hc).
    destruct d as [cds es ps ms]. cbn in *. now subst ms.
  - intros H. apply Qeq_bool_iff in H. vm_compute in H. discriminate H.
Qed.

End DisplayFacts.
